(** * Crowd Killer asset generator: a shallow embedding of
      [scripts/generate_assets.py] and the properties of its colour maths,
      validator, pixel-grid generator and shelf packer. *)

From Stdlib Require Import ZArith QArith Qround Lia Lqa Bool List.
From Stdlib Require Import Ascii String.
From Stdlib Require Import Sorting.Permutation Sorting.Sorted.
From Stdlib Require Import Floats.PrimFloat Floats.FloatOps Floats.SpecFloat.
Import ListNotations.

Open Scope Z_scope.

(* ================================================================== *)
(** * Python runtime pieces used by the script *)
(* ================================================================== *)

(** A small error monad: [None] stands for a raised exception. *)
Definition bind {A B} (m : option A) (k : A -> option B) : option B :=
  match m with Some a => k a | None => None end.

Notation "x <- m ;; k" := (bind m (fun x => k))
  (at level 61, m at next level, right associativity).
Notation "' pat <- m ;; k" := (bind m (fun x => match x with pat => k end))
  (at level 61, pat pattern, m at next level, right associativity).

Fixpoint mapM {A B} (f : A -> option B) (l : list A) : option (list B) :=
  match l with
  | [] => Some []
  | a :: t => b <- f a ;; bs <- mapM f t ;; Some (b :: bs)
  end.

(** [range(n)] *)
Definition range (n : Z) : list Z := map Z.of_nat (seq 0 (Z.to_nat n)).

(** [int.bit_length()]: the number of bits of the absolute value. *)
Definition bit_length (n : Z) : Z :=
  if n =? 0 then 0 else Z.log2 (Z.abs n) + 1.

(** ** Strings

    Python [str] values are modelled by [string] (one [ascii] per character),
    which is exact for the ASCII names and hex colours the script handles. *)

(** [s.lstrip('#')] *)
Fixpoint lstrip_hash (s : string) : string :=
  match s with
  | String "#"%char t => lstrip_hash t
  | _ => s
  end.

Definition hex_digit (c : ascii) : option Z :=
  let n := Z.of_nat (nat_of_ascii c) in
  if (48 <=? n) && (n <=? 57) then Some (n - 48)
  else if (97 <=? n) && (n <=? 102) then Some (n - 87)
  else if (65 <=? n) && (n <=? 70) then Some (n - 55)
  else None.

(** [int(s, 16)] on the two-character slices of a colour: the value of a
    string of hexadecimal digits. Any other slice is the [ValueError] case
    here; Python's [int] would also take a sign or blanks around a digit
    (["+f"], [" f"]), which no hex colour contains. *)
Fixpoint int16_from (acc : Z) (s : string) : option Z :=
  match s with
  | EmptyString => Some acc
  | String c t => d <- hex_digit c ;; int16_from (16 * acc + d) t
  end.

Definition int16 (s : string) : option Z :=
  match s with
  | EmptyString => None
  | _ => int16_from 0 s
  end.

Definition lower_hex_char (d : Z) : ascii :=
  ascii_of_nat (Z.to_nat (if d <? 10 then 48 + d else 87 + d)).

Fixpoint hex_loop (fuel : nat) (n : Z) (acc : string) : string :=
  match fuel with
  | O => acc
  | S f =>
      let acc' := String (lower_hex_char (n mod 16)) acc in
      if n / 16 =? 0 then acc' else hex_loop f (n / 16) acc'
  end.

(** [format(n, 'x')] for [n >= 0] *)
Definition hex_of_nonneg (n : Z) : string :=
  hex_loop (S (Z.to_nat (Z.log2 n))) n EmptyString.

(** [f"{n:02x}"]: lowercase hexadecimal, zero padded to width 2, with a
    leading minus sign for negative numbers. *)
Definition format_02x (n : Z) : string :=
  if n <? 0 then String "-"%char (hex_of_nonneg (- n))
  else
    let s := hex_of_nonneg n in
    if (String.length s <? 2)%nat then String "0"%char s else s.

(** ** The built-in [hash] of a [str]

    CPython hashes the bytes of a string with SipHash-1-3 keyed by a secret
    [(k0, k1)] that is drawn once per process (from [PYTHONHASHSEED] when it
    is set, from the operating system otherwise); the result is a signed
    64-bit integer, with [-1] replaced by [-2] and the empty string hashed
    to [0]. The process secret is an explicit argument here. *)

Definition mask64 : Z := 2 ^ 64 - 1.
Definition add64 (a b : Z) : Z := Z.land (a + b) mask64.
Definition rotl64 (x b : Z) : Z :=
  Z.land (Z.lor (Z.shiftl x b) (Z.shiftr x (64 - b))) mask64.

Definition sip_state : Type := Z * Z * Z * Z.

Definition sip_round (v : sip_state) : sip_state :=
  let '(v0, v1, v2, v3) := v in
  let v0 := add64 v0 v1 in
  let v2 := add64 v2 v3 in
  let v1 := Z.lxor (rotl64 v1 13) v0 in
  let v3 := Z.lxor (rotl64 v3 16) v2 in
  let v0 := rotl64 v0 32 in
  let v2 := add64 v2 v1 in
  let v0 := add64 v0 v3 in
  let v1 := Z.lxor (rotl64 v1 17) v2 in
  let v3 := Z.lxor (rotl64 v3 21) v0 in
  let v2 := rotl64 v2 32 in
  (v0, v1, v2, v3).

Definition sip_absorb (v : sip_state) (m : Z) : sip_state :=
  let '(v0, v1, v2, v3) := v in
  let '(v0, v1, v2, v3) := sip_round (v0, v1, v2, Z.lxor v3 m) in
  (Z.lxor v0 m, v1, v2, v3).

(** little-endian value of a block of bytes *)
Fixpoint le_bytes (l : list Z) : Z :=
  match l with
  | [] => 0
  | b :: t => b + 256 * le_bytes t
  end.

Fixpoint sip_blocks (fuel : nat) (v : sip_state) (l : list Z) : sip_state * list Z :=
  match fuel with
  | O => (v, l)
  | S f =>
      if (8 <=? Z.of_nat (List.length l)) then
        sip_blocks f (sip_absorb v (le_bytes (firstn 8 l))) (skipn 8 l)
      else (v, l)
  end.

Definition siphash13 (k0 k1 : Z) (src : list Z) : Z :=
  let b := Z.land (Z.shiftl (Z.of_nat (List.length src)) 56) mask64 in
  let v := (Z.lxor k0 0x736f6d6570736575, Z.lxor k1 0x646f72616e646f6d,
            Z.lxor k0 0x6c7967656e657261, Z.lxor k1 0x7465646279746573) in
  let '(v, rest) := sip_blocks (List.length src) v src in
  let b := Z.lor b (le_bytes rest) in
  let '(v0, v1, v2, v3) := sip_absorb v b in
  let v2 := Z.lxor v2 0xff in
  let '(v0, v1, v2, v3) := sip_round (sip_round (sip_round (v0, v1, v2, v3))) in
  Z.lxor (Z.lxor v0 v1) (Z.lxor v2 v3).

Definition bytes_of_string (s : string) : list Z :=
  map (fun c => Z.of_nat (nat_of_ascii c)) (list_ascii_of_string s).

Definition py_hash (secret : Z * Z) (s : string) : Z :=
  match s with
  | EmptyString => 0
  | _ =>
      let u := siphash13 (fst secret) (snd secret) (bytes_of_string s) in
      let x := if u <? 2 ^ 63 then u else u - 2 ^ 64 in
      if x =? -1 then -2 else x
  end.

(** The secret CPython derives from [PYTHONHASHSEED=n] ([n > 0]) with its
    linear congruential generator; [PYTHONHASHSEED=0] gives the zero key. *)
Fixpoint lcg_bytes (n : nat) (x : Z) : list Z :=
  match n with
  | O => []
  | S n' =>
      let x' := (x * 214013 + 2531011) mod 2 ^ 32 in
      Z.land (Z.shiftr x' 16) 255 :: lcg_bytes n' x'
  end.

Definition secret_of_hashseed (seed : Z) : Z * Z :=
  if seed =? 0 then (0, 0)
  else
    let bs := lcg_bytes 16 seed in
    (le_bytes (firstn 8 bs), le_bytes (skipn 8 bs)).

(* ================================================================== *)
(** * Python [float] arithmetic *)
(* ================================================================== *)

(** The operations the script performs on [float] values. Two instances
    follow: IEEE-754 binary64 (what CPython computes), on which the code is
    evaluated, and exact rationals, in which range arguments that do not
    depend on rounding are carried out. *)
Class PyFloat (F : Type) := {
  of_int : Z -> F;              (* [float(n)] *)
  int_fits : Z -> bool;         (* [float(n)] does not raise OverflowError *)
  fadd : F -> F -> F;
  fsub : F -> F -> F;
  fmul : F -> F -> F;
  fdiv : F -> F -> F;           (* [x / y]; the script never divides by 0 *)
  fmod : F -> F -> F;           (* [x % y]; the moduli are 6 and 360 *)
  feqb : F -> F -> bool;
  fltb : F -> F -> bool;
  fleb : F -> F -> bool;
  to_int : F -> option Z        (* [int(x)], ValueError/OverflowError as None *)
}.

Declare Scope pyfloat_scope.
Delimit Scope pyfloat_scope with py.
Infix "+!" := fadd (at level 50, left associativity) : pyfloat_scope.
Infix "-!" := fsub (at level 50, left associativity) : pyfloat_scope.
Infix "*!" := fmul (at level 40, left associativity) : pyfloat_scope.
Infix "/!" := fdiv (at level 40, left associativity) : pyfloat_scope.
Infix "<!" := fltb (at level 70, no associativity) : pyfloat_scope.
Infix "<=!" := fleb (at level 70, no associativity) : pyfloat_scope.
Infix "==!" := feqb (at level 70, no associativity) : pyfloat_scope.

(** ** IEEE-754 binary64 *)

Definition ieee_of_int (z : Z) : float :=
  SF2Prim (binary_normalize prec emax z 0 false).

(** Integers that round to a finite binary64 value. *)
Definition ieee_int_fits (z : Z) : bool :=
  Z.abs z <? 2 ^ 1024 - 2 ^ 970.

(** [int(x)]: truncation towards zero; NaN and infinities raise. *)
Definition ieee_to_int (x : float) : option Z :=
  match Prim2SF x with
  | S754_zero _ => Some 0
  | S754_finite s m e =>
      let a := if 0 <=? e then Z.pos m * 2 ^ e else Z.pos m / 2 ^ (- e) in
      Some (if s then - a else a)
  | _ => None
  end.

(** C's [fmod]: the exact remainder, with the sign of the dividend. *)
Definition ieee_c_fmod (x y : float) : float :=
  match Prim2SF x, Prim2SF y with
  | S754_finite sx mx ex, S754_finite _ my ey =>
      let e := Z.min ex ey in
      let r := (Z.pos mx * 2 ^ (ex - e)) mod (Z.pos my * 2 ^ (ey - e)) in
      SF2Prim (binary_normalize prec emax (if sx then - r else r) e sx)
  | S754_zero _, S754_finite _ _ _ => x
  | S754_zero _, S754_infinity _ => x
  | S754_finite _ _ _, S754_infinity _ => x
  | _, _ => nan
  end.

(** CPython's [float_rem]: the remainder takes the sign of the divisor. *)
Definition ieee_mod (x y : float) : float :=
  let m := ieee_c_fmod x y in
  if negb (PrimFloat.eqb m zero) then
    if negb (Bool.eqb (PrimFloat.ltb y zero) (PrimFloat.ltb m zero))
    then PrimFloat.add m y else m
  else if PrimFloat.ltb y zero then neg_zero else zero.

#[export] Instance IEEE : PyFloat float := {
  of_int := ieee_of_int;
  int_fits := ieee_int_fits;
  fadd := PrimFloat.add;
  fsub := PrimFloat.sub;
  fmul := PrimFloat.mul;
  fdiv := PrimFloat.div;
  fmod := ieee_mod;
  feqb := PrimFloat.eqb;
  fltb := PrimFloat.ltb;
  fleb := PrimFloat.leb;
  to_int := ieee_to_int
}.

(** ** Exact rationals *)

Definition Qtrunc (q : Q) : Z := Z.quot (Qnum q) (Z.pos (Qden q)).

Definition Qltb (a b : Q) : bool := negb (Qle_bool b a).

Definition exact_mod (x y : Q) : Q :=
  let m := (x - y * inject_Z (Qtrunc (x / y)))%Q in
  if negb (Qeq_bool m 0) then
    if negb (Bool.eqb (Qltb y 0) (Qltb m 0)) then (m + y)%Q else m
  else 0%Q.

#[export] Instance Exact : PyFloat Q := {
  of_int := inject_Z;
  int_fits := fun _ => true;
  fadd := Qplus;
  fsub := Qminus;
  fmul := Qmult;
  fdiv := Qdiv;
  fmod := exact_mod;
  feqb := Qeq_bool;
  fltb := Qltb;
  fleb := Qle_bool;
  to_int := fun q => Some (Qtrunc q)
}.

(** A Python number as the script passes it around: an [int] or a [float]. *)
Inductive PyNum (F : Type) : Type :=
| PInt (n : Z)
| PFloat (x : F).
Arguments PInt {F} n.
Arguments PFloat {F} x.

(* ================================================================== *)
(** * Utility functions (colour maths) *)
(* ================================================================== *)

Definition RGBA : Type := Z * Z * Z * Z.
Definition RGB : Type := Z * Z * Z.

Definition alpha_of (p : RGBA) : Z := let '(_, _, _, a) := p in a.
Definition rgb_of (p : RGBA) : RGB := let '(r, g, b, _) := p in (r, g, b).

(** [hex_to_rgba]: "#RRGGBB" or "#RRGGBBAA" to an RGBA tuple. *)
Definition hex_to_rgba (hex_color : string) : option RGBA :=
  let hex_color := lstrip_hash hex_color in
  if (String.length hex_color =? 6)%nat then
    r <- int16 (substring 0 2 hex_color) ;;
    g <- int16 (substring 2 2 hex_color) ;;
    b <- int16 (substring 4 2 hex_color) ;;
    Some (r, g, b, 255)
  else if (String.length hex_color =? 8)%nat then
    r <- int16 (substring 0 2 hex_color) ;;
    g <- int16 (substring 2 2 hex_color) ;;
    b <- int16 (substring 4 2 hex_color) ;;
    a <- int16 (substring 6 2 hex_color) ;;
    Some (r, g, b, a)
  else None.

(** [rgb_to_hex]: the first three components as "#rrggbb". *)
Definition rgb_to_hex (rgb : RGB) : string :=
  let '(r, g, b) := rgb in
  String "#"%char (format_02x r ++ format_02x g ++ format_02x b)%string.

Section ColorMath.
Context {F : Type} {fl : PyFloat F}.
Local Open Scope pyfloat_scope.

(** A decimal literal [n/d] such as [0.7]: the float nearest to the
    rational, which is what the correctly rounded quotient of the two
    (exactly representable) integers gives. *)
Definition lit (n d : Z) : F := of_int n /! of_int d.

(** [max(a, b, c)] and [min(a, b, c)]: the first extremal item. *)
Definition fmax3 (a b c : F) : F :=
  let m := if a <! b then b else a in
  if m <! c then c else m.
Definition fmin3 (a b c : F) : F :=
  let m := if b <! a then b else a in
  if c <! m then c else m.

Definition hue_to_rgb (p q t : F) : F :=
  let t := if t <! of_int 0 then t +! of_int 1 else t in
  let t := if of_int 1 <! t then t -! of_int 1 else t in
  if t <! lit 1 6 then p +! (q -! p) *! of_int 6 *! t
  else if t <! lit 1 2 then q
  else if t <! lit 2 3 then p +! (q -! p) *! (lit 2 3 -! t) *! of_int 6
  else p.

(** The three channels of [hsl_to_rgb] before conversion to integers. *)
Definition hsl_channels (h s l : F) : F * F * F :=
  if s ==! of_int 0 then (l, l, l)
  else
    let q := if l <! lit 1 2 then l *! (of_int 1 +! s)
             else l +! s -! l *! s in
    let p := of_int 2 *! l -! q in
    (hue_to_rgb p q (h +! lit 1 3),
     hue_to_rgb p q h,
     hue_to_rgb p q (h -! lit 1 3)).

Definition hsl_to_rgb (h s l : F) : option RGB :=
  let '(r, g, b) := hsl_channels h s l in
  r' <- to_int (r *! of_int 255) ;;
  g' <- to_int (g *! of_int 255) ;;
  b' <- to_int (b *! of_int 255) ;;
  Some (r', g', b').

(** The hue (in degrees before rotation, an [int] 0 for greys), the
    saturation and the lightness [rotate_hue] computes from a colour. *)
Definition hue_sat_light (rgb : RGB) : PyNum F * F * F :=
  let '(r, g, b) := rgb in
  let r_norm := of_int r /! of_int 255 in
  let g_norm := of_int g /! of_int 255 in
  let b_norm := of_int b /! of_int 255 in
  let cmax := fmax3 r_norm g_norm b_norm in
  let cmin := fmin3 r_norm g_norm b_norm in
  let delta := cmax -! cmin in
  let h :=
    if delta ==! of_int 0 then PInt 0
    else if cmax ==! r_norm then
      PFloat (fmod ((g_norm -! b_norm) /! delta) (of_int 6) *! of_int 60)
    else if cmax ==! g_norm then
      PFloat (((b_norm -! r_norm) /! delta +! of_int 2) *! of_int 60)
    else
      PFloat (((r_norm -! g_norm) /! delta +! of_int 4) *! of_int 60) in
  let s := if cmax ==! of_int 0 then of_int 0 else delta /! cmax in
  let l := (cmax +! cmin) /! of_int 2 in
  (h, s, l).

(** [(h + degrees) % 360 / 360.0] with Python's mixed int/float rules. *)
Definition rotated_hue (h degrees : PyNum F) : option F :=
  match h, degrees with
  | PInt a, PInt d => Some (of_int ((a + d) mod 360) /! of_int 360)
  | PInt a, PFloat d =>
      Some (fmod (of_int a +! d) (of_int 360) /! of_int 360)
  | PFloat x, PInt d =>
      if int_fits d
      then Some (fmod (x +! of_int d) (of_int 360) /! of_int 360)
      else None
  | PFloat x, PFloat d => Some (fmod (x +! d) (of_int 360) /! of_int 360)
  end.

Definition rotate_hue (hex_color : string) (degrees : PyNum F) : option string :=
  rgba <- hex_to_rgba hex_color ;;
  let '(h, s, l) := hue_sat_light (rgb_of rgba) in
  h' <- rotated_hue h degrees ;;
  new_rgb <- hsl_to_rgb h' s l ;;
  Some (rgb_to_hex new_rgb).

End ColorMath.

Section Numbers.
Context {F : Type} {fl : PyFloat F}.
Local Open Scope pyfloat_scope.

(** [int(n)] of a Python number *)
Definition py_int (n : PyNum F) : option Z :=
  match n with
  | PInt i => Some i
  | PFloat x => to_int x
  end.

(** [next_power_of_2]: [1 << (int(n) - 1).bit_length()] *)
Definition next_power_of_2 (n : PyNum F) : option Z :=
  i <- py_int n ;;
  Some (Z.shiftl 1 (bit_length (i - 1))).

(** [n * x] for an [int] n and a [float] x *)
Definition int_times (n : Z) (x : F) : option F :=
  if int_fits n then Some (of_int n *! x) else None.
End Numbers.

(** [l[i]] with Python's negative indices; [None] is IndexError. *)
Definition py_index {A} (l : list A) (i : Z) : option A :=
  let n := Z.of_nat (List.length l) in
  if (0 <=? i) && (i <? n) then nth_error l (Z.to_nat i)
  else if (- n <=? i) && (i <? 0) then nth_error l (Z.to_nat (n + i))
  else None.

(* ================================================================== *)
(** * Data model *)
(* ================================================================== *)

(** One entry of the ["assets"] mapping of the configuration document. *)
Record AssetData (F : Type) := mkAssetData {
  d_type : string;
  d_size : Z * Z;
  d_palette : list string;
  d_noise_seed : option Z;
  d_anchor : option (F * F);
  d_variants : option Z
}.
Arguments mkAssetData {F}.
Arguments d_type {F}.
Arguments d_size {F}.
Arguments d_palette {F}.
Arguments d_noise_seed {F}.
Arguments d_anchor {F}.
Arguments d_variants {F}.

(** [AssetConfig] *)
Record AssetConfig (F : Type) := mkAssetConfig {
  name : string;
  type : string;
  size : Z * Z;
  palette : list string;
  noise_seed : option Z;
  anchor : F * F;
  variants : Z
}.
Arguments mkAssetConfig {F}.
Arguments name {F}.
Arguments type {F}.
Arguments size {F}.
Arguments palette {F}.
Arguments noise_seed {F}.
Arguments anchor {F}.
Arguments variants {F}.

(** A numpy array of shape [(height, width, 4)] and dtype uint8: its shape
    and its rows of pixels. *)
Record Grid := mkGrid {
  g_height : Z;
  g_width : Z;
  g_rows : list (list RGBA)
}.

(** [grid[y, x]] for indices in range *)
Definition grid_at (g : Grid) (y x : Z) : option RGBA :=
  if (0 <=? y) && (0 <=? x) then
    row <- nth_error (g_rows g) (Z.to_nat y) ;;
    nth_error row (Z.to_nat x)
  else None.

(** Messages of [validate_config], by the rule that produced them and the
    values formatted into the text. *)
Inductive ValidationError (F : Type) : Type :=
| SizeNotDivisible (asset_name : string) (w h : Z)
| MaxDimension (asset_name : string) (m : Z)
| LowContrast (asset_name : string) (ratio min_contrast : F).
Arguments SizeNotDivisible {F}.
Arguments MaxDimension {F}.
Arguments LowContrast {F}.

(* ================================================================== *)
(** * Core generation functions *)
(* ================================================================== *)

Section Validation.
Context {F : Type} {fl : PyFloat F}.
Local Open Scope pyfloat_scope.

(** [x ** y] on floats, computed by the C library. *)
Variable pow : F -> F -> F.

Definition linearize (c : F) : F :=
  if c <=! lit 3928 100000 then c /! lit 1292 100
  else pow ((c +! lit 55 1000) /! lit 1055 1000) (lit 24 10).

Definition luminance (hex_color : string) : option F :=
  '(r, g, b, _) <- hex_to_rgba hex_color ;;
  let rsrgb := of_int r /! of_int 255 in
  let gsrgb := of_int g /! of_int 255 in
  let bsrgb := of_int b /! of_int 255 in
  let r := linearize rsrgb in
  let g := linearize gsrgb in
  let b := linearize bsrgb in
  Some (lit 2126 10000 *! r +! lit 7152 10000 *! g +! lit 722 10000 *! b).

Definition check_contrast_ratio (color1 color2 : string) : option F :=
  l1 <- luminance color1 ;;
  l2 <- luminance color2 ;;
  let lighter := if l1 <! l2 then l2 else l1 in
  let darker := if l2 <! l1 then l2 else l1 in
  Some ((lighter +! lit 5 100) /! (darker +! lit 5 100)).

Definition min_contrast_of (asset_type : string) : F :=
  if String.eqb asset_type "tile" then lit 15 10
  else if String.eqb asset_type "npc" then of_int 2
  else lit 18 10.

(** The loop over [range(len(palette) - 1)]. *)
Fixpoint contrast_errors (asset_name : string) (min_contrast : F)
         (palette : list string) : option (list (ValidationError F)) :=
  match palette with
  | c1 :: ((c2 :: _) as rest) =>
      ratio <- check_contrast_ratio c1 c2 ;;
      errs <- contrast_errors asset_name min_contrast rest ;;
      Some ((if ratio <! min_contrast
             then [LowContrast asset_name ratio min_contrast] else [])
            ++ errs)
  | _ => Some []
  end.

Definition validate_asset (asset_name : string) (asset_data : AssetData F)
  : option (list (ValidationError F)) :=
  let '(w, h) := d_size asset_data in
  let e1 := if negb (w mod 4 =? 0) || negb (h mod 4 =? 0)
            then [SizeNotDivisible asset_name w h] else [] in
  let e2 := if 128 <? Z.max w h
            then [MaxDimension asset_name (Z.max w h)] else [] in
  e3 <- (if (1 <? Z.of_nat (List.length (d_palette asset_data)))
         then contrast_errors asset_name
                (min_contrast_of (d_type asset_data)) (d_palette asset_data)
         else Some []) ;;
  Some (e1 ++ e2 ++ e3).

(** [validate_config] on the ["assets"] mapping of the document, in
    insertion order. *)
Fixpoint validate_config (assets : list (string * AssetData F))
  : option (list (ValidationError F)) :=
  match assets with
  | [] => Some []
  | (asset_name, asset_data) :: rest =>
      errs <- validate_asset asset_name asset_data ;;
      more <- validate_config rest ;;
      Some (errs ++ more)
  end.
End Validation.

Section Generation.
Context {F : Type} {fl : PyFloat F}.
Local Open Scope pyfloat_scope.

(** [OpenSimplex(seed).noise2(x, y)], from the opensimplex package. *)
Variable noise2 : Z -> F -> F -> F.
(** [detect_edges(grid)[y, x]]: the Sobel magnitude of the luma, clipped to
    uint8. It is a numpy convolution in floating point; what follows holds
    for any edge map. *)
Variable detect_edges : Grid -> Z -> Z -> Z.
(** The hash secret of the running process. *)
Variable secret : Z * Z.

(** The rows [0 .. height-1] of columns [0 .. width-1], each pixel given
    by [f y x]; any failing pixel fails the whole grid. *)
Definition tabulate (width height : Z) (f : Z -> Z -> option RGBA)
  : option (list (list RGBA)) :=
  mapM (fun y => mapM (fun x => f y x) (range width)) (range height).

(** The seed of a tile: [noise_seed], else [hash(config.name) % 1000]. *)
Definition tile_seed (config : AssetConfig F) : Z :=
  match noise_seed config with
  | None => py_hash secret (name config) mod 1000
  | Some s => s
  end.

(** The palette after the per-variant hue rotation. *)
Definition variant_palette (config : AssetConfig F) (variant_idx : Z)
  : option (list string) :=
  if (0 <? variant_idx) && String.eqb (type config) "npc"
  then mapM (fun color => rotate_hue color (PInt (30 * variant_idx)))
            (palette config)
  else Some (palette config).

(** One pixel of a tile: the noise sample at [(x / width * 10,
    y / height * 10)], normalised to [0, 1], scaled by the palette length,
    truncated ([astype(int)]) and clipped to a palette index. *)
Definition tile_pixel (config : AssetConfig F) (palette : list string)
           (width height : Z) (y x : Z) : option RGBA :=
  let nx := of_int x /! of_int width *! of_int 10 in
  let ny := of_int y /! of_int height *! of_int 10 in
  let noise := noise2 (tile_seed config) nx ny in
  let noise_normalized := (noise +! of_int 1) /! of_int 2 in
  let n := Z.of_nat (List.length palette) in
  idx <- to_int (noise_normalized *! of_int n) ;;
  let idx := Z.min (Z.max idx 0) (n - 1) in
  color_hex <- py_index palette idx ;;
  hex_to_rgba color_hex.

(** One pixel of a prop or npc grid, [base] being the solid fill. *)
Definition shape_pixel (config : AssetConfig F) (palette : list string)
           (base_color : string) (base : RGBA)
           (width height : Z) (y x : Z) : option RGBA :=
  if (8 <=? width) && (8 <=? height) then
    if (2 <=? x) && (x <? width - 2) && (2 <=? y) && (y <? height - 2) then
      if String.eqb (type config) "npc" then
        if of_int y <! of_int height *! lit 7 10 then
          color_hex <- (if (1 <? Z.of_nat (List.length palette))
                        then py_index palette 1
                        else rotate_hue base_color (PInt 30)) ;;
          hex_to_rgba color_hex
        else Some base
      else
        if (1 <? Z.of_nat (List.length palette)) then
          color_hex <- py_index palette 1 ;;
          hex_to_rgba color_hex
        else Some base
    else Some base
  else Some base.

Definition is_prop_family (t : string) : bool :=
  String.eqb t "prop" || String.eqb t "furniture" || String.eqb t "clutter".

(** Step 4: pixels whose edge magnitude exceeds 50 become opaque black. *)
Definition outline (g : Grid) : Grid :=
  mkGrid (g_height g) (g_width g)
    (map (fun '(y, row) =>
            map (fun '(x, px) =>
                   if 50 <? detect_edges g y x then (0, 0, 0, 255) else px)
                (combine (range (g_width g)) row))
         (combine (range (g_height g)) (g_rows g))).

(** [generate_pixel_grid]. Each loop iteration writes the pixel of its own
    coordinates only, so the loops are rendered as a tabulation. *)
Definition generate_pixel_grid (config : AssetConfig F) (variant_idx : Z)
  : option Grid :=
  let '(width, height) := size config in
  if (width <? 0) || (height <? 0) then None else
  palette <- variant_palette config variant_idx ;;
  rows <-
    (if String.eqb (type config) "tile" then
       tabulate width height (tile_pixel config palette width height)
     else
       base_color <- py_index palette 0 ;;
       '(r, g, b, a) <- hex_to_rgba base_color ;;
       let base := (r, g, b, if a <? 255 then a else 255) in
       tabulate width height
         (shape_pixel config palette base_color base width height)) ;;
  let grid := mkGrid height width rows in
  Some (if is_prop_family (type config) then outline grid else grid).

(** [parse_config] of one entry *)
Definition parse_asset (asset_name : string) (data : AssetData F)
  : AssetConfig F :=
  mkAssetConfig asset_name (d_type data) (d_size data) (d_palette data)
    (d_noise_seed data)
    (match d_anchor data with
     | Some a => a
     | None => (lit 5 10, lit 5 10)
     end)
    (match d_variants data with Some v => v | None => 1 end).
End Generation.

(* ================================================================== *)
(** * Atlas packing *)
(* ================================================================== *)

(** [sorted(items, key=key, reverse=True)]: Python's sort is stable, and
    with [reverse=True] items with equal keys keep their original order. *)
Fixpoint insert_desc {A} (key : A -> Z) (x : A) (l : list A) : list A :=
  match l with
  | [] => [x]
  | y :: t => if key x <? key y then y :: insert_desc key x t else x :: y :: t
  end.

Fixpoint sorted_desc {A} (key : A -> Z) (l : list A) : list A :=
  match l with
  | [] => []
  | x :: t => insert_desc key x (sorted_desc key t)
  end.

(** A PIL image: its size and its pixels (meaningful inside the bounds). *)
Record Image := mkImage {
  im_w : Z;
  im_h : Z;
  im_px : Z -> Z -> RGBA
}.

Definition transparent : RGBA := (0, 0, 0, 0).

(** [Image.new("RGBA", (w, h), (0, 0, 0, 0))] *)
Definition image_new (w h : Z) : Image := mkImage w h (fun _ _ => transparent).

(** [Image.fromarray(grid, mode="RGBA")] *)
Definition image_fromarray (g : Grid) : Image :=
  mkImage (g_width g) (g_height g)
    (fun x y => match grid_at g y x with Some p => p | None => transparent end).

Definition in_box (x0 y0 w h x y : Z) : bool :=
  (x0 <=? x) && (x <? x0 + w) && (y0 <=? y) && (y <? y0 + h).

(** [dst.paste(src, (x0, y0))]: the source replaces the destination where
    it lands inside the destination. *)
Definition image_paste (dst src : Image) (x0 y0 : Z) : Image :=
  mkImage (im_w dst) (im_h dst)
    (fun x y =>
       if in_box x0 y0 (im_w src) (im_h src) x y
          && in_box 0 0 (im_w dst) (im_h dst) x y
       then im_px src (x - x0) (y - y0)
       else im_px dst x y).

Record Rect := mkRect { rx : Z; ry : Z; rw : Z; rh : Z }.

(** One value of the [frames] dictionary (TexturePacker format). *)
Record FrameEntry := mkFrameEntry {
  frame : Rect;
  rotated : bool;
  trimmed : bool;
  spriteSourceSize : Rect;
  sourceSize : Z * Z;
  frame_anchor : float * float
}.

Record PackState := mkPackState {
  atlas : Image;
  atlas_size : Z;
  frames : list (string * FrameEntry);
  current_x : Z;
  current_y : Z;
  row_height : Z
}.

(** [d[k]] on a dictionary kept as an association list; [None] is KeyError. *)
Fixpoint dict_get {V} (d : list (string * V)) (k : string) : option V :=
  match d with
  | [] => None
  | (k', v) :: t => if String.eqb k' k then Some v else dict_get t k
  end.

(** [name.split("_variant_")[0]] when ["_variant_"] occurs in [name]. *)
Definition base_name_of (sprite_name : string) : string :=
  match index 0 "_variant_" sprite_name with
  | Some i => substring 0 i sprite_name
  | None => sprite_name
  end.

Definition sprite_height (s : string * Grid) : Z := g_height (snd s).
Definition sprite_width (s : string * Grid) : Z := g_width (snd s).

Definition sorted_sprites (sprites : list (string * Grid)) : list (string * Grid) :=
  sorted_desc sprite_height sprites.

Definition total_area (sorted : list (string * Grid)) : Z :=
  fold_left (fun acc s => acc + sprite_width s * sprite_height s) sorted 0.

(** [int(math.sqrt(total_area) * 1.2)] *)
Definition atlas_size_estimate (area : Z) : option Z :=
  if area <? 0 then None
  else if negb (int_fits (F:=float) area) then None
  else to_int (PrimFloat.mul (PrimFloat.sqrt (of_int area)) (lit 12 10)).

Definition initial_atlas_size (sorted : list (string * Grid)) : option Z :=
  n <- atlas_size_estimate (total_area sorted) ;;
  next_power_of_2 (F:=float) (PInt n).

Section Packing.
(** PIL's masked paste of one source pixel over one destination pixel
    (the source's alpha band is the mask). *)
Variable paste_pixel : RGBA -> RGBA -> RGBA.

Variable configs : list (string * AssetConfig float).

(** [dst.paste(src, (x0, y0), src)] *)
Definition image_paste_masked (dst src : Image) (x0 y0 : Z) : Image :=
  mkImage (im_w dst) (im_h dst)
    (fun x y =>
       if in_box x0 y0 (im_w src) (im_h src) x y
          && in_box 0 0 (im_w dst) (im_h dst) x y
       then paste_pixel (im_px dst x y) (im_px src (x - x0) (y - y0))
       else im_px dst x y).

(** The cursor after the "fits in current row" check. *)
Definition wrap_row (st : PackState) (w : Z) : Z * Z * Z :=
  if atlas_size st <? current_x st + w
  then (0, current_y st + row_height st, 0)
  else (current_x st, current_y st, row_height st).

(** The "fits vertically" check fails: a growth event. *)
Definition must_grow (st : PackState) (sprite : string * Grid) : bool :=
  let '(_, cy, _) := wrap_row st (sprite_width sprite) in
  atlas_size st <? cy + sprite_height sprite.

(** The enlarged atlas with the old one pasted at the origin. *)
Definition grow_atlas (old : Image) (old_size : Z) : option (Image * Z) :=
  x <- int_times (F:=float) old_size (lit 15 10) ;;
  new_size <- next_power_of_2 (PFloat x) ;;
  Some (image_paste (image_new new_size new_size) old 0 0, new_size).

(** One iteration of the placement loop. *)
Definition pack_step (st : PackState) (sprite : string * Grid) : option PackState :=
  let '(sprite_name, grid) := sprite in
  let h := g_height grid in
  let w := g_width grid in
  let '(cx, cy, rowh) := wrap_row st w in
  '(atlas1, size1) <-
    (if atlas_size st <? cy + h
     then grow_atlas (atlas st) (atlas_size st)
     else Some (atlas st, atlas_size st)) ;;
  let atlas2 := image_paste_masked atlas1 (image_fromarray grid) cx cy in
  cfg <- dict_get configs (base_name_of sprite_name) ;;
  let entry :=
    mkFrameEntry (mkRect cx cy w h) false false (mkRect 0 0 w h) (w, h)
      (anchor cfg) in
  Some (mkPackState atlas2 size1 (frames st ++ [(sprite_name, entry)])
          (cx + w) cy (Z.max rowh h)).

Fixpoint pack_loop (st : PackState) (l : list (string * Grid)) : option PackState :=
  match l with
  | [] => Some st
  | s :: t => st' <- pack_step st s ;; pack_loop st' t
  end.

Definition pack_init (size0 : Z) : PackState :=
  mkPackState (image_new size0 size0) size0 [] 0 0 0.

(** [pack_sprites]; the [sprites] dictionary is the list of its items in
    insertion order (names are unique, so every [frames[name] = ...] adds
    a new key at the end). *)
Definition pack_sprites (sprites : list (string * Grid))
  : option (Image * list (string * FrameEntry)) :=
  let sorted := sorted_sprites sprites in
  size0 <- initial_atlas_size sorted ;;
  st <- pack_loop (pack_init size0) sorted ;;
  Some (atlas st, frames st).
End Packing.

(* ================================================================== *)
(** * Vocabulary of the properties *)
(* ================================================================== *)

(** [rgb_to_hex(hex_to_rgba(c))]: [rgb_to_hex] reads components 0 to 2 of
    the tuple it is given. *)
Definition hex_round_trip (c : string) : option string :=
  p <- hex_to_rgba c ;; Some (rgb_to_hex (rgb_of p)).

Fixpoint string_forallb (f : ascii -> bool) (s : string) : bool :=
  match s with
  | EmptyString => true
  | String c t => f c && string_forallb f t
  end.

Fixpoint string_map (f : ascii -> ascii) (s : string) : string :=
  match s with
  | EmptyString => EmptyString
  | String c t => String (f c) (string_map f t)
  end.

Definition is_hex_char (c : ascii) : bool :=
  match hex_digit c with Some _ => true | None => false end.

(** The lowercase form of a hexadecimal digit. *)
Definition lower_char (c : ascii) : ascii :=
  match hex_digit c with Some d => lower_hex_char d | None => c end.

Definition is_pow2 (n : Z) : Prop := exists k, 0 <= k /\ n = 2 ^ k.

(** [p] is the least power of two that is at least [n]. *)
Definition least_pow2_ge (n p : Z) : Prop :=
  is_pow2 p /\ n <= p /\ forall p', is_pow2 p' -> n <= p' -> p <= p'.

(** [p] is [sqrt(1.2 * area)] rounded up to the next power of two: the
    least power of two whose square is at least [1.2 * area]. *)
Definition next_pow2_of_sqrt_inflated_area (area p : Z) : Prop :=
  is_pow2 p /\ 6 * area <= 5 * (p * p) /\
  forall p', is_pow2 p' -> 6 * area <= 5 * (p' * p') -> p <= p'.

Definition rect_inside (r : Rect) (side : Z) : Prop :=
  0 <= rx r /\ 0 <= ry r /\ rx r + rw r <= side /\ ry r + rh r <= side.

(** Two rectangles share no pixel. *)
Definition rect_disjoint (a b : Rect) : Prop :=
  forall x y,
    in_box (rx a) (ry a) (rw a) (rh a) x y = true ->
    in_box (rx b) (ry b) (rw b) (rh b) x y = true -> False.

(** The 2-pixel border of a [width x height] grid. *)
Definition on_border (width height y x : Z) : Prop :=
  0 <= x < width /\ 0 <= y < height /\
  (x < 2 \/ width - 2 <= x \/ y < 2 \/ height - 2 <= y).

Definition in_inset (width height y x : Z) : Prop :=
  2 <= x < width - 2 /\ 2 <= y < height - 2.

(** ** Sample data *)

(** A grid of the given size filled with one pixel value. *)
Definition solid_grid (width height : Z) (px : RGBA) : Grid :=
  mkGrid height width (repeat (repeat px (Z.to_nat width)) (Z.to_nat height)).

Definition sample_config (asset_name asset_type : string) (sz : Z * Z)
           (colors : list string) : AssetConfig float :=
  mkAssetConfig asset_name asset_type sz colors None (0.5, 0.5)%float 1.

(** Source-over replacement, standing for PIL's blend in evaluations whose
    result does not depend on pixel values. *)
Definition paste_replace (dst src : RGBA) : RGBA := src.

(** Sprites of heights 32, 16 and 16, in that order. *)
Definition sprites_32_16_16 : list (string * Grid) :=
  [("a"%string, solid_grid 16 32 (0, 0, 0, 255));
   ("b"%string, solid_grid 16 16 (0, 0, 0, 255));
   ("c"%string, solid_grid 16 16 (0, 0, 0, 255))].

Definition configs_abc : list (string * AssetConfig float) :=
  map (fun n => (n, sample_config n "prop" (16, 16) ["#000000"%string]))
      ["a"%string; "b"%string; "c"%string].

(** The side a growth event replaces [old_size] with (the size computed
    inside [grow_atlas]). *)
Definition grown_size (old_size : Z) : option Z :=
  x <- int_times (F:=float) old_size (lit 15 10) ;;
  next_power_of_2 (PFloat x).

(** Sizes and frame rectangles of a packing result. *)
Definition pack_summary (r : option (Image * list (string * FrameEntry)))
  : option (Z * Z * list (string * Rect)) :=
  match r with
  | Some (a, fs) => Some (im_w a, im_h a, map (fun nf => (fst nf, frame (snd nf))) fs)
  | None => None
  end.

(** [sum(w * h for each sprite)] *)
Definition area_sum (sprites : list (string * Grid)) : Z :=
  fold_right Z.add 0 (map (fun s => sprite_width s * sprite_height s) sprites).

Definition one_sprite (sprite_name : string) (width height : Z) : list (string * Grid) :=
  [(sprite_name, solid_grid width height (93, 41, 6, 255))].

Definition one_config (sprite_name : string) (width height : Z)
  : list (string * AssetConfig float) :=
  [(sprite_name, sample_config sprite_name "prop" (width, height) ["#5d2906"%string])].

(** Growth from side [2 ^ k] yields side [2 ^ (k + 1)]. *)
Definition grown_size_doubles (k : Z) : bool :=
  match grown_size (2 ^ k) with
  | Some v => v =? 2 ^ (k + 1)
  | None => false
  end.

Definition frame_rects (fs : list (string * FrameEntry)) : list Rect :=
  map (fun nf => frame (snd nf)) fs.

(** Every recorded frame is above the current row or left of the cursor,
    and none reaches below the current row. *)
Definition shelf_invariant (st : PackState) : Prop :=
  Forall (fun r =>
            ry r + rh r <= current_y st + row_height st
            /\ (ry r + rh r <= current_y st \/ rx r + rw r <= current_x st))
         (frame_rects (frames st)).

(** ** The validation rules, as the specification words them *)

Section ValidationRules.
Context {F : Type} {fl : PyFloat F}.
Variable pow : F -> F -> F.

(** Rule 1: both dimensions divisible by 4. *)
Definition size_rule (a : AssetData F) : Prop :=
  fst (d_size a) mod 4 = 0 /\ snd (d_size a) mod 4 = 0.

(** Rule 2: [max(width, height) <= 128]. *)
Definition dimension_rule (a : AssetData F) : Prop :=
  Z.max (fst (d_size a)) (snd (d_size a)) <= 128.

(** [ratio] is the contrast of the consecutive palette entries [i], [i+1]. *)
Definition adjacent_contrast (a : AssetData F) (i : nat) (ratio : F) : Prop :=
  exists c1 c2,
    nth_error (d_palette a) i = Some c1
    /\ nth_error (d_palette a) (S i) = Some c2
    /\ check_contrast_ratio pow c1 c2 = Some ratio.

(** Rule 3: for palettes of length > 1, no consecutive pair is below the
    threshold of the kind. *)
Definition contrast_rule (a : AssetData F) : Prop :=
  (1 < List.length (d_palette a))%nat ->
  forall i ratio,
    adjacent_contrast a i ratio ->
    fltb ratio (min_contrast_of (d_type a)) = false.

(** [e] reports a violation of one of the three rules by asset [n]. *)
Definition reports_violation (n : string) (a : AssetData F)
           (e : ValidationError F) : Prop :=
  (~ size_rule a
   /\ e = SizeNotDivisible n (fst (d_size a)) (snd (d_size a)))
  \/ (~ dimension_rule a
      /\ e = MaxDimension n (Z.max (fst (d_size a)) (snd (d_size a))))
  \/ ((1 < List.length (d_palette a))%nat
      /\ exists i ratio,
          adjacent_contrast a i ratio
          /\ fltb ratio (min_contrast_of (d_type a)) = true
          /\ e = LowContrast n ratio (min_contrast_of (d_type a))).

(** The colours the contrast check reads are well-formed hex colours. *)
Definition readable_palette (a : AssetData F) : Prop :=
  (1 < List.length (d_palette a))%nat ->
  Forall (fun c => hex_to_rgba c <> None) (d_palette a).
End ValidationRules.

(** A stand-in for the C library's [pow] in evaluations that do not
    depend on it. *)
Definition pow_stub (x y : float) : float := x.

Definition sample_assets : list (string * AssetData float) :=
  [("odd"%string,
    mkAssetData "prop"%string (30, 32) ["#5d2906"%string] None None None);
   ("huge"%string,
    mkAssetData "tile"%string (200, 64) ["#1a5c1a"%string] None None None);
   ("fine"%string,
    mkAssetData "npc"%string (64, 64) ["#1e4a8c"%string] None None None)].

(** The smoke-test tile without its [noise_seed]. *)
Definition unseeded_tile : AssetConfig float :=
  sample_config "park_ground" "tile" (64, 64)
    ["#1a5c1a"; "#0d3b0d"; "#0a290a"]%string.

(** Stand-ins for the noise source and the edge detector in evaluations
    that do not call them. *)
Definition no_noise (seed : Z) (x y : float) : float := 0%float.
Definition no_edges (g : Grid) (y x : Z) : Z := 0.

(** The saturation and the lightness [rotate_hue] computes for a colour. *)
Definition saturation_of {F} {fl : PyFloat F} (rgb : RGB) : F :=
  snd (fst (hue_sat_light rgb)).
Definition lightness_of {F} {fl : PyFloat F} (rgb : RGB) : F :=
  snd (hue_sat_light rgb).

(** How the inset interior is painted, per kind: [px] is the colour a
    prop or npc pixel of row [y] receives before the outline pass. *)
Definition interior_paint {F} {fl : PyFloat F} (config : AssetConfig F)
           (pal : list string) (base_color : string) (base : RGBA)
           (height y : Z) (px : RGBA) : Prop :=
  if String.eqb (type config) "npc" then
    if fltb (of_int y) (fmul (of_int height) (lit 7 10)) then
      exists c,
        (if 1 <? Z.of_nat (List.length pal)
         then py_index pal 1
         else rotate_hue base_color (PInt 30)) = Some c
        /\ hex_to_rgba c = Some px
    else px = base
  else
    if 1 <? Z.of_nat (List.length pal) then
      exists c, py_index pal 1 = Some c /\ hex_to_rgba c = Some px
    else px = base.

Definition npc_8x8 : AssetConfig float :=
  sample_config "walker" "npc" (8, 8) ["#ff0000"; "#00ff00"]%string.

(** An npc whose only palette entry has partial alpha. *)
Definition ghost_palette : list string := ["#ff000080"%string].

Definition ghost_npc_exact : AssetConfig Q :=
  mkAssetConfig "ghost" "npc" (8, 12) ghost_palette None (1 # 2, 1 # 2)%Q 3.

Definition ghost_npc : AssetConfig float :=
  mkAssetConfig "ghost" "npc" (8, 12) ghost_palette None (0.5, 0.5)%float 3.

Definition no_noise_exact (seed : Z) (x y : Q) : Q := 0%Q.

(** Every pixel of the grid has alpha 255. *)
Definition all_opaque (g : Grid) : bool :=
  forallb (forallb (fun px => alpha_of px =? 255)) (g_rows g).

(** The colour parses to a fully opaque pixel. *)
Definition opaque_colour (c : string) : Prop :=
  exists r g b, hex_to_rgba c = Some (r, g, b, 255).

(* ================================================================== *)
(** * Main execution: parsing, sprite generation, manifest *)
(* ================================================================== *)

(** [d[k] = v] on a dictionary kept as an association list: an existing
    key keeps its place, a new key goes to the end. *)
Fixpoint dict_set {V} (d : list (string * V)) (k : string) (v : V)
  : list (string * V) :=
  match d with
  | [] => [(k, v)]
  | (k', v') :: t =>
      if String.eqb k' k then (k', v) :: t else (k', v') :: dict_set t k v
  end.

Fixpoint decimal_loop (fuel : nat) (n : Z) (acc : string) : string :=
  match fuel with
  | O => acc
  | S f =>
      let acc' := String (ascii_of_nat (Z.to_nat (48 + n mod 10))) acc in
      if n / 10 =? 0 then acc' else decimal_loop f (n / 10) acc'
  end.

(** [f"{i}"] for an [int] *)
Definition str_of_int (i : Z) : string :=
  if i <? 0
  then String "-"%char
         (decimal_loop (S (Z.to_nat (Z.log2 (- i)))) (- i) EmptyString)
  else decimal_loop (S (Z.to_nat (Z.log2 i))) i EmptyString.

(** [f"{name}_variant_{i}"] *)
Definition variant_name (asset_name : string) (i : Z) : string :=
  (asset_name ++ "_variant_" ++ str_of_int i)%string.

(** [range(1, n)] *)
Definition range_from_1 (n : Z) : list Z := map (fun k => 1 + k) (range (n - 1)).

Section MainExecution.
Context {F : Type} {fl : PyFloat F}.
Variable noise2 : Z -> F -> F -> F.
Variable detect_edges : Grid -> Z -> Z -> Z.
Variable secret : Z * Z.

(** [parse_config]: one [AssetConfig] per entry of ["assets"], keyed by
    name; [None] stands for a document without the ["assets"] key
    (KeyError). *)
Fixpoint parse_entries (entries : list (string * AssetData F))
         (configs : list (string * AssetConfig F))
  : list (string * AssetConfig F) :=
  match entries with
  | [] => configs
  | (asset_name, data) :: rest =>
      parse_entries rest
        (dict_set configs asset_name (parse_asset asset_name data))
  end.

Definition parse_config (assets : option (list (string * AssetData F)))
  : option (list (string * AssetConfig F)) :=
  match assets with
  | Some entries => Some (parse_entries entries [])
  | None => None
  end.

(** The inner loop of [main]: the variants [1 .. variants - 1] of an npc. *)
Fixpoint generate_variants (asset_name : string) (config : AssetConfig F)
         (indices : list Z) (all_sprites : list (string * Grid))
  : option (list (string * Grid)) :=
  match indices with
  | [] => Some all_sprites
  | i :: rest =>
      variant_grid <- generate_pixel_grid noise2 detect_edges secret config i ;;
      generate_variants asset_name config rest
        (dict_set all_sprites (variant_name asset_name i) variant_grid)
  end.

(** The sprite generation loop of [main] over [configs.items()]. *)
Fixpoint generate_sprites (configs : list (string * AssetConfig F))
         (all_sprites : list (string * Grid))
  : option (list (string * Grid)) :=
  match configs with
  | [] => Some all_sprites
  | (asset_name, config) :: rest =>
      base_grid <- generate_pixel_grid noise2 detect_edges secret config 0 ;;
      let all_sprites := dict_set all_sprites asset_name base_grid in
      all_sprites <-
        (if String.eqb (type config) "npc" && (1 <? variants config)
         then generate_variants asset_name config
                (range_from_1 (variants config)) all_sprites
         else Some all_sprites) ;;
      generate_sprites rest all_sprites
  end.
End MainExecution.

(** The manifest [write_output] serialises next to the atlas image. *)
Record Manifest := mkManifest {
  m_frames : list (string * FrameEntry);
  meta_app : string;
  meta_version : string;
  meta_image : string;
  meta_format : string;
  meta_size : Z * Z;
  meta_scale : string
}.

(** [write_output], up to the file system: the manifest written to
    [sprite_manifest.json] beside [sprites.png]. *)
Definition write_output (atlas_image : Image)
           (frame_table : list (string * FrameEntry)) : Manifest :=
  mkManifest frame_table "CrowdKiller Asset Generator" "1.0" "sprites.png"
    "RGBA8888" (im_w atlas_image, im_h atlas_image) "1".

(** What a run of [main] ends with: exit status 1 with the validation
    messages, or the atlas and its manifest. *)
Inductive Outcome : Type :=
| ValidationFailed (errors : list (ValidationError float))
| Generated (atlas_image : Image) (manifest : Manifest).

Section Main.
Variable pow : float -> float -> float.
Variable noise2 : Z -> float -> float -> float.
Variable detect_edges : Grid -> Z -> Z -> Z.
Variable secret : Z * Z.
Variable paste_pixel : RGBA -> RGBA -> RGBA.

(** [main] after the configuration file has been read: [config_data] is
    the ["assets"] mapping of the document, [None] when the key is absent
    ([validate_config] then reads an empty mapping). An uncaught exception
    is [None]. *)
Definition main (config_data : option (list (string * AssetData float)))
  : option Outcome :=
  errors <- validate_config pow
              (match config_data with Some a => a | None => [] end) ;;
  match errors with
  | _ :: _ => Some (ValidationFailed errors)
  | [] =>
      configs <- parse_config config_data ;;
      all_sprites <- generate_sprites noise2 detect_edges secret configs [] ;;
      '(atlas_image, frame_table) <-
        pack_sprites paste_pixel configs all_sprites ;;
      Some (Generated atlas_image (write_output atlas_image frame_table))
  end.
End Main.

(** ** Vocabulary of the further properties *)

(** Six or eight characters, all hexadecimal digits. *)
Definition well_formed_hex (s : string) : bool :=
  ((String.length s =? 6)%nat || (String.length s =? 8)%nat)
  && string_forallb is_hex_char s.

(** The grey [c] is returned unchanged by the colour conversion of
    [rotate_hue] in binary64. *)
Definition grey_is_fixed (c : Z) : bool :=
  match hue_sat_light (fl:=IEEE) (c, c, c) with
  | (PInt _, s, l) =>
      feqb s (of_int 0)
      && match to_int (fmul l (of_int 255)) with
         | Some v => v =? c
         | None => false
         end
  | _ => false
  end.

(** The most messages [validate_config] can return for one asset. *)
Definition message_bound {F} (a : AssetData F) : nat :=
  2 + Nat.pred (List.length (d_palette a)).

(** Some colour of a palette of length > 1 is not a hex colour. *)
Definition unreadable_palette {F} (a : AssetData F) : Prop :=
  (1 < List.length (d_palette a))%nat
  /\ Exists (fun c => hex_to_rgba c = None) (d_palette a).

(** Two entries with palettes of length > 1; the second holds a string
    that is not a hex colour. *)
Definition assets_with_bad_colour : list (string * AssetData float) :=
  [("fine"%string,
    mkAssetData "npc"%string (64, 64) ["#1e4a8c"%string] None None None);
   ("broken"%string,
    mkAssetData "prop"%string (32, 16) ["#5d2906"; "brown"]%string
      None None None)].

(** Configurations used to exercise the generator. *)
Definition bench_prop : AssetConfig float :=
  sample_config "bench" "prop" (32, 16) ["#5d2906"; "#3a1a04"]%string.

Definition tiny_npc : AssetConfig float :=
  sample_config "dot" "npc" (4, 12) ["#1e4a8c"; "#0d2b5c"]%string.

Definition seeded_tile : AssetConfig float :=
  mkAssetConfig "park_ground" "tile" (4, 4)
    ["#1a5c1a"; "#0d3b0d"; "#0a290a"]%string (Some 42) (0.5, 0.5)%float 1.

(** The frame entry [f] is the record [pack_sprites] writes for sprite [s]. *)
Definition frame_records_sprite (configs : list (string * AssetConfig float))
           (s : string * Grid) (f : string * FrameEntry) : Prop :=
  fst f = fst s
  /\ rw (frame (snd f)) = sprite_width s
  /\ rh (frame (snd f)) = sprite_height s
  /\ rotated (snd f) = false /\ trimmed (snd f) = false
  /\ spriteSourceSize (snd f) = mkRect 0 0 (sprite_width s) (sprite_height s)
  /\ sourceSize (snd f) = (sprite_width s, sprite_height s)
  /\ exists cfg,
      dict_get configs (base_name_of (fst s)) = Some cfg
      /\ frame_anchor (snd f) = anchor cfg.

(** The atlas image is a square of the current side, a power of two not
    below the initial side [s0]. *)
Definition side_invariant (s0 : Z) (st : PackState) : Prop :=
  im_w (atlas st) = atlas_size st /\ im_h (atlas st) = atlas_size st
  /\ is_pow2 (atlas_size st) /\ s0 <= atlas_size st.

(** The cursor and the frames stay in the first quadrant, and a frame not
    wider than the initial side [s0] ends inside the atlas width. *)
Definition cursor_invariant (s0 : Z) (st : PackState) : Prop :=
  0 <= current_x st /\ 0 <= current_y st /\ 0 <= row_height st
  /\ Forall (fun r => 0 <= rx r /\ 0 <= ry r
                      /\ (rw r <= s0 -> rx r + rw r <= atlas_size st))
            (frame_rects (frames st)).

(** Pixels that belong to no frame are transparent. *)
Definition background_invariant (st : PackState) : Prop :=
  forall x y,
    Forall (fun r => in_box (rx r) (ry r) (rw r) (rh r) x y = false)
           (frame_rects (frames st)) ->
    im_px (atlas st) x y = transparent.

(** Where a sprite of [main]'s sprite dictionary comes from: the base
    sprite of an asset, or variant [i] of an npc with [1 <= i < variants]. *)
Definition sprite_origin {F} {fl : PyFloat F}
           (noise2 : Z -> F -> F -> F) (detect_edges : Grid -> Z -> Z -> Z)
           (secret : Z * Z) (configs : list (string * AssetConfig F))
           (s : string * Grid) : Prop :=
  exists asset_name config i,
    In (asset_name, config) configs
    /\ generate_pixel_grid noise2 detect_edges secret config i = Some (snd s)
    /\ ((i = 0 /\ fst s = asset_name)
        \/ (1 <= i < variants config /\ type config = "npc"%string
            /\ fst s = variant_name asset_name i)).

(** The frame obeys the two size rules of the validator. *)
Definition frame_obeys_size_rules (f : string * FrameEntry) : Prop :=
  rw (frame (snd f)) mod 4 = 0 /\ rh (frame (snd f)) mod 4 = 0
  /\ 0 <= rw (frame (snd f)) <= 128 /\ 0 <= rh (frame (snd f)) <= 128.

(** A document with an npc of two variants and a prop. *)
Definition smoke_document : list (string * AssetData float) :=
  [("guard"%string,
    mkAssetData "npc"%string (8, 12) ["#1e4a8c"%string] None None (Some 2));
   ("crate"%string,
    mkAssetData "prop"%string (4, 4) ["#5d2906"%string] None None None)].

(** A document that passes validation with a negative width. *)
Definition negative_document : list (string * AssetData float) :=
  [("crate"%string,
    mkAssetData "prop"%string (4, 4) ["#5d2906"%string] None None None);
   ("hole"%string,
    mkAssetData "prop"%string (-4, 8) ["#5d2906"%string] None None None)].

(** The ways an asset passes the validator and still cannot be drawn. *)
Definition undrawable {F} (a : AssetData F) : Prop :=
  fst (d_size a) < 0 \/ snd (d_size a) < 0
  \/ (d_palette a = [] /\ String.eqb (d_type a) "tile" = false).

(** The anchor [parse_config] gives an entry: the configured one, or the
    centre. *)
Definition configured_anchor (a : AssetData float) : float * float :=
  match d_anchor a with
  | Some xy => xy
  | None => (lit 5 10, lit 5 10)
  end.

(** A document whose npc sets its anchor. *)
Definition anchored_document : list (string * AssetData float) :=
  [("guard"%string,
    mkAssetData "npc"%string (8, 12) ["#1e4a8c"%string] None
      (Some (0.5, 1)%float) (Some 3));
   ("crate"%string,
    mkAssetData "prop"%string (4, 4) ["#5d2906"%string] None None None)].

(** The summed areas 2935 .. 3413, for which [1.2 * sqrt(area)] is at
    least 65 while [sqrt(1.2 * area)] is at most 64. *)
Definition padded_side_band : list Z := map (fun k => 2935 + k) (range 479).

(** The side [pack_sprites] starts from for a summed area. *)
Definition initial_side_of_area (area : Z) : option Z :=
  n <- atlas_size_estimate area ;;
  next_power_of_2 (F:=float) (PInt n).

(** ** The contrast rule as the specification words it

    The WCAG contrast of two colours, stated on parsed colours and
    independently of [check_contrast_ratio]; [pow] is the exponentiation
    [x ^ y] of the platform, the one the script calls. *)
Section SpecContrast.
Context {F : Type} {fl : PyFloat F}.
Local Open Scope pyfloat_scope.
Variable pow : F -> F -> F.

(** "linear = c/12.92 if c <= 0.03928, else ((c+0.055)/1.055)^2.4" *)
Definition spec_srgb_to_linear (c : F) : F :=
  if c <=! lit 3928 100000 then c /! lit 1292 100
  else pow ((c +! lit 55 1000) /! lit 1055 1000) (lit 24 10).

(** "convert each 8-bit channel to [0,1], apply the sRGB-to-linear
    transform, combine as 0.2126 R + 0.7152 G + 0.0722 B" *)
Definition spec_relative_luminance (px : RGBA) : F :=
  let '(r, g, b, _) := px in
  lit 2126 10000 *! spec_srgb_to_linear (of_int r /! of_int 255)
  +! lit 7152 10000 *! spec_srgb_to_linear (of_int g /! of_int 255)
  +! lit 722 10000 *! spec_srgb_to_linear (of_int b /! of_int 255).

Definition fmax2 (a b : F) : F := if a <! b then b else a.
Definition fmin2 (a b : F) : F := if b <! a then b else a.

(** "Ratio = (max(L1,L2) + 0.05) / (min(L1,L2) + 0.05)" *)
Definition spec_contrast_ratio (a b : RGBA) : F :=
  let l1 := spec_relative_luminance a in
  let l2 := spec_relative_luminance b in
  (fmax2 l1 l2 +! lit 5 100) /! (fmin2 l1 l2 +! lit 5 100).

(** "Tile -> 1.5, Npc -> 2.0, all other (prop-family) -> 1.8" *)
Definition spec_min_contrast (kind : string) : F :=
  if String.eqb kind "tile" then lit 15 10
  else if String.eqb kind "npc" then of_int 2
  else lit 18 10.

(** The palette entries [i] and [i + 1] are the colours [p1] and [p2]. *)
Definition spec_adjacent_pair (a : AssetData F) (i : nat) (p1 p2 : RGBA)
  : Prop :=
  exists c1 c2,
    nth_error (d_palette a) i = Some c1
    /\ nth_error (d_palette a) (S i) = Some c2
    /\ hex_to_rgba c1 = Some p1 /\ hex_to_rgba c2 = Some p2.

(** Rule 3: in a palette of length > 1 every adjacent pair meets the
    minimum contrast of the kind. *)
Definition spec_contrast_rule (a : AssetData F) : Prop :=
  (1 < List.length (d_palette a))%nat ->
  forall i p1 p2,
    spec_adjacent_pair a i p1 p2 ->
    fltb (spec_contrast_ratio p1 p2) (spec_min_contrast (d_type a)) = false.

(** [e] is the message of a violation of one of the three rules by the
    asset [a] named [n]. *)
Definition spec_violation (n : string) (a : AssetData F)
           (e : ValidationError F) : Prop :=
  (~ (fst (d_size a) mod 4 = 0 /\ snd (d_size a) mod 4 = 0)
   /\ e = SizeNotDivisible n (fst (d_size a)) (snd (d_size a)))
  \/ (~ Z.max (fst (d_size a)) (snd (d_size a)) <= 128
      /\ e = MaxDimension n (Z.max (fst (d_size a)) (snd (d_size a))))
  \/ ((1 < List.length (d_palette a))%nat
      /\ exists i p1 p2,
          spec_adjacent_pair a i p1 p2
          /\ fltb (spec_contrast_ratio p1 p2)
                  (spec_min_contrast (d_type a)) = true
          /\ e = LowContrast n (spec_contrast_ratio p1 p2)
                   (spec_min_contrast (d_type a))).

(** The three rules hold of the asset. *)
Definition spec_rules_hold (a : AssetData F) : Prop :=
  (fst (d_size a) mod 4 = 0 /\ snd (d_size a) mod 4 = 0)
  /\ Z.max (fst (d_size a)) (snd (d_size a)) <= 128
  /\ spec_contrast_rule a.

(** Every colour the contrast rule reads is six or eight hexadecimal
    digits after its leading ["#"]s. *)
Definition hex_palettes (assets : list (string * AssetData F)) : Prop :=
  forall n a c,
    In (n, a) assets -> (1 < List.length (d_palette a))%nat ->
    In c (d_palette a) -> well_formed_hex (lstrip_hash c) = true.
End SpecContrast.

(** The C library's [pow] where the sample documents call it:
    [pow(1.0, y)] is [1.0]; every other argument gives NaN, so that a
    result that depended on one would show it. *)
Definition pow_at_one (x y : float) : float :=
  if PrimFloat.eqb x 1 then 1%float else nan.

(** A document whose palettes have two and three colours: the channels
    are 0, 10 and 255, which the sRGB transform maps without [pow] or
    through [pow(1.0, 2.4)]. *)
Definition contrast_document : list (string * AssetData float) :=
  [("night"%string,
    mkAssetData "tile"%string (64, 64) ["#000000"; "#0a0a0a"]%string
      None None None);
   ("flag"%string,
    mkAssetData "npc"%string (16, 32) ["#ffffff"; "#000000"; "#ffffff"]%string
      None None None);
   ("lamp"%string,
    mkAssetData "npc"%string (16, 30) ["#00ff00"; "#ffffff"; "#0000ff"]%string
      None None None);
   ("sign"%string,
    mkAssetData "prop"%string (32, 16) ["#0000ff"; "#ff0000"]%string
      None None None)].

(* ================================================================== *)
(** * Sanity checks of the runtime model *)
(* ================================================================== *)

Example py_hash_seed0 :
  py_hash (secret_of_hashseed 0) "grass" = 8188700018535560359.
Proof. vm_compute. reflexivity. Qed.

Example py_hash_seed1 :
  py_hash (secret_of_hashseed 1) "grass" = 5363505790622330236.
Proof. vm_compute. reflexivity. Qed.

Example literal_0_7 : lit (fl:=IEEE) 7 10 = 0x1.6666666666666p-1%float.
Proof. vm_compute. reflexivity. Qed.

Example literal_1_2 : lit (fl:=IEEE) 12 10 = 0x1.3333333333333p+0%float.
Proof. vm_compute. reflexivity. Qed.

Example ieee_mod_negative : ieee_mod (-0.25)%float 360%float = 359.75%float.
Proof. vm_compute. reflexivity. Qed.

Example format_02x_samples :
  (format_02x 0, format_02x 10, format_02x 255, format_02x 256)
  = ("00", "0a", "ff", "100")%string.
Proof. vm_compute. reflexivity. Qed.

Example next_power_of_2_samples :
  map (fun n => next_power_of_2 (F:=float) (PInt n)) [0; 1; 2; 3; 64; 65; 67]
  = map Some [2; 1; 2; 4; 64; 128; 128].
Proof. vm_compute. reflexivity. Qed.

(* ================================================================== *)
(** * Hex colours *)
(* ================================================================== *)

Lemma hex_digit_range (c : ascii) (d : Z) :
  hex_digit c = Some d -> 0 <= d < 16.
Proof.
  unfold hex_digit.
  repeat match goal with
         | |- context [if ?b then _ else _] => destruct b eqn:?
         end; intros H; inversion H; subst; lia.
Qed.

Lemma format_02x_digits (a b : Z) :
  0 <= a < 16 -> 0 <= b < 16 ->
  format_02x (16 * a + b)
  = String (lower_hex_char a) (String (lower_hex_char b) EmptyString).
Proof.
  intros Ha Hb.
  assert (Ea : a = 0 \/ a = 1 \/ a = 2 \/ a = 3 \/ a = 4 \/ a = 5 \/ a = 6
               \/ a = 7 \/ a = 8 \/ a = 9 \/ a = 10 \/ a = 11 \/ a = 12
               \/ a = 13 \/ a = 14 \/ a = 15) by lia.
  assert (Eb : b = 0 \/ b = 1 \/ b = 2 \/ b = 3 \/ b = 4 \/ b = 5 \/ b = 6
               \/ b = 7 \/ b = 8 \/ b = 9 \/ b = 10 \/ b = 11 \/ b = 12
               \/ b = 13 \/ b = 14 \/ b = 15) by lia.
  clear Ha Hb.
  repeat (destruct Ea as [-> | Ea]);
    repeat (destruct Eb as [-> | Eb]); subst; reflexivity.
Qed.

Lemma int16_pair (c1 c2 : ascii) (d1 d2 : Z) :
  hex_digit c1 = Some d1 -> hex_digit c2 = Some d2 ->
  int16 (String c1 (String c2 EmptyString)) = Some (16 * d1 + d2).
Proof.
  intros H1 H2. unfold int16, int16_from. rewrite H1. cbn [bind].
  rewrite H2. cbn [bind]. apply f_equal. lia.
Qed.

Lemma hex_char_not_hash (c : ascii) (t : string) :
  is_hex_char c = true -> lstrip_hash (String c t) = String c t.
Proof.
  destruct c as [[] [] [] [] [] [] [] []]; intros H; try reflexivity;
    vm_compute in H; discriminate.
Qed.

Lemma is_hex_char_digit (c : ascii) :
  is_hex_char c = true -> exists d, hex_digit c = Some d.
Proof. unfold is_hex_char. destruct (hex_digit c); eauto; discriminate. Qed.

Lemma lower_char_digit (c : ascii) (d : Z) :
  hex_digit c = Some d -> lower_char c = lower_hex_char d.
Proof. unfold lower_char. intros ->. reflexivity. Qed.

(** The channel pair [c1 c2] is parsed to a byte that prints back as the
    lowercase pair. *)
Lemma channel_round_trip (c1 c2 : ascii) :
  is_hex_char c1 = true -> is_hex_char c2 = true ->
  exists v, int16 (String c1 (String c2 EmptyString)) = Some v
            /\ 0 <= v <= 255
            /\ format_02x v
               = String (lower_char c1) (String (lower_char c2) EmptyString).
Proof.
  intros H1 H2.
  destruct (is_hex_char_digit _ H1) as [d1 E1].
  destruct (is_hex_char_digit _ H2) as [d2 E2].
  pose proof (hex_digit_range _ _ E1). pose proof (hex_digit_range _ _ E2).
  exists (16 * d1 + d2). split; [apply int16_pair; assumption|].
  split; [lia|].
  rewrite (lower_char_digit _ _ E1), (lower_char_digit _ _ E2).
  apply format_02x_digits; assumption.
Qed.

(** C9 (as amended): for every string [c] made of ["#"] and six hexadecimal
    digits, [rgb_to_hex(hex_to_rgba(c))] is [c] with its letters in
    lowercase; it is [c] itself when the digits of [c] are already
    lowercase. *)
Theorem hex_round_trip_lowercases (s : string) :
  String.length s = 6%nat ->
  string_forallb is_hex_char s = true ->
  hex_round_trip (String "#" s) = Some (String "#" (string_map lower_char s))
  /\ (string_map lower_char s = s -> hex_round_trip (String "#" s) = Some (String "#" s)).
Proof.
  intros Hlen Hhex.
  assert (E : hex_round_trip (String "#" s)
              = Some (String "#" (string_map lower_char s))).
  { destruct s as [|c1 [|c2 [|c3 [|c4 [|c5 [|c6 [|c7 s]]]]]]]; try discriminate.
    simpl in Hhex.
    repeat (apply andb_prop in Hhex; destruct Hhex as [? Hhex]).
    destruct (channel_round_trip c1 c2) as (r & Er & _ & Fr); try assumption.
    destruct (channel_round_trip c3 c4) as (g & Eg & _ & Fg); try assumption.
    destruct (channel_round_trip c5 c6) as (b & Eb & _ & Fb); try assumption.
    unfold hex_round_trip, hex_to_rgba.
    change (lstrip_hash (String "#" ?t)) with (lstrip_hash t).
    rewrite hex_char_not_hash by assumption.
    cbn [String.length Nat.eqb substring].
    rewrite Er, Eg, Eb. cbn [bind rgb_of rgb_to_hex].
    rewrite Fr, Fg, Fb. reflexivity. }
  split; [exact E|]. intros Hs. rewrite E, Hs. reflexivity.
Qed.

Lemma hex_round_trip_lowercases_witness :
  hex_round_trip "#1e4a8c" = Some "#1e4a8c"%string.
Proof.
  apply (proj2 (hex_round_trip_lowercases "1e4a8c" eq_refl eq_refl)).
  reflexivity.
Defined.

(** C9: the round trip is not the identity on an uppercase colour. *)
Lemma hex_round_trip_uppercase :
  hex_round_trip "#FF8000" = Some "#ff8000"%string
  /\ hex_round_trip "#FF8000" <> Some "#FF8000"%string.
Proof. split; [vm_compute; reflexivity | vm_compute; discriminate]. Qed.

(* ================================================================== *)
(** * Packing order *)
(* ================================================================== *)

Ltac inv_bind H :=
  match type of H with
  | bind ?m _ = Some _ =>
      let E := fresh "E" in
      destruct m eqn:E; [cbn [bind] in H | discriminate H]
  end.

Section SortedDesc.
Context {A : Type} (key : A -> Z).


Lemma insert_desc_perm (x : A) (l : list A) :
  Permutation (x :: l) (insert_desc key x l).
Proof.
  induction l as [|y t IH]; simpl; [reflexivity|].
  destruct (key x <? key y); [|reflexivity].
  rewrite perm_swap. apply perm_skip, IH.
Qed.

Lemma sorted_desc_perm (l : list A) : Permutation l (sorted_desc key l).
Proof.
  induction l as [|x t IH]; simpl; [constructor|].
  rewrite <- insert_desc_perm. apply perm_skip, IH.
Qed.





End SortedDesc.

Section PackingFrames.
Variable paste_pixel : RGBA -> RGBA -> RGBA.
Variable configs : list (string * AssetConfig float).

Lemma pack_step_inv (st st' : PackState) (sprite : string * Grid) :
  pack_step paste_pixel configs st sprite = Some st' ->
  exists atlas1 cfg,
    let '(cx, cy, rowh) := wrap_row st (sprite_width sprite) in
    (if must_grow st sprite
     then grow_atlas (atlas st) (atlas_size st)
     else Some (atlas st, atlas_size st)) = Some (atlas1, atlas_size st')
    /\ dict_get configs (base_name_of (fst sprite)) = Some cfg
    /\ atlas st' = image_paste_masked paste_pixel atlas1
                     (image_fromarray (snd sprite)) cx cy
    /\ frames st' = frames st ++
         [(fst sprite,
           mkFrameEntry
             (mkRect cx cy (sprite_width sprite) (sprite_height sprite))
             false false
             (mkRect 0 0 (sprite_width sprite) (sprite_height sprite))
             (sprite_width sprite, sprite_height sprite) (anchor cfg))]
    /\ current_x st' = cx + sprite_width sprite
    /\ current_y st' = cy
    /\ row_height st' = Z.max rowh (sprite_height sprite).
Proof.
  destruct sprite as [sprite_name grid].
  unfold pack_step, must_grow, sprite_width, sprite_height. cbn [fst snd].
  destruct (wrap_row st (g_width grid)) as [[cx cy] rowh].
  intros H. inv_bind H. destruct p as [atlas1 size1].
  inv_bind H. inversion H; subst; clear H. cbn.
  exists atlas1, a. repeat split; assumption.
Qed.

End PackingFrames.



(* ================================================================== *)
(** * Atlas side length *)
(* ================================================================== *)

Lemma bit_length_nonneg (n : Z) : 0 <= bit_length n.
Proof.
  unfold bit_length. destruct (n =? 0); [lia|].
  pose proof (Z.log2_nonneg (Z.abs n)). lia.
Qed.

Lemma next_power_of_2_value {F} {fl : PyFloat F} (n : PyNum F) (p : Z) :
  next_power_of_2 n = Some p ->
  exists i, py_int n = Some i /\ p = 2 ^ bit_length (i - 1).
Proof.
  unfold next_power_of_2. intros H. inv_bind H. inversion H; subst.
  exists z. split; [reflexivity|]. apply Z.shiftl_1_l.
Qed.

Lemma next_power_of_2_pow2 {F} {fl : PyFloat F} (n : PyNum F) (p : Z) :
  next_power_of_2 n = Some p -> is_pow2 p.
Proof.
  intros H. destruct (next_power_of_2_value _ _ H) as (i & _ & ->).
  exists (bit_length (i - 1)). split; [apply bit_length_nonneg | reflexivity].
Qed.

Lemma pow2_le_exponent (j k : Z) : 0 <= j -> 0 <= k -> 2 ^ j < 2 ^ k -> j < k.
Proof. intros Hj Hk H. apply (Z.pow_lt_mono_r_iff 2); lia. Qed.

(** For [n >= 1] the result is the least power of two that is [>= n]. *)
Lemma next_power_of_2_least {F} {fl : PyFloat F} (n p : Z) :
  1 <= n -> next_power_of_2 (F:=F) (PInt n) = Some p -> least_pow2_ge n p.
Proof.
  intros Hn H. destruct (next_power_of_2_value _ _ H) as (i & Hi & ->).
  cbn in Hi. inversion Hi; subst i; clear Hi H.
  split; [exists (bit_length (n - 1)); split;
          [apply bit_length_nonneg | reflexivity]|].
  unfold bit_length. destruct (n - 1 =? 0) eqn:E.
  - apply Z.eqb_eq in E. split; [cbn; lia|].
    intros p' (k & Hk & ->) _. cbn.
    pose proof (Z.pow_pos_nonneg 2 k ltac:(lia) Hk). lia.
  - apply Z.eqb_neq in E. rewrite Z.abs_eq by lia.
    destruct (Z.log2_spec (n - 1)) as [Hlo Hhi]; [lia|].
    replace (Z.succ (Z.log2 (n - 1))) with (Z.log2 (n - 1) + 1) in Hhi by lia.
    split; [lia|].
    intros p' (k & Hk & ->) Hp.
    pose proof (Z.log2_nonneg (n - 1)) as Hl.
    assert (Z.log2 (n - 1) < k) by (apply pow2_le_exponent; lia).
    apply Z.pow_le_mono_r; lia.
Qed.

Lemma fold_left_area (l : list (string * Grid)) (acc : Z) :
  fold_left (fun a s => a + sprite_width s * sprite_height s) l acc
  = acc + area_sum l.
Proof.
  revert acc. induction l as [|s t IH]; intros acc; cbn; [lia|].
  rewrite IH. unfold area_sum. lia.
Qed.

Lemma area_sum_perm (l l' : list (string * Grid)) :
  Permutation l l' -> area_sum l = area_sum l'.
Proof.
  induction 1; unfold area_sum in *; cbn in *; lia.
Qed.

Lemma total_area_sorted (sprites : list (string * Grid)) :
  total_area (sorted_sprites sprites) = area_sum sprites.
Proof.
  unfold total_area. rewrite fold_left_area.
  rewrite (area_sum_perm _ _ (sorted_desc_perm sprite_height sprites)).
  unfold sorted_sprites. lia.
Qed.

Lemma pow2_small (k : Z) : 0 <= k -> k < 6 -> 2 ^ k <= 32.
Proof.
  intros H0 H6. change 32 with (2 ^ 5). apply Z.pow_le_mono_r; lia.
Qed.

Lemma initial_atlas_size_of_area (sprites : list (string * Grid)) :
  initial_atlas_size (sorted_sprites sprites)
  = initial_side_of_area (area_sum sprites).
Proof.
  unfold initial_atlas_size, initial_side_of_area.
  rewrite total_area_sorted. reflexivity.
Qed.

(** In binary64, [int(math.sqrt(area) * 1.2)] lies between 65 and 128 for
    every area of the band, so that [next_power_of_2] returns 128. *)
Lemma padded_side_band_table :
  forallb (fun area =>
             match initial_side_of_area area with
             | Some side => side =? 128
             | None => false
             end) padded_side_band = true.
Proof. vm_compute. reflexivity. Qed.

Lemma padded_side_band_In (area : Z) :
  2935 <= area <= 3413 -> In area padded_side_band.
Proof.
  intros H. unfold padded_side_band, range. rewrite map_map.
  apply in_map_iff. exists (Z.to_nat (area - 2935)). split; [lia|].
  apply in_seq. lia.
Qed.

(** C1: the comment of [pack_sprites] announces the total area with 20%
    padding, and the claim the side [nextPow2(sqrt(1.2 * area))]; the code
    pads the side instead, [next_power_of_2(int(sqrt(area) * 1.2))]. For
    every sprite set whose areas sum to 2935 .. 3413 the code starts from
    side 128, whereas the least power of two whose square holds 1.2 times
    the area is 64. *)
Theorem initial_side_pads_the_side_not_the_area
        (sprites : list (string * Grid)) :
  2935 <= area_sum sprites <= 3413 ->
  initial_atlas_size (sorted_sprites sprites) = Some 128
  /\ next_pow2_of_sqrt_inflated_area (area_sum sprites) 64
  /\ ~ next_pow2_of_sqrt_inflated_area (area_sum sprites) 128.
Proof.
  intros Harea.
  assert (P64 : is_pow2 64) by (exists 6; split; [lia | reflexivity]).
  assert (H64 : next_pow2_of_sqrt_inflated_area (area_sum sprites) 64).
  { split; [exact P64|]. split; [lia|].
    intros p' (k & Hk & ->) Hp.
    destruct (Z_lt_le_dec k 6) as [Hlt|Hge].
    - pose proof (pow2_small k Hk Hlt).
      pose proof (Z.pow_pos_nonneg 2 k ltac:(lia) Hk). nia.
    - change 64 with (2 ^ 6). apply Z.pow_le_mono_r; lia. }
  split; [|split; [exact H64|]].
  - rewrite initial_atlas_size_of_area.
    pose proof (proj1 (forallb_forall _ _) padded_side_band_table
                  (area_sum sprites) (padded_side_band_In _ Harea)) as Hside.
    cbv beta in Hside.
    destruct (initial_side_of_area (area_sum sprites)) as [side|];
      [|discriminate Hside].
    apply Z.eqb_eq in Hside. subst side. reflexivity.
  - intros (_ & _ & Hleast).
    specialize (Hleast 64 P64 ltac:(lia)). lia.
Qed.

Lemma initial_side_pads_the_side_not_the_area_witness :
  area_sum (one_sprite "crate" 56 56) = 3136
  /\ atlas_size_estimate 3136 = Some 67
  /\ initial_atlas_size (sorted_sprites (one_sprite "crate" 56 56)) = Some 128
  /\ next_pow2_of_sqrt_inflated_area 3136 64.
Proof.
  assert (Harea : area_sum (one_sprite "crate" 56 56) = 3136)
    by (vm_compute; reflexivity).
  destruct (initial_side_pads_the_side_not_the_area
              (one_sprite "crate" 56 56)) as (Hside & Hspec & _).
  - rewrite Harea. lia.
  - rewrite Harea in Hspec.
    split; [exact Harea|]. split; [vm_compute; reflexivity|].
    split; [exact Hside | exact Hspec].
Defined.

(** ** Growth events *)

Lemma grow_atlas_grown_size (old : Image) (s : Z) :
  grow_atlas old s
  = match grown_size s with
    | Some n => Some (image_paste (image_new n n) old 0 0, n)
    | None => None
    end.
Proof.
  unfold grow_atlas, grown_size.
  destruct (int_times s (lit 15 10)) as [x|]; cbn [bind]; [|reflexivity].
  destruct (next_power_of_2 (PFloat x)); reflexivity.
Qed.

(** binary64 holds [1.5 * 2 ^ k] exactly for every exponent it can represent. *)
Lemma grown_size_table :
  forallb grown_size_doubles (map Z.of_nat (seq 1 1023)) = true.
Proof. vm_compute. reflexivity. Qed.

Lemma grown_size_pow2 (k : Z) :
  1 <= k <= 1023 -> grown_size (2 ^ k) = Some (2 ^ (k + 1)).
Proof.
  intros Hk.
  pose proof (proj1 (forallb_forall _ _) grown_size_table k) as H.
  assert (Hin : In k (map Z.of_nat (seq 1 1023))).
  { apply in_map_iff. exists (Z.to_nat k). split; [lia|].
    apply in_seq. lia. }
  specialize (H Hin). unfold grown_size_doubles in H.
  destruct (grown_size (2 ^ k)) as [v|]; [|discriminate].
  apply Z.eqb_eq in H. congruence.
Qed.

Lemma grown_size_one : grown_size 1 = Some 1.
Proof. vm_compute. reflexivity. Qed.

(** Beyond the binary64 range [float(atlas_size)] raises OverflowError. *)
Lemma grown_size_overflow (k : Z) : 1024 <= k -> grown_size (2 ^ k) = None.
Proof.
  intros Hk. unfold grown_size, int_times.
  assert (E : int_fits (F:=float) (2 ^ k) = false).
  { cbn [int_fits IEEE]. unfold ieee_int_fits. apply Z.ltb_ge.
    assert (H1 : 2 ^ 1024 <= 2 ^ k) by (apply Z.pow_le_mono_r; lia).
    assert (H2 : 0 < 2 ^ 970) by (apply Z.pow_pos_nonneg; lia).
    assert (H3 : 0 < 2 ^ k) by (apply Z.pow_pos_nonneg; lia).
    rewrite Z.abs_eq by lia.
    generalize dependent (2 ^ 1024). generalize dependent (2 ^ 970).
    intros; lia. }
  rewrite E. reflexivity.
Qed.

Lemma grown_size_spec (s n : Z) :
  is_pow2 s -> grown_size s = Some n ->
  n = (if s =? 1 then 1 else 2 * s) /\ is_pow2 n.
Proof.
  intros (k & Hk & ->) H.
  destruct (Z.eq_dec k 0) as [->|Hk0].
  - change (2 ^ 0) with 1 in *. rewrite grown_size_one in H.
    inversion H; subst. split; [reflexivity|].
    exists 0. split; [lia | reflexivity].
  - destruct (Z_le_gt_dec k 1023) as [Hle|Hgt].
    + rewrite grown_size_pow2 in H by lia. inversion H; subst.
      assert (2 <= 2 ^ k).
      { change 2 with (2 ^ 1) at 1. apply Z.pow_le_mono_r; lia. }
      destruct (2 ^ k =? 1) eqn:E1; [apply Z.eqb_eq in E1; lia|].
      split; [rewrite Z.pow_add_r by lia; lia|].
      exists (k + 1). split; [lia | reflexivity].
    + rewrite grown_size_overflow in H by lia. discriminate.
Qed.

Section AtlasSide.
Variable paste_pixel : RGBA -> RGBA -> RGBA.
Variable configs : list (string * AssetConfig float).


End AtlasSide.




(* ================================================================== *)
(** * Frames and atlas bounds *)
(* ================================================================== *)

(** C4: a 128x4 sprite (a size the validator accepts) is given an initial
    atlas of side 32; the width check only wraps the row and nothing
    widens the atlas, so its frame is 128 wide in a 32x32 atlas. A 4x128
    sprite triggers one growth, from 32 to 64, and is still 128 high. *)
Theorem wide_sprite_exceeds_the_atlas :
  pack_summary (pack_sprites paste_replace (one_config "banner" 128 4)
                  (one_sprite "banner" 128 4))
  = Some (32, 32, [("banner"%string, mkRect 0 0 128 4)])
  /\ ~ rect_inside (mkRect 0 0 128 4) 32
  /\ pack_summary (pack_sprites paste_replace (one_config "pole" 4 128)
                     (one_sprite "pole" 4 128))
     = Some (64, 64, [("pole"%string, mkRect 0 0 4 128)])
  /\ ~ rect_inside (mkRect 0 0 4 128) 64.
Proof.
  split; [vm_compute; reflexivity|].
  split; [unfold rect_inside; cbn; lia|].
  split; [vm_compute; reflexivity|].
  unfold rect_inside; cbn; lia.
Qed.

(** ** Frames never overlap *)

Lemma ForallOrdPairs_snoc {A} (R : A -> A -> Prop) (l : list A) (x : A) :
  ForallOrdPairs R l -> Forall (fun a => R a x) l ->
  ForallOrdPairs R (l ++ [x]).
Proof.
  induction 1 as [|a l Ha Hl IH]; intros Hx; cbn.
  - repeat constructor.
  - inversion Hx; subst. constructor; [|apply IH; assumption].
    apply Forall_app. split; [assumption | repeat constructor; assumption].
Qed.

Lemma in_box_bounds (x0 y0 w h x y : Z) :
  in_box x0 y0 w h x y = true -> x0 <= x < x0 + w /\ y0 <= y < y0 + h.
Proof.
  unfold in_box. rewrite !andb_true_iff, !Z.leb_le, !Z.ltb_lt. lia.
Qed.

Section Disjoint.
Variable paste_pixel : RGBA -> RGBA -> RGBA.
Variable configs : list (string * AssetConfig float).

Lemma pack_step_disjoint (st st' : PackState) (sprite : string * Grid) :
  0 <= sprite_width sprite ->
  shelf_invariant st ->
  ForallOrdPairs rect_disjoint (frame_rects (frames st)) ->
  pack_step paste_pixel configs st sprite = Some st' ->
  shelf_invariant st'
  /\ ForallOrdPairs rect_disjoint (frame_rects (frames st')).
Proof.
  intros Hw Hinv Hdis Hstep.
  destruct (pack_step_inv _ _ _ _ _ Hstep) as (atlas1 & cfg & Hi).
  unfold shelf_invariant in *.
  unfold wrap_row in Hi.
  destruct (atlas_size st <? current_x st + sprite_width sprite);
    destruct Hi as (_ & _ & _ & Hf & Hx & Hy & Hr);
    rewrite Hf, Hx, Hy, Hr; unfold frame_rects in *; rewrite map_app;
    cbn [map snd frame].
  - split.
    + apply Forall_app. split.
      * eapply Forall_impl; [|exact Hinv]. cbn. intros r ?. lia.
      * repeat constructor; cbn; lia.
    + apply ForallOrdPairs_snoc; [exact Hdis|].
      eapply Forall_impl; [|exact Hinv]. cbn. intros r Hr' x y Ha Hb.
      apply in_box_bounds in Ha, Hb. cbn in Hb. lia.
  - split.
    + apply Forall_app. split.
      * eapply Forall_impl; [|exact Hinv]. cbn. intros r ?. lia.
      * repeat constructor; cbn; lia.
    + apply ForallOrdPairs_snoc; [exact Hdis|].
      eapply Forall_impl; [|exact Hinv]. cbn. intros r Hr' x y Ha Hb.
      apply in_box_bounds in Ha, Hb. cbn in Hb. lia.
Qed.

Lemma pack_loop_disjoint (l : list (string * Grid)) :
  forall st st',
    Forall (fun s => 0 <= sprite_width s) l ->
    shelf_invariant st ->
    ForallOrdPairs rect_disjoint (frame_rects (frames st)) ->
    pack_loop paste_pixel configs st l = Some st' ->
    ForallOrdPairs rect_disjoint (frame_rects (frames st')).
Proof.
  induction l as [|s t IH]; intros st st' Hw Hinv Hdis H; cbn [pack_loop] in H.
  - inversion H; subst; exact Hdis.
  - inv_bind H. inversion Hw; subst.
    destruct (pack_step_disjoint _ _ _ H2 Hinv Hdis E) as [Hinv' Hdis'].
    eapply IH; eassumption.
Qed.

(** X16: The frame rectangles recorded by [pack_sprites] are pairwise
    disjoint, whatever the atlas side does. *)
Lemma frames_are_pairwise_disjoint (sprites : list (string * Grid))
      (atlas0 : Image) (frames0 : list (string * FrameEntry)) :
  Forall (fun s => 0 <= sprite_width s) sprites ->
  pack_sprites paste_pixel configs sprites = Some (atlas0, frames0) ->
  ForallOrdPairs rect_disjoint (frame_rects frames0).
Proof.
  intros Hw H. unfold pack_sprites in H.
  inv_bind H. inv_bind H. inversion H; subst; clear H.
  eapply pack_loop_disjoint; [| | |exact E0].
  - eapply Permutation_Forall; [apply sorted_desc_perm | exact Hw].
  - constructor.
  - constructor.
Qed.
End Disjoint.

(* ================================================================== *)
(** * Validation *)
(* ================================================================== *)

Section ValidationProofs.
Context {F : Type} {fl : PyFloat F}.
Variable pow : F -> F -> F.

Lemma luminance_some (c : string) :
  hex_to_rgba c <> None -> exists l, luminance pow c = Some l.
Proof.
  unfold luminance. destruct (hex_to_rgba c) as [[[[r g] b] a]|];
    [|congruence]. intros _. cbn [bind]. eauto.
Qed.

Lemma check_contrast_ratio_some (c1 c2 : string) :
  hex_to_rgba c1 <> None -> hex_to_rgba c2 <> None ->
  exists r, check_contrast_ratio pow c1 c2 = Some r.
Proof.
  intros H1 H2. unfold check_contrast_ratio.
  destruct (luminance_some _ H1) as [l1 ->].
  destruct (luminance_some _ H2) as [l2 ->]. cbn [bind]. eauto.
Qed.

Lemma contrast_errors_pair (n : string) (m : F) (c1 c2 : string)
      (t : list string) :
  contrast_errors pow n m (c1 :: c2 :: t)
  = (ratio <- check_contrast_ratio pow c1 c2 ;;
     errs <- contrast_errors pow n m (c2 :: t) ;;
     Some ((if fltb ratio m then [LowContrast n ratio m] else []) ++ errs)).
Proof. reflexivity. Qed.

(** The contrast loop reports exactly the consecutive pairs below the
    threshold. *)
Lemma contrast_errors_spec (n : string) (m : F) (pal : list string) :
  Forall (fun c => hex_to_rgba c <> None) pal ->
  exists errs,
    contrast_errors pow n m pal = Some errs
    /\ forall e,
        In e errs <->
        exists i c1 c2 ratio,
          nth_error pal i = Some c1 /\ nth_error pal (S i) = Some c2
          /\ check_contrast_ratio pow c1 c2 = Some ratio
          /\ fltb ratio m = true /\ e = LowContrast n ratio m.
Proof.
  induction pal as [|c1 t IH]; intros Hp.
  - exists []. split; [reflexivity|]. intros e. split; [intros []|].
    intros (i & a & b & r & H1 & _). destruct i; discriminate.
  - inversion Hp as [|? ? Hc1 Ht]; subst.
    destruct (IH Ht) as (errs & Ee & Hin). clear IH.
    destruct t as [|c2 t'].
    + exists []. split; [reflexivity|]. intros e. split; [intros []|].
      intros (i & a & b & r & _ & H2 & _). destruct i; discriminate.
    + inversion Ht as [|? ? Hc2 _]; subst.
      destruct (check_contrast_ratio_some _ _ Hc1 Hc2) as [r Er].
      rewrite contrast_errors_pair, Er. cbn [bind].
      rewrite Ee. cbn [bind]. eexists. split; [reflexivity|].
      intros e. rewrite in_app_iff, Hin. split.
      * intros [He | (i & a & b & r' & H1 & H2 & H3 & H4 & H5)].
        -- destruct (fltb r m) eqn:Elt; [|destruct He].
           destruct He as [<- | []].
           exists 0%nat, c1, c2, r. repeat split; assumption.
        -- exists (S i), a, b, r'. repeat split; assumption.
      * intros (i & a & b & r' & H1 & H2 & H3 & H4 & H5).
        destruct i as [|i].
        -- cbn in H1, H2. inversion H1; inversion H2; subst.
           rewrite Er in H3. inversion H3; subst.
           left. rewrite H4. left. reflexivity.
        -- right. exists i, a, b, r'. repeat split; assumption.
Qed.

Lemma size_rule_dec (a : AssetData F) :
  negb (fst (d_size a) mod 4 =? 0) || negb (snd (d_size a) mod 4 =? 0) = false
  <-> size_rule a.
Proof.
  unfold size_rule. rewrite orb_false_iff, !negb_false_iff, !Z.eqb_eq.
  reflexivity.
Qed.

Lemma validate_asset_spec (n : string) (a : AssetData F) :
  readable_palette a ->
  exists errs,
    validate_asset pow n a = Some errs
    /\ forall e, In e errs <-> reports_violation pow n a e.
Proof.
  intros Hr. unfold validate_asset, reports_violation, dimension_rule.
  destruct (d_size a) as [w h] eqn:Es. cbn [fst snd].
  pose proof (size_rule_dec a) as Hs. rewrite Es in Hs. cbn [fst snd] in Hs.
  assert (Hc : exists e3,
             (if (1 <? Z.of_nat (List.length (d_palette a)))
              then contrast_errors pow n (min_contrast_of (d_type a))
                     (d_palette a)
              else Some []) = Some e3
             /\ forall e, In e e3 <->
                 ((1 < List.length (d_palette a))%nat
                  /\ exists i ratio,
                      adjacent_contrast pow a i ratio
                      /\ fltb ratio (min_contrast_of (d_type a)) = true
                      /\ e = LowContrast n ratio (min_contrast_of (d_type a)))).
  { destruct (1 <? Z.of_nat (List.length (d_palette a))) eqn:El.
    - apply Z.ltb_lt in El.
      destruct (contrast_errors_spec n (min_contrast_of (d_type a))
                  (d_palette a) (Hr ltac:(lia))) as (e3 & E3 & H3).
      exists e3. split; [exact E3|]. intros e. rewrite H3.
      unfold adjacent_contrast. split.
      + intros (i & c1 & c2 & r & H). split; [lia|].
        exists i, r. split; [exists c1, c2; tauto | tauto].
      + intros (_ & i & r & (c1 & c2 & H) & H'). exists i, c1, c2, r. tauto.
    - apply Z.ltb_ge in El. exists []. split; [reflexivity|].
      intros e. split; [intros [] | intros [Hl _]; lia]. }
  destruct Hc as (e3 & -> & H3). cbn [bind]. eexists. split; [reflexivity|].
  intros e. rewrite !in_app_iff, H3. clear H3.
  destruct (negb (w mod 4 =? 0) || negb (h mod 4 =? 0)) eqn:E1;
    destruct (128 <? Z.max w h) eqn:E2;
    try apply Z.ltb_lt in E2; try apply Z.ltb_ge in E2; cbn [In].
  all: assert (Hs' : size_rule a <-> False \/ size_rule a) by tauto.
  all: split;
    [ intros [H | [H | H]]
    | intros [[H1 H2] | [[H1 H2] | H]] ].
  all: try tauto.
  all: try (destruct H as [<- | []]).
  all: try (left; split; [rewrite <- Hs; congruence | reflexivity]).
  all: try (right; left; split; [lia | reflexivity]).
  all: try (exfalso; apply H1; apply Hs; reflexivity).
  all: try (exfalso; lia).
  all: try (left; left; symmetry; exact H2).
  all: try (right; left; left; symmetry; exact H2).
Qed.

Lemma validate_config_spec (assets : list (string * AssetData F)) :
  (forall n a, In (n, a) assets -> readable_palette a) ->
  exists errs,
    validate_config pow assets = Some errs
    /\ forall e,
        In e errs <->
        exists n a, In (n, a) assets /\ reports_violation pow n a e.
Proof.
  induction assets as [|[n a] rest IH]; intros Hr.
  - exists []. split; [reflexivity|]. intros e. split; [intros []|].
    intros (? & ? & [] & _).
  - destruct (validate_asset_spec n a (Hr n a (or_introl eq_refl)))
      as (e1 & E1 & H1).
    destruct IH as (e2 & E2 & H2);
      [intros n' a' Hin; apply (Hr n' a'); right; exact Hin|].
    cbn [validate_config]. rewrite E1, E2. cbn [bind].
    eexists. split; [reflexivity|].
    intros e. rewrite in_app_iff, H1, H2. split.
    + intros [H | (n' & a' & Hin & H)].
      * exists n, a. split; [left; reflexivity | exact H].
      * exists n', a'. split; [right; exact Hin | exact H].
    + intros (n' & a' & [Heq | Hin] & H).
      * inversion Heq; subst. left; exact H.
      * right. exists n', a'. split; assumption.
Qed.

Lemma no_violation_iff_rules (n : string) (a : AssetData F) :
  readable_palette a ->
  (forall e, ~ reports_violation pow n a e)
  <-> size_rule a /\ dimension_rule a /\ contrast_rule pow a.
Proof.
  intros Hr. unfold reports_violation, contrast_rule. split.
  - intros H. split; [|split].
    + destruct (size_rule_dec a) as [Hs _].
      destruct (negb (fst (d_size a) mod 4 =? 0)
                || negb (snd (d_size a) mod 4 =? 0)) eqn:E.
      * exfalso. eapply H. left. split; [|reflexivity].
        intros Hs'. apply size_rule_dec in Hs'. congruence.
      * apply size_rule_dec. exact E.
    + unfold dimension_rule.
      destruct (Z_le_gt_dec (Z.max (fst (d_size a)) (snd (d_size a))) 128)
        as [Hle|Hgt]; [exact Hle|].
      exfalso. eapply H. right. left. split; [|reflexivity].
      unfold dimension_rule. lia.
    + intros Hl i ratio Hadj.
      destruct (fltb ratio (min_contrast_of (d_type a))) eqn:E;
        [|reflexivity].
      exfalso. eapply H. right. right. split; [exact Hl|].
      exists i, ratio. repeat split; [exact Hadj | exact E].
  - intros (Hs & Hd & Hc) e [[H _] | [[H _] | (Hl & i & r & Hadj & Hlt & _)]].
    + exact (H Hs).
    + exact (H Hd).
    + rewrite (Hc Hl i r Hadj) in Hlt. discriminate.
Qed.
End ValidationProofs.

(* ================================================================== *)
(** * Tile seeds *)
(* ================================================================== *)

(** C3: without [noise_seed] the seed of a tile is [hash(name) % 1000],
    and the hash of a string depends on the secret of the process: the
    tile ["park_ground"] gets seed 886 in a process started with
    [PYTHONHASHSEED=0], 985 with [PYTHONHASHSEED=1] and 212 with
    [PYTHONHASHSEED=2]. *)
Theorem unseeded_tile_seed_changes_with_the_process :
  tile_seed (secret_of_hashseed 0) unseeded_tile = 886
  /\ tile_seed (secret_of_hashseed 1) unseeded_tile = 985
  /\ tile_seed (secret_of_hashseed 2) unseeded_tile = 212
  /\ tile_seed (secret_of_hashseed 1) unseeded_tile
     <> tile_seed (secret_of_hashseed 2) unseeded_tile.
Proof.
  split; [vm_compute; reflexivity|].
  split; [vm_compute; reflexivity|].
  split; [vm_compute; reflexivity|].
  vm_compute. discriminate.
Qed.

(** With an explicit [noise_seed] the grid depends neither on the process
    secret nor on anything but the configuration. *)
Lemma seeded_grid_is_reproducible {F} {fl : PyFloat F}
      (noise2 : Z -> F -> F -> F) (detect_edges : Grid -> Z -> Z -> Z)
      (secret1 secret2 : Z * Z) (config : AssetConfig F) (s variant_idx : Z) :
  noise_seed config = Some s ->
  generate_pixel_grid noise2 detect_edges secret1 config variant_idx
  = generate_pixel_grid noise2 detect_edges secret2 config variant_idx.
Proof.
  intros Hs. unfold generate_pixel_grid, tile_pixel, tile_seed.
  rewrite Hs. reflexivity.
Qed.

(* ================================================================== *)
(** * Hue rotation *)
(* ================================================================== *)

(** C7: rotating ["#1e4a8c"] (the smoke-test npc colour) by 360 degrees
    returns ["#124797"]: the value [delta / cmax] that [rotate_hue] hands
    to [hsl_to_rgb] as the saturation is the HSV saturation, so the colour
    comes back with another saturation (and, through truncation, another
    lightness). Exact arithmetic gives the same colour. *)
Theorem rotate_hue_changes_the_saturation :
  rotate_hue (fl:=IEEE) "#1e4a8c" (PInt 360) = Some "#124797"%string
  /\ rotate_hue (fl:=Exact) "#1e4a8c" (PInt 360) = Some "#124797"%string
  /\ hex_to_rgba "#1e4a8c" = Some (30, 74, 140, 255)
  /\ hex_to_rgba "#124797" = Some (18, 71, 151, 255)
  /\ saturation_of (fl:=Exact) (30, 74, 140) == 110 # 140
  /\ saturation_of (fl:=Exact) (18, 71, 151) == 133 # 151
  /\ feqb (saturation_of (fl:=IEEE) (30, 74, 140))
          (saturation_of (fl:=IEEE) (18, 71, 151)) = false
  /\ feqb (lightness_of (fl:=IEEE) (30, 74, 140))
          (lightness_of (fl:=IEEE) (18, 71, 151)) = false.
Proof.
  split; [vm_compute; reflexivity|].
  split; [vm_compute; reflexivity|].
  split; [vm_compute; reflexivity|].
  split; [vm_compute; reflexivity|].
  split; [vm_compute; reflexivity|].
  split; [vm_compute; reflexivity|].
  split; vm_compute; reflexivity.
Qed.

(* ================================================================== *)
(** * Pixel grids of props and npcs *)
(* ================================================================== *)

Lemma int16_two_chars (c1 c2 : ascii) (v : Z) :
  int16 (String c1 (String c2 EmptyString)) = Some v -> 0 <= v <= 255.
Proof.
  unfold int16, int16_from. intros H. inv_bind H. inv_bind H.
  assert (Hv : 16 * (16 * 0 + z) + z0 = v) by congruence.
  pose proof (hex_digit_range _ _ E). pose proof (hex_digit_range _ _ E0). lia.
Qed.

(** Parsed channels are bytes, and a 6-digit colour is opaque. *)
Lemma hex_to_rgba_range (c : string) (r g b a : Z) :
  hex_to_rgba c = Some (r, g, b, a) ->
  0 <= r <= 255 /\ 0 <= g <= 255 /\ 0 <= b <= 255 /\ 0 <= a <= 255
  /\ (String.length (lstrip_hash c) = 6%nat -> a = 255).
Proof.
  unfold hex_to_rgba. generalize (lstrip_hash c). intros s.
  destruct (String.length s =? 6)%nat eqn:E6.
  - apply Nat.eqb_eq in E6.
    destruct s as [|c1 [|c2 [|c3 [|c4 [|c5 [|c6 [|c7 s]]]]]]]; try discriminate.
    cbn [substring]. intros H. inv_bind H. inv_bind H. inv_bind H.
    inversion H; subst.
    apply int16_two_chars in E, E0, E1.
    split; [lia|]. split; [lia|]. split; [lia|]. split; [lia|]. reflexivity.
  - destruct (String.length s =? 8)%nat eqn:E8; [|discriminate].
    apply Nat.eqb_eq in E8. apply Nat.eqb_neq in E6.
    destruct s as [|c1 [|c2 [|c3 [|c4 [|c5 [|c6 [|c7 [|c8 [|c9 s]]]]]]]]];
      try discriminate.
    cbn [substring]. intros H. inv_bind H. inv_bind H. inv_bind H. inv_bind H.
    inversion H; subst.
    apply int16_two_chars in E, E0, E1, E2.
    split; [lia|]. split; [lia|]. split; [lia|]. split; [lia|].
    intros Hl. exfalso. apply E6. exact Hl.
Qed.

Lemma mapM_length {A B} (f : A -> option B) (l : list A) :
  forall l', mapM f l = Some l' -> List.length l' = List.length l.
Proof.
  induction l as [|a t IH]; intros l' H; cbn [mapM] in H.
  - inversion H. reflexivity.
  - inv_bind H. inv_bind H. inversion H; subst. cbn. f_equal. apply IH.
    reflexivity.
Qed.

Lemma mapM_nth_error {A B} (f : A -> option B) (l : list A) :
  forall l' i a,
    mapM f l = Some l' -> nth_error l i = Some a ->
    exists b, f a = Some b /\ nth_error l' i = Some b.
Proof.
  induction l as [|a0 t IH]; intros l' i a H Hi; cbn [mapM] in H.
  - destruct i; discriminate.
  - inv_bind H. inv_bind H. inversion H; subst.
    destruct i as [|i]; cbn in Hi |- *.
    + inversion Hi; subst. eauto.
    + eapply IH; [reflexivity | exact Hi].
Qed.

Lemma nth_error_seq_in (n s i : nat) :
  nth_error (seq s n) i = if (i <? n)%nat then Some (s + i)%nat else None.
Proof.
  revert s i. induction n as [|n IH]; intros s i; cbn [seq].
  - destruct i; reflexivity.
  - destruct i as [|i]; cbn [nth_error].
    + change (0 <? S n)%nat with true. cbv iota. apply f_equal. lia.
    + rewrite IH. change (S i <? S n)%nat with (i <? n)%nat.
      destruct (i <? n)%nat; [apply f_equal; lia | reflexivity].
Qed.

Lemma nth_error_range (n : Z) (i : nat) :
  nth_error (range n) i
  = if (i <? Z.to_nat n)%nat then Some (Z.of_nat i) else None.
Proof.
  unfold range. rewrite nth_error_map, nth_error_seq_in.
  destruct (i <? Z.to_nat n)%nat; reflexivity.
Qed.

Lemma range_length (n : Z) : List.length (range n) = Z.to_nat n.
Proof. unfold range. rewrite length_map, length_seq. reflexivity. Qed.

Lemma nth_error_combine_range {A} (n : Z) (l : list A) (i : nat) :
  List.length l = Z.to_nat n ->
  nth_error (combine (range n) l) i
  = option_map (fun b => (Z.of_nat i, b)) (nth_error l i).
Proof.
  intros Hl.
  assert (G : forall (l1 : list Z) (l2 : list A) j,
             nth_error (combine l1 l2) j
             = match nth_error l1 j, nth_error l2 j with
               | Some a, Some b => Some (a, b)
               | _, _ => None
               end).
  { induction l1 as [|a t IH]; intros l2 j.
    - destruct j; reflexivity.
    - destruct l2 as [|b t2].
      + destruct j; cbn; [reflexivity|]. destruct (nth_error t j); reflexivity.
      + destruct j; cbn; [reflexivity | apply IH]. }
  rewrite G, nth_error_range.
  destruct (i <? Z.to_nat n)%nat eqn:E.
  - destruct (nth_error l i); reflexivity.
  - apply Nat.ltb_ge in E.
    rewrite (proj2 (nth_error_None l i)) by lia. reflexivity.
Qed.

(** The pixel at [(y, x)] of a tabulated grid is [f y x]. *)
Lemma tabulate_grid_at (w h : Z) (f : Z -> Z -> option RGBA)
      (rows : list (list RGBA)) (y x : Z) :
  tabulate w h f = Some rows ->
  grid_at (mkGrid h w rows) y x
  = if (0 <=? y) && (y <? h) && (0 <=? x) && (x <? w) then f y x else None.
Proof.
  intros H. unfold grid_at, tabulate in *. cbn [g_rows].
  destruct (0 <=? y) eqn:Ey0; [|reflexivity].
  destruct (0 <=? x) eqn:Ex0;
    [|cbn [andb]; rewrite andb_false_r; reflexivity].
  apply Z.leb_le in Ey0, Ex0. cbn [andb]. rewrite andb_true_r.
  destruct (y <? h) eqn:Eyh.
  - apply Z.ltb_lt in Eyh.
    assert (Hy : nth_error (range h) (Z.to_nat y) = Some y).
    { rewrite nth_error_range.
      replace (Z.to_nat y <? Z.to_nat h)%nat with true
        by (symmetry; apply Nat.ltb_lt; lia).
      f_equal. lia. }
    destruct (mapM_nth_error _ _ _ _ _ H Hy) as (row & Hrow & ->).
    cbn [bind andb].
    destruct (x <? w) eqn:Exw.
    + apply Z.ltb_lt in Exw.
      assert (Hx : nth_error (range w) (Z.to_nat x) = Some x).
      { rewrite nth_error_range.
        replace (Z.to_nat x <? Z.to_nat w)%nat with true
          by (symmetry; apply Nat.ltb_lt; lia).
        f_equal. lia. }
      destruct (mapM_nth_error _ _ _ _ _ Hrow Hx) as (px & Hpx & ->).
      symmetry. exact Hpx.
    + apply Z.ltb_ge in Exw. apply nth_error_None.
      rewrite (mapM_length _ _ _ Hrow), range_length. lia.
  - apply Z.ltb_ge in Eyh. cbn [andb].
    rewrite (proj2 (nth_error_None rows (Z.to_nat y))); [reflexivity|].
    rewrite (mapM_length _ _ _ H), range_length. lia.
Qed.

Lemma tabulate_row_length (w h : Z) (f : Z -> Z -> option RGBA)
      (rows : list (list RGBA)) :
  tabulate w h f = Some rows ->
  List.length rows = Z.to_nat h
  /\ forall i row, nth_error rows i = Some row -> List.length row = Z.to_nat w.
Proof.
  intros H. unfold tabulate in H. split.
  - rewrite (mapM_length _ _ _ H). apply range_length.
  - intros i row Hrow.
    assert (Hi : (i < Z.to_nat h)%nat).
    { rewrite <- (range_length h), <- (mapM_length _ _ _ H).
      apply nth_error_Some. congruence. }
    assert (Hy : nth_error (range h) i = Some (Z.of_nat i)).
    { rewrite nth_error_range.
      replace (i <? Z.to_nat h)%nat with true
        by (symmetry; apply Nat.ltb_lt; lia). reflexivity. }
    destruct (mapM_nth_error _ _ _ _ _ H Hy) as (row' & Hrow' & Hn).
    rewrite Hrow in Hn. inversion Hn; subst row'.
    rewrite (mapM_length _ _ _ Hrow'). apply range_length.
Qed.

(** The outline pass rewrites each pixel on its own. *)
Lemma outline_grid_at (detect_edges : Grid -> Z -> Z -> Z) (w h : Z)
      (f : Z -> Z -> option RGBA) (rows : list (list RGBA)) (y x : Z) :
  tabulate w h f = Some rows ->
  grid_at (outline detect_edges (mkGrid h w rows)) y x
  = option_map
      (fun px => if 50 <? detect_edges (mkGrid h w rows) y x
                 then (0, 0, 0, 255) else px)
      (grid_at (mkGrid h w rows) y x).
Proof.
  intros H. destruct (tabulate_row_length _ _ _ _ H) as [Hlen Hrows].
  unfold grid_at, outline. cbn [g_rows g_height g_width].
  unfold RGBA in *.
  destruct ((0 <=? y) && (0 <=? x)) eqn:E0; [|reflexivity].
  apply andb_prop in E0. destruct E0 as [Ey Ex]. apply Z.leb_le in Ey, Ex.
  rewrite nth_error_map, nth_error_combine_range by exact Hlen.
  destruct (nth_error rows (Z.to_nat y)) as [row|] eqn:Erow; [|reflexivity].
  cbn [option_map bind].
  rewrite nth_error_map, nth_error_combine_range by (eapply Hrows; exact Erow).
  destruct (nth_error row (Z.to_nat x)) as [px|]; [|reflexivity].
  cbn [option_map]. rewrite !Z2Nat.id by lia. reflexivity.
Qed.

Section ShapeGrids.
Context {F : Type} {fl : PyFloat F}.
Variable noise2 : Z -> F -> F -> F.
Variable detect_edges : Grid -> Z -> Z -> Z.
Variable secret : Z * Z.

(** What a successful run on a prop or npc configuration went through. *)
Lemma generate_shape_inv (config : AssetConfig F) (variant_idx : Z) (g : Grid) :
  String.eqb (type config) "tile" = false ->
  generate_pixel_grid noise2 detect_edges secret config variant_idx = Some g ->
  exists pal base_color base rows,
    variant_palette config variant_idx = Some pal
    /\ py_index pal 0 = Some base_color
    /\ hex_to_rgba base_color = Some base
    /\ tabulate (fst (size config)) (snd (size config))
         (shape_pixel config pal base_color base
            (fst (size config)) (snd (size config))) = Some rows
    /\ g = (if is_prop_family (type config)
            then outline detect_edges
                   (mkGrid (snd (size config)) (fst (size config)) rows)
            else mkGrid (snd (size config)) (fst (size config)) rows).
Proof.
  intros Ht H. unfold generate_pixel_grid in H.
  destruct (size config) as [w h]. cbn [fst snd].
  destruct ((w <? 0) || (h <? 0)); [discriminate|].
  inv_bind H. rewrite Ht in H. inv_bind H. inv_bind E0.
  destruct (hex_to_rgba s) as [[[[r g0] b] a]|] eqn:Eb; [|discriminate].
  cbn [bind] in E0.
  destruct (hex_to_rgba_range _ _ _ _ _ Eb) as (_ & _ & _ & Ha & _).
  replace (if a <? 255 then a else 255) with a in E0
    by (destruct (a <? 255) eqn:Ea; [reflexivity | apply Z.ltb_ge in Ea; lia]).
  inversion H; subst.
  exists l, s, (r, g0, b, a), l0. repeat split; assumption.
Qed.
End ShapeGrids.

Lemma tabulate_pixel_some (w h : Z) (f : Z -> Z -> option RGBA)
      (rows : list (list RGBA)) (y x : Z) :
  tabulate w h f = Some rows -> 0 <= y < h -> 0 <= x < w ->
  exists px, f y x = Some px /\ grid_at (mkGrid h w rows) y x = Some px.
Proof.
  intros H Hy Hx. pose proof (tabulate_grid_at w h f rows y x H) as Hg.
  replace ((0 <=? y) && (y <? h) && (0 <=? x) && (x <? w)) with true in Hg
    by (symmetry; rewrite !andb_true_iff, !Z.leb_le, !Z.ltb_lt; lia).
  unfold tabulate in H.
  assert (Hyn : nth_error (range h) (Z.to_nat y) = Some y).
  { rewrite nth_error_range.
    replace (Z.to_nat y <? Z.to_nat h)%nat with true
      by (symmetry; apply Nat.ltb_lt; lia).
    f_equal. lia. }
  destruct (mapM_nth_error _ _ _ _ _ H Hyn) as (row & Hrow & _).
  assert (Hxn : nth_error (range w) (Z.to_nat x) = Some x).
  { rewrite nth_error_range.
    replace (Z.to_nat x <? Z.to_nat w)%nat with true
      by (symmetry; apply Nat.ltb_lt; lia).
    f_equal. lia. }
  destruct (mapM_nth_error _ _ _ _ _ Hrow Hxn) as (px & Hpx & _).
  exists px. split; [exact Hpx | rewrite Hg; exact Hpx].
Qed.

(** C2 (as amended): in a prop-family or npc grid of at least 8x8, every
    pixel of the 2-pixel border holds the RGBA value of palette[0] (of the
    variant's palette), with that colour's own alpha, 255 for a 6-digit
    colour, and not zero; the inset interior is painted per kind. In
    prop, furniture and clutter grids the outline pass may replace any of
    these pixels by opaque black. *)
Theorem shape_grid_border_holds_the_base_colour
        {F : Type} {fl : PyFloat F}
        (noise2 : Z -> F -> F -> F) (detect_edges : Grid -> Z -> Z -> Z)
        (secret : Z * Z) (config : AssetConfig F) (variant_idx w h : Z)
        (g : Grid) :
  size config = (w, h) -> 8 <= w -> 8 <= h ->
  String.eqb (type config) "tile" = false ->
  generate_pixel_grid noise2 detect_edges secret config variant_idx = Some g ->
  exists pal base_color base,
    variant_palette config variant_idx = Some pal
    /\ py_index pal 0 = Some base_color
    /\ hex_to_rgba base_color = Some base
    /\ (String.length (lstrip_hash base_color) = 6%nat -> alpha_of base = 255)
    /\ (forall y x,
           on_border w h y x ->
           grid_at g y x = Some base
           \/ (is_prop_family (type config) = true
               /\ grid_at g y x = Some (0, 0, 0, 255)))
    /\ (forall y x,
           in_inset w h y x ->
           exists px,
             interior_paint config pal base_color base h y px
             /\ (grid_at g y x = Some px
                 \/ (is_prop_family (type config) = true
                     /\ grid_at g y x = Some (0, 0, 0, 255)))).
Proof.
  intros Hsize Hw Hh Htile Hgen.
  destruct (generate_shape_inv _ _ _ _ _ _ Htile Hgen)
    as (pal & base_color & base & rows & Hpal & Hbc & Hbase & Htab & Hg).
  rewrite Hsize in Htab, Hg. cbn [fst snd] in Htab, Hg.
  exists pal, base_color, base.
  split; [exact Hpal|]. split; [exact Hbc|]. split; [exact Hbase|].
  split.
  { destruct base as [[[r g0] b] a]. intros Hl.
    exact (proj2 (proj2 (proj2 (proj2
             (hex_to_rgba_range _ _ _ _ _ Hbase)))) Hl). }
  assert (Hfinal : forall y x px,
             grid_at (mkGrid h w rows) y x = Some px ->
             grid_at g y x = Some px
             \/ (is_prop_family (type config) = true
                 /\ grid_at g y x = Some (0, 0, 0, 255))).
  { intros y x px Hpx. subst g.
    destruct (is_prop_family (type config)); [|left; exact Hpx].
    rewrite (outline_grid_at _ _ _ _ _ y x Htab), Hpx. cbn [option_map].
    destruct (50 <? _); [right; split; reflexivity | left; reflexivity]. }
  split.
  - intros y x (Hx & Hy & Hedge).
    destruct (tabulate_pixel_some _ _ _ _ y x Htab Hy Hx) as (px & Hf & Hpx).
    apply Hfinal. rewrite Hpx. rewrite <- Hf. unfold shape_pixel.
    replace ((8 <=? w) && (8 <=? h)) with true
      by (symmetry; rewrite andb_true_iff, !Z.leb_le; lia).
    replace ((2 <=? x) && (x <? w - 2) && (2 <=? y) && (y <? h - 2)) with false;
      [reflexivity|].
    symmetry. rewrite !andb_false_iff, !Z.leb_gt, !Z.ltb_ge. lia.
  - intros y x (Hx & Hy).
    destruct (tabulate_pixel_some _ _ _ _ y x Htab ltac:(lia) ltac:(lia))
      as (px & Hf & Hpx).
    exists px. split; [|apply Hfinal; exact Hpx].
    unfold shape_pixel in Hf. unfold interior_paint.
    replace ((8 <=? w) && (8 <=? h)) with true in Hf
      by (symmetry; rewrite andb_true_iff, !Z.leb_le; lia).
    replace ((2 <=? x) && (x <? w - 2) && (2 <=? y) && (y <? h - 2))
      with true in Hf
      by (symmetry; rewrite !andb_true_iff, !Z.leb_le, !Z.ltb_lt; lia).
    destruct (String.eqb (type config) "npc").
    + destruct (fltb (of_int y) (fmul (of_int h) (lit 7 10)));
        [|congruence].
      inv_bind Hf. exists s. split; [reflexivity | exact Hf].
    + destruct (1 <? Z.of_nat (List.length pal)); [|congruence].
      inv_bind Hf. exists s. split; [reflexivity | exact Hf].
Qed.

Lemma shape_grid_border_holds_the_base_colour_witness :
  exists g,
    generate_pixel_grid no_noise no_edges (0, 0) npc_8x8 0 = Some g
    /\ grid_at g 1 5 = Some (255, 0, 0, 255).
Proof.
  destruct (generate_pixel_grid no_noise no_edges (0, 0) npc_8x8 0)
    as [g|] eqn:E; [|vm_compute in E; discriminate E].
  exists g. split; [reflexivity|].
  destruct (shape_grid_border_holds_the_base_colour no_noise no_edges (0, 0)
              npc_8x8 0 8 8 g eq_refl ltac:(lia) ltac:(lia) eq_refl E)
    as (pal & base_color & base & Hpal & Hbc & Hbase & _ & Hborder & _).
  assert (Hb : base = (255, 0, 0, 255)).
  { vm_compute in Hpal. inversion Hpal; subst pal.
    vm_compute in Hbc. inversion Hbc; subst base_color.
    vm_compute in Hbase. inversion Hbase. reflexivity. }
  subst base.
  destruct (Hborder 1 5 ltac:(unfold on_border; lia)) as [H | [H _]];
    [exact H | vm_compute in H; discriminate H].
Defined.

(** C2: the border of an 8x8 npc grid is opaque: the pixel at row 0,
    column 0 is palette[0] = #ff0000 with alpha 255. *)
Lemma border_pixel_is_opaque :
  exists g,
    generate_pixel_grid no_noise no_edges (0, 0) npc_8x8 0 = Some g
    /\ on_border 8 8 0 0
    /\ grid_at g 0 0 = Some (255, 0, 0, 255)
    /\ option_map alpha_of (grid_at g 0 0) <> Some 0.
Proof.
  eexists. split; [vm_compute; reflexivity|].
  split; [unfold on_border; lia|].
  split; [vm_compute; reflexivity|].
  vm_compute. discriminate.
Qed.

(* ================================================================== *)
(** * Rotated colours are opaque (exact arithmetic) *)
(* ================================================================== *)

Section ExactRanges.
Local Open Scope Q_scope.

Lemma Qltb_true (a b : Q) : Qltb a b = true -> a < b.
Proof.
  unfold Qltb. intros H. apply negb_true_iff in H.
  apply Qnot_le_lt. intros Hle. apply Qle_bool_iff in Hle. congruence.
Qed.

Lemma Qltb_false (a b : Q) : Qltb a b = false -> b <= a.
Proof.
  unfold Qltb. intros H. apply negb_false_iff in H.
  apply Qle_bool_iff. exact H.
Qed.

Ltac qcases :=
  repeat match goal with
         | |- context [if Qltb ?a ?b then _ else _] =>
             let E := fresh "E" in
             destruct (Qltb a b) eqn:E;
             [apply Qltb_true in E | apply Qltb_false in E]
         end.

Lemma hue_to_rgb_exact (p q t : Q) :
  hue_to_rgb (fl:=Exact) p q t
  = (let t1 := if Qltb t 0 then t + 1 else t in
     let t2 := if Qltb 1 t1 then t1 - 1 else t1 in
     if Qltb t2 (1 # 6) then p + (q - p) * 6 * t2
     else if Qltb t2 (1 # 2) then q
     else if Qltb t2 (2 # 3) then p + (q - p) * ((2 # 3) - t2) * 6
     else p).
Proof. reflexivity. Qed.

Lemma hue_to_rgb_range (p q t : Q) :
  0 <= p -> p <= q -> q <= 1 -> -(1) <= t ->
  0 <= hue_to_rgb (fl:=Exact) p q t <= 1.
Proof.
  intros Hp Hpq Hq Ht. rewrite hue_to_rgb_exact. cbv zeta.
  qcases; split; try lra; nra.
Qed.

Lemma hsl_channels_exact (h s l : Q) :
  hsl_channels (fl:=Exact) h s l
  = if Qeq_bool s 0 then (l, l, l)
    else
      let q := if Qltb l (1 # 2) then l * (1 + s) else l + s - l * s in
      let p := 2 * l - q in
      (hue_to_rgb (fl:=Exact) p q (h + (1 # 3)),
       hue_to_rgb (fl:=Exact) p q h,
       hue_to_rgb (fl:=Exact) p q (h - (1 # 3))).
Proof. reflexivity. Qed.

Lemma hsl_channels_range (h s l : Q) :
  0 <= s <= 1 -> 0 <= l <= 1 -> 0 <= h ->
  let '(r, g, b) := hsl_channels (fl:=Exact) h s l in
  0 <= r <= 1 /\ 0 <= g <= 1 /\ 0 <= b <= 1.
Proof.
  intros Hs Hl Hh. rewrite hsl_channels_exact.
  destruct (Qeq_bool s 0); [tauto|]. cbv zeta.
  destruct (Qltb l (1 # 2)) eqn:E;
    [apply Qltb_true in E | apply Qltb_false in E].
  - assert (0 <= 2 * l - l * (1 + s)) by nra.
    assert (2 * l - l * (1 + s) <= l * (1 + s)) by nra.
    assert (l * (1 + s) <= 1) by nra.
    repeat split; apply hue_to_rgb_range; lra.
  - assert (0 <= 2 * l - (l + s - l * s)) by nra.
    assert (2 * l - (l + s - l * s) <= l + s - l * s) by nra.
    assert (l + s - l * s <= 1) by nra.
    repeat split; apply hue_to_rgb_range; lra.
Qed.

Lemma Qtrunc_nonneg (q : Q) :
  0 <= q -> (0 <= Qtrunc q)%Z /\ inject_Z (Qtrunc q) <= q.
Proof.
  intros Hq.
  assert (Hn : (0 <= Qnum q)%Z).
  { unfold Qle in Hq. cbn in Hq. lia. }
  assert (E : Qtrunc q = Qfloor q).
  { unfold Qtrunc, Qfloor. destruct q as [n d]. cbn in *.
    apply Z.quot_div_nonneg; lia. }
  rewrite E. split; [|apply Qfloor_le].
  change 0%Z with (Qfloor 0). apply Qfloor_resp_le. exact Hq.
Qed.

Lemma Qtrunc_gap (q : Q) :
  q - 1 < inject_Z (Qtrunc q) /\ inject_Z (Qtrunc q) < q + 1.
Proof.
  destruct (Qlt_le_dec q 0) as [Hneg|Hpos].
  - assert (E : Qtrunc q = (- Qfloor (- q))%Z).
    { unfold Qtrunc, Qfloor. destruct q as [n d]. cbn in *.
      unfold Qlt in Hneg. cbn in Hneg.
      rewrite <- Z.quot_div_nonneg by lia.
      rewrite Z.quot_opp_l by lia. lia. }
    rewrite E, inject_Z_opp.
    pose proof (Qfloor_le (- q)). pose proof (Qlt_floor (- q)) as Hlt.
    rewrite inject_Z_plus in Hlt. change (inject_Z 1) with 1 in Hlt.
    split; lra.
  - destruct (Qtrunc_nonneg q Hpos) as [_ Hle].
    assert (E : Qtrunc q = Qfloor q).
    { unfold Qtrunc, Qfloor. destruct q as [n d]. cbn in *.
      unfold Qle in Hpos. cbn in Hpos.
      apply Z.quot_div_nonneg; lia. }
    pose proof (Qlt_floor q) as Hlt. rewrite <- E in Hlt.
    rewrite inject_Z_plus in Hlt. change (inject_Z 1) with 1 in Hlt.
    split; lra.
Qed.

(** [x % 360] lies in [0, 360). *)
Lemma exact_mod_360 (x : Q) :
  0 <= exact_mod x 360 /\ exact_mod x 360 < 360.
Proof.
  unfold exact_mod.
  pose proof (Qtrunc_gap (x / 360)) as [Hlo Hhi].
  set (k := inject_Z (Qtrunc (x / 360))) in *.
  unfold Qdiv in Hlo, Hhi. change (/ 360) with (1 # 360) in Hlo, Hhi.
  change (Qltb 360 0) with false. cbn [Bool.eqb].
  destruct (Qeq_bool (x - 360 * k) 0) eqn:E0; cbn [negb]; [lra|].
  destruct (Qltb (x - 360 * k) 0) eqn:E1;
    [apply Qltb_true in E1 | apply Qltb_false in E1]; cbn [negb].
  - split; lra.
  - split; lra.
Qed.

Lemma inject_Z_byte (v : Z) :
  (0 <= v <= 255)%Z -> 0 <= inject_Z v / inject_Z 255 <= 1.
Proof.
  intros Hv. unfold Qdiv. change (/ inject_Z 255) with (1 # 255).
  assert (0 <= inject_Z v).
  { change 0 with (inject_Z 0). rewrite <- Zle_Qle. lia. }
  assert (inject_Z v <= 255).
  { change 255 with (inject_Z 255). rewrite <- Zle_Qle. lia. }
  split; lra.
Qed.
End ExactRanges.

Ltac q_cases :=
  repeat match goal with
         | |- context [if Qltb ?a ?b then _ else _] =>
             let E := fresh "E" in
             destruct (Qltb a b) eqn:E;
             [apply Qltb_true in E | apply Qltb_false in E]
         end.

Section ExactRotation.
Local Open Scope Q_scope.

Lemma fmax3_fmin3_range (a b c lo hi : Q) :
  lo <= a <= hi -> lo <= b <= hi -> lo <= c <= hi ->
  lo <= fmin3 (fl:=Exact) a b c
  /\ fmin3 (fl:=Exact) a b c <= fmax3 (fl:=Exact) a b c
  /\ fmax3 (fl:=Exact) a b c <= hi.
Proof.
  intros Ha Hb Hc. unfold fmin3, fmax3. cbn [fltb Exact].
  q_cases; repeat split; lra.
Qed.

Lemma ratio_range (cmax cmin : Q) :
  0 <= cmin -> cmin <= cmax -> ~ cmax == 0 ->
  0 <= (cmax - cmin) / cmax <= 1.
Proof.
  intros Hmin Hle Hne.
  assert (Hpos : 0 < cmax).
  { destruct (Qlt_le_dec 0 cmax) as [H|H]; [exact H|].
    exfalso. apply Hne. lra. }
  split.
  - apply Qle_shift_div_l; [exact Hpos | lra].
  - apply Qle_shift_div_r; [exact Hpos | lra].
Qed.

Lemma hue_sat_light_range (r g b : Z) :
  (0 <= r <= 255)%Z -> (0 <= g <= 255)%Z -> (0 <= b <= 255)%Z ->
  0 <= saturation_of (fl:=Exact) (r, g, b) <= 1
  /\ 0 <= lightness_of (fl:=Exact) (r, g, b) <= 1.
Proof.
  intros Hr Hg Hb. unfold saturation_of, lightness_of, hue_sat_light.
  cbn [of_int fdiv fsub fadd feqb Exact fst snd].
  pose proof (inject_Z_byte r Hr) as Hrn.
  pose proof (inject_Z_byte g Hg) as Hgn.
  pose proof (inject_Z_byte b Hb) as Hbn.
  destruct (fmax3_fmin3_range _ _ _ 0 1 Hrn Hgn Hbn) as (Hlo & Hmid & Hhi).
  set (cmax := fmax3 _ _ _) in *. set (cmin := fmin3 _ _ _) in *.
  split.
  - destruct (Qeq_bool cmax (inject_Z 0)) eqn:E0.
    + change (inject_Z 0) with 0. lra.
    + apply Qeq_bool_neq in E0. apply ratio_range; assumption.
  - unfold Qdiv. change (/ inject_Z 2) with (1 # 2). lra.
Qed.

(** The rotated hue, as a fraction of the circle, lies in [0, 1). *)
Lemma rotated_hue_range (h d : PyNum Q) :
  exists h', rotated_hue (fl:=Exact) h d = Some h' /\ 0 <= h'.
Proof.
  assert (Hm : forall x, 0 <= exact_mod x (inject_Z 360) / inject_Z 360).
  { intros x. change (inject_Z 360) with 360.
    destruct (exact_mod_360 x) as [H0 _].
    unfold Qdiv. change (/ 360) with (1 # 360). lra. }
  destruct h as [a|x], d as [n|y]; cbn [rotated_hue int_fits Exact];
    eexists; (split; [reflexivity|]);
    cbn [of_int fdiv fmod fadd Exact]; try apply Hm.
  pose proof (Z.mod_pos_bound (a + n) 360 ltac:(lia)) as Hb.
  unfold Qdiv. change (/ inject_Z 360) with (1 # 360).
  assert (0 <= inject_Z ((a + n) mod 360)).
  { change 0 with (inject_Z 0). rewrite <- Zle_Qle. lia. }
  lra.
Qed.

Lemma channel_byte (c : Q) :
  0 <= c <= 1 -> (0 <= Qtrunc (c * inject_Z 255) <= 255)%Z.
Proof.
  intros Hc. change (inject_Z 255) with 255.
  destruct (Qtrunc_nonneg (c * 255)) as [H0 Hle]; [lra|].
  split; [exact H0|].
  rewrite Zle_Qle. change (inject_Z 255) with 255. lra.
Qed.

Lemma hsl_to_rgb_bytes (h s l : Q) :
  0 <= s <= 1 -> 0 <= l <= 1 -> 0 <= h ->
  exists r g b,
    hsl_to_rgb (fl:=Exact) h s l = Some (r, g, b)
    /\ (0 <= r <= 255)%Z /\ (0 <= g <= 255)%Z /\ (0 <= b <= 255)%Z.
Proof.
  intros Hs Hl Hh. unfold hsl_to_rgb.
  pose proof (hsl_channels_range h s l Hs Hl Hh) as Hc.
  destruct (hsl_channels h s l) as [[r g] b].
  destruct Hc as (Hr & Hg & Hb).
  cbn [to_int fmul of_int Exact bind].
  do 3 eexists. split; [reflexivity|].
  repeat split; apply channel_byte; assumption.
Qed.
End ExactRotation.

Lemma lower_hex_char_digit (d : Z) :
  0 <= d < 16 ->
  hex_digit (lower_hex_char d) = Some d /\ is_hex_char (lower_hex_char d) = true.
Proof.
  intros Hd.
  assert (E : d = 0 \/ d = 1 \/ d = 2 \/ d = 3 \/ d = 4 \/ d = 5 \/ d = 6
              \/ d = 7 \/ d = 8 \/ d = 9 \/ d = 10 \/ d = 11 \/ d = 12
              \/ d = 13 \/ d = 14 \/ d = 15) by lia.
  clear Hd.
  repeat (destruct E as [-> | E]); subst; split; reflexivity.
Qed.

(** A byte prints as two lowercase hexadecimal digits that parse back. *)
Lemma format_02x_byte (v : Z) :
  0 <= v <= 255 ->
  exists c1 c2,
    format_02x v = String c1 (String c2 EmptyString)
    /\ is_hex_char c1 = true
    /\ int16 (String c1 (String c2 EmptyString)) = Some v.
Proof.
  intros Hv.
  assert (Ha : 0 <= v / 16 < 16)
    by (split; [apply Z.div_pos; lia | apply Z.div_lt_upper_bound; lia]).
  assert (Hb : 0 <= v mod 16 < 16) by (apply Z.mod_pos_bound; lia).
  destruct (lower_hex_char_digit _ Ha) as [Da Ia].
  destruct (lower_hex_char_digit _ Hb) as [Db _].
  exists (lower_hex_char (v / 16)), (lower_hex_char (v mod 16)).
  split.
  - rewrite <- format_02x_digits by assumption.
    f_equal. apply Z.div_mod. lia.
  - split; [exact Ia|].
    rewrite (int16_pair _ _ _ _ Da Db). f_equal.
    symmetry. apply Z.div_mod. lia.
Qed.

(** The colour [rgb_to_hex] prints for three bytes is a 6-digit colour:
    parsing it gives the bytes back with alpha 255. *)
Lemma rgb_to_hex_is_opaque (r g b : Z) :
  0 <= r <= 255 -> 0 <= g <= 255 -> 0 <= b <= 255 ->
  String.length (rgb_to_hex (r, g, b)) = 7%nat
  /\ hex_to_rgba (rgb_to_hex (r, g, b)) = Some (r, g, b, 255).
Proof.
  intros Hr Hg Hb.
  destruct (format_02x_byte r Hr) as (r1 & r2 & Er & Hr1 & Pr).
  destruct (format_02x_byte g Hg) as (g1 & g2 & Eg & _ & Pg).
  destruct (format_02x_byte b Hb) as (b1 & b2 & Eb & _ & Pb).
  unfold rgb_to_hex. rewrite Er, Eg, Eb. cbn [append String.length].
  split; [reflexivity|].
  unfold hex_to_rgba.
  change (lstrip_hash (String "#" ?t)) with (lstrip_hash t).
  rewrite hex_char_not_hash by exact Hr1.
  cbn [String.length Nat.eqb substring].
  rewrite Pr, Pg, Pb. reflexivity.
Qed.

Lemma rotate_hue_exact_total (c : string) (d : PyNum Q) (rgba : RGBA) :
  hex_to_rgba c = Some rgba ->
  exists r g b,
    rotate_hue (fl:=Exact) c d = Some (rgb_to_hex (r, g, b))
    /\ 0 <= r <= 255 /\ 0 <= g <= 255 /\ 0 <= b <= 255.
Proof.
  intros Hc. unfold rotate_hue. rewrite Hc. cbn [bind].
  destruct rgba as [[[r g] b] a].
  destruct (hex_to_rgba_range _ _ _ _ _ Hc) as (Hr & Hg & Hb & _).
  cbn [rgb_of].
  pose proof (hue_sat_light_range r g b Hr Hg Hb) as [Hs Hl].
  unfold saturation_of, lightness_of in Hs, Hl.
  destruct (hue_sat_light (r, g, b)) as [[h s] l]. cbn [fst snd] in Hs, Hl.
  destruct (rotated_hue_range h d) as (h' & -> & Hh). cbn [bind].
  destruct (hsl_to_rgb_bytes h' s l Hs Hl Hh) as (r' & g' & b' & -> & Hbytes).
  cbn [bind]. exists r', g', b'. split; [reflexivity | exact Hbytes].
Qed.

Lemma rotate_hue_exact_opaque (c s : string) (d : PyNum Q) :
  rotate_hue (fl:=Exact) c d = Some s ->
  String.length s = 7%nat
  /\ exists r g b, hex_to_rgba s = Some (r, g, b, 255).
Proof.
  intros H.
  destruct (hex_to_rgba c) as [rgba|] eqn:Ec;
    [|unfold rotate_hue in H; rewrite Ec in H; discriminate].
  destruct (rotate_hue_exact_total c d rgba Ec)
    as (r & g & b & E & Hr & Hg & Hb).
  rewrite E in H. inversion H; subst s.
  destruct (rgb_to_hex_is_opaque r g b Hr Hg Hb) as [Hlen Hp].
  split; [exact Hlen|]. exists r, g, b. exact Hp.
Qed.

Lemma rotated_palette_opaque (d : PyNum Q) (pal0 : list string) :
  forall pal,
    mapM (fun color => rotate_hue (fl:=Exact) color d) pal0 = Some pal ->
    Forall opaque_colour pal.
Proof.
  induction pal0 as [|c t IH]; intros pal H; cbn [mapM] in H.
  - inversion H. constructor.
  - inv_bind H. inv_bind H. inversion H; subst. constructor.
    + exact (proj2 (rotate_hue_exact_opaque _ _ _ E)).
    + apply IH. reflexivity.
Qed.

Lemma py_index_In {A} (l : list A) (i : Z) (a : A) :
  py_index l i = Some a -> In a l.
Proof.
  unfold py_index.
  destruct ((0 <=? i) && (i <? Z.of_nat (List.length l)));
    [apply nth_error_In|].
  destruct ((- Z.of_nat (List.length l) <=? i) && (i <? 0));
    [apply nth_error_In | discriminate].
Qed.

(** With an opaque palette every pixel the shape logic produces is opaque. *)
Lemma shape_pixel_opaque (config : AssetConfig Q) (pal : list string)
      (base_color : string) (base px : RGBA) (w h y x : Z) :
  Forall opaque_colour pal -> alpha_of base = 255 ->
  shape_pixel config pal base_color base w h y x = Some px ->
  alpha_of px = 255.
Proof.
  intros Hpal Hbase H. unfold shape_pixel in H.
  assert (Hidx : forall c p, py_index pal 1 = Some c ->
                             hex_to_rgba c = Some p -> alpha_of p = 255).
  { intros c p Hc Hp. apply py_index_In in Hc.
    destruct (proj1 (Forall_forall _ _) Hpal c Hc) as (r & g & b & E).
    rewrite E in Hp. inversion Hp. reflexivity. }
  repeat match type of H with
         | (if ?b then _ else _) = _ => destruct b
         end; try (inversion H; subst; exact Hbase).
  - destruct (1 <? Z.of_nat (List.length pal)); inv_bind H.
    + eapply Hidx; [reflexivity | exact H].
    + destruct (proj2 (rotate_hue_exact_opaque _ _ _ E)) as (r & g & b & E').
      rewrite E' in H. inversion H. reflexivity.
  - inv_bind H. eapply Hidx; [reflexivity | exact H].
Qed.

(** The same grids computed in binary64: the variant grids and the body of
    the base grid of an npc whose palette is ["#ff000080"] are opaque, and
    the twelve rotations of the smoke-test npc palette are 6-digit colours. *)
Example ghost_variants_are_opaque_in_binary64 :
  forallb (fun v =>
             forallb (fun c =>
                        match rotate_hue (fl:=IEEE) c (PInt (30 * v)) with
                        | Some s => (String.length s =? 7)%nat
                        | None => false
                        end)
                     ["#1e4a8c"; "#0d2b5c"; "#f8f9fa"]%string)
          (range 13) = true
  /\ option_map all_opaque
    (generate_pixel_grid no_noise no_edges (0, 0) ghost_npc 1) = Some true
  /\ option_map all_opaque
       (generate_pixel_grid no_noise no_edges (0, 0) ghost_npc 2) = Some true
  /\ option_map (fun g => grid_at g 4 4)
       (generate_pixel_grid no_noise no_edges (0, 0) ghost_npc 0)
     = Some (Some (255, 127, 0, 255))
  /\ option_map (fun g => grid_at g 0 0)
       (generate_pixel_grid no_noise no_edges (0, 0) ghost_npc 0)
     = Some (Some (255, 0, 0, 128)).
Proof.
  split; [vm_compute; reflexivity|].
  split; [vm_compute; reflexivity|].
  split; [vm_compute; reflexivity|].
  split; vm_compute; reflexivity.
Qed.

(* ================================================================== *)
(** * Further properties of the colour functions *)
(* ================================================================== *)

Lemma int16_pair_none (c1 c2 : ascii) :
  int16 (String c1 (String c2 EmptyString)) = None
  <-> is_hex_char c1 && is_hex_char c2 = false.
Proof.
  unfold int16, int16_from, is_hex_char.
  destruct (hex_digit c1); destruct (hex_digit c2); cbn; split;
    intros H; try discriminate H; reflexivity.
Qed.

Lemma bind_none_iff {A B} (m : option A) (k : A -> option B) :
  bind m k = None <-> m = None \/ exists a, m = Some a /\ k a = None.
Proof.
  destruct m as [a|]; cbn; split.
  - intros H. right. exists a. split; [reflexivity | exact H].
  - intros [H | (a' & Ha & H)]; [discriminate | congruence].
  - intros _. left. reflexivity.
  - reflexivity.
Qed.

Lemma hex_to_rgba_none_iff (c : string) :
  (hex_to_rgba c = None <-> well_formed_hex (lstrip_hash c) = false)
  /\ hex_to_rgba (String "#" c) = hex_to_rgba c.
Proof.
  split; [|reflexivity].
  unfold hex_to_rgba, well_formed_hex. generalize (lstrip_hash c). intros s.
  destruct (String.length s =? 6)%nat eqn:E6.
  - apply Nat.eqb_eq in E6.
    destruct s as [|c1 [|c2 [|c3 [|c4 [|c5 [|c6 [|c7 s]]]]]]]; try discriminate.
    cbn [substring orb string_forallb]. unfold int16, int16_from, is_hex_char.
    destruct (hex_digit c1); destruct (hex_digit c2); destruct (hex_digit c3);
      destruct (hex_digit c4); destruct (hex_digit c5); destruct (hex_digit c6);
      cbn; split; intros H; try discriminate H; reflexivity.
  - destruct (String.length s =? 8)%nat eqn:E8.
    + apply Nat.eqb_eq in E8.
      destruct s as [|c1 [|c2 [|c3 [|c4 [|c5 [|c6 [|c7 [|c8 [|c9 s]]]]]]]]];
        try discriminate.
      cbn [substring orb string_forallb]. unfold int16, int16_from, is_hex_char.
      destruct (hex_digit c1); destruct (hex_digit c2); destruct (hex_digit c3);
        destruct (hex_digit c4); destruct (hex_digit c5);
        destruct (hex_digit c6); destruct (hex_digit c7);
        destruct (hex_digit c8);
        cbn; split; intros H; try discriminate H; reflexivity.
    + cbn [orb andb]. split; reflexivity.
Qed.

(** X1: [hex_to_rgba] reads every string of six or eight hexadecimal digits,
    after any number of leading ["#"], as three or four bytes, with alpha
    255 for six digits; it raises when the length of what follows the
    leading ["#"]s is neither 6 nor 8. *)
Theorem hex_to_rgba_reads_hex_colours (c : string) :
  (well_formed_hex (lstrip_hash c) = true ->
   exists r g b a,
     hex_to_rgba c = Some (r, g, b, a)
     /\ 0 <= r <= 255 /\ 0 <= g <= 255 /\ 0 <= b <= 255 /\ 0 <= a <= 255
     /\ (String.length (lstrip_hash c) = 6%nat -> a = 255))
  /\ (String.length (lstrip_hash c) <> 6%nat ->
      String.length (lstrip_hash c) <> 8%nat ->
      hex_to_rgba c = None)
  /\ hex_to_rgba (String "#" c) = hex_to_rgba c.
Proof.
  split; [|split; [|reflexivity]].
  - intros Hwf.
    destruct (hex_to_rgba c) as [[[[r g] b] a]|] eqn:E.
    + exists r, g, b, a. split; [reflexivity|].
      exact (hex_to_rgba_range _ _ _ _ _ E).
    + apply (proj1 (hex_to_rgba_none_iff c)) in E. congruence.
  - intros H6 H8. apply (proj1 (hex_to_rgba_none_iff c)).
    unfold well_formed_hex.
    apply Nat.eqb_neq in H6, H8. rewrite H6, H8. reflexivity.
Qed.

Lemma hex_to_rgba_reads_hex_colours_witness :
  exists r g b a,
    hex_to_rgba "##1e4a8c80" = Some (r, g, b, a)
    /\ 0 <= r <= 255 /\ 0 <= g <= 255 /\ 0 <= b <= 255 /\ 0 <= a <= 255
    /\ (String.length (lstrip_hash "##1e4a8c80") = 6%nat -> a = 255).
Proof.
  apply (proj1 (hex_to_rgba_reads_hex_colours "##1e4a8c80")).
  vm_compute. reflexivity.
Defined.

(** X2: Printing three bytes with [rgb_to_hex] and parsing the result gives
    the bytes back, fully opaque; the printed colour has 7 characters and
    is a fixed point of the round trip. *)
Theorem rgb_to_hex_round_trip (r g b : Z) :
  0 <= r <= 255 -> 0 <= g <= 255 -> 0 <= b <= 255 ->
  hex_to_rgba (rgb_to_hex (r, g, b)) = Some (r, g, b, 255)
  /\ String.length (rgb_to_hex (r, g, b)) = 7%nat
  /\ hex_round_trip (rgb_to_hex (r, g, b)) = Some (rgb_to_hex (r, g, b)).
Proof.
  intros Hr Hg Hb.
  destruct (rgb_to_hex_is_opaque r g b Hr Hg Hb) as [Hlen Hp].
  split; [exact Hp|]. split; [exact Hlen|].
  unfold hex_round_trip. rewrite Hp. reflexivity.
Qed.

Lemma rgb_to_hex_round_trip_witness :
  hex_to_rgba (rgb_to_hex (18, 71, 151)) = Some (18, 71, 151, 255).
Proof.
  apply (rgb_to_hex_round_trip 18 71 151); lia.
Defined.

Lemma grey_table : forallb grey_is_fixed (range 256) = true.
Proof. vm_compute. reflexivity. Qed.

(** X4: In binary64 [rotate_hue] returns every grey unchanged, whatever the
    angle (an [int] or a [float], NaN included): a grey has saturation 0,
    so the rotated hue is not used, and [int(l * 255)] gives the level
    back for each of the 256 greys. *)
Theorem rotate_hue_fixes_greys (c : Z) (degrees : PyNum float) :
  0 <= c <= 255 ->
  rotate_hue (fl:=IEEE) (rgb_to_hex (c, c, c)) degrees
  = Some (rgb_to_hex (c, c, c)).
Proof.
  intros Hc.
  destruct (rgb_to_hex_is_opaque c c c Hc Hc Hc) as [_ Hp].
  assert (Hin : In c (range 256)).
  { unfold range. apply in_map_iff. exists (Z.to_nat c). split; [lia|].
    apply in_seq. lia. }
  pose proof (proj1 (forallb_forall _ _) grey_table c Hin) as Hfix.
  unfold grey_is_fixed in Hfix.
  unfold rotate_hue. rewrite Hp. cbn [bind rgb_of].
  destruct (hue_sat_light (c, c, c)) as [[h s] l].
  destruct h as [a|x]; [|discriminate].
  apply andb_prop in Hfix. destruct Hfix as [Hs Hl].
  destruct (to_int (fmul l (of_int 255))) as [v|] eqn:Ev; [|discriminate].
  apply Z.eqb_eq in Hl. subst v.
  assert (Hh : exists h', rotated_hue (PInt a) degrees = Some h').
  { destruct degrees; cbn [rotated_hue]; eauto. }
  destruct Hh as [h' ->]. cbn [bind].
  unfold hsl_to_rgb, hsl_channels. rewrite Hs, Ev. reflexivity.
Qed.

Lemma rotate_hue_fixes_greys_witness :
  rotate_hue (fl:=IEEE) (rgb_to_hex (128, 128, 128)) (PFloat nan)
  = Some "#808080"%string.
Proof.
  apply (rotate_hue_fixes_greys 128 (PFloat nan)). lia.
Defined.

(** X6: For [n >= 1], [next_power_of_2(n)] is a power of two [p] with
    [n <= p < 2 * n], as its docstring says, and it leaves powers of two
    unchanged. *)
Theorem next_power_of_2_is_tight (n : Z) :
  1 <= n ->
  exists p,
    next_power_of_2 (fl:=IEEE) (PInt n) = Some p
    /\ is_pow2 p /\ n <= p < 2 * n
    /\ (is_pow2 n -> p = n).
Proof.
  intros Hn.
  destruct (next_power_of_2 (fl:=IEEE) (PInt n)) as [p|] eqn:E;
    [|discriminate E].
  exists p. split; [reflexivity|].
  destruct (next_power_of_2_least (fl:=IEEE) n p Hn E) as (Hp & Hle & Hleast).
  split; [exact Hp|]. split.
  - split; [exact Hle|].
    destruct (Z.eq_dec n 1) as [->|Hn1].
    + vm_compute in E. inversion E. lia.
    + pose proof (Z.log2_nonneg (n - 1)) as Hl.
      destruct (Z.log2_spec (n - 1)) as [Hlo Hhi]; [lia|].
      assert (Hq : is_pow2 (2 ^ (Z.log2 (n - 1) + 1)))
        by (exists (Z.log2 (n - 1) + 1); split; [lia | reflexivity]).
      replace (Z.succ (Z.log2 (n - 1))) with (Z.log2 (n - 1) + 1) in Hhi by lia.
      specialize (Hleast _ Hq ltac:(lia)).
      rewrite Z.pow_add_r in Hleast by lia. lia.
  - intros Hpow. specialize (Hleast n Hpow ltac:(lia)). lia.
Qed.

Lemma next_power_of_2_is_tight_witness :
  exists p,
    next_power_of_2 (fl:=IEEE) (PInt 67) = Some p
    /\ is_pow2 p /\ 67 <= p < 2 * 67 /\ (is_pow2 67 -> p = 67).
Proof. apply (next_power_of_2_is_tight 67). lia. Defined.

(* ================================================================== *)
(** * Further properties of the validator *)
(* ================================================================== *)

Section ValidatorProperties.
Context {F : Type} {fl : PyFloat F}.
Variable pow : F -> F -> F.

Lemma luminance_none (c : string) :
  luminance pow c = None <-> hex_to_rgba c = None.
Proof.
  unfold luminance. destruct (hex_to_rgba c) as [[[[cr cg] cb] ca]|]; cbn;
    split; intros H; try discriminate H; reflexivity.
Qed.

Lemma check_contrast_ratio_none (c1 c2 : string) :
  check_contrast_ratio pow c1 c2 = None
  <-> hex_to_rgba c1 = None \/ hex_to_rgba c2 = None.
Proof.
  unfold check_contrast_ratio. rewrite <- !luminance_none.
  destruct (luminance pow c1); destruct (luminance pow c2); cbn; split;
    intros H; try discriminate H; try reflexivity; try tauto.
  - destruct H as [H | H]; discriminate H.
Qed.

Lemma contrast_errors_none (n : string) (m : F) (pal : list string) :
  contrast_errors pow n m pal = None
  <-> (1 < List.length pal)%nat /\ Exists (fun c => hex_to_rgba c = None) pal.
Proof.
  induction pal as [|c1 t IH].
  - cbn. split; [discriminate | intros [H _]; lia].
  - destruct t as [|c2 t'].
    + cbn. split; [discriminate | intros [H _]; lia].
    + rewrite contrast_errors_pair, bind_none_iff, check_contrast_ratio_none.
      split.
      * intros [[H | H] | (r & Hr & H)].
        -- split; [cbn; lia | apply Exists_cons_hd; exact H].
        -- split; [cbn; lia |
                   apply Exists_cons_tl, Exists_cons_hd; exact H].
        -- apply bind_none_iff in H.
           destruct H as [H | (e & _ & H)]; [|discriminate H].
           apply IH in H. destruct H as [_ H].
           split; [cbn; lia | apply Exists_cons_tl; exact H].
      * intros [_ H].
        destruct (hex_to_rgba c1) eqn:E1; [|left; left; reflexivity].
        destruct (hex_to_rgba c2) eqn:E2; [|left; right; reflexivity].
        right.
        destruct (check_contrast_ratio pow c1 c2) as [ratio|] eqn:Er.
        -- exists ratio. split; [reflexivity|].
           apply bind_none_iff. left. apply IH.
           inversion H as [? ? Hb | ? ? Hb]; subst; [congruence|].
           inversion Hb as [? ? Hb2 | ? ? Hb2]; subst; [congruence|].
           split; [|exact Hb].
           destruct t'; [inversion Hb2 | cbn; lia].
        -- apply check_contrast_ratio_none in Er.
           destruct Er; congruence.
Qed.

Lemma validate_asset_none (n : string) (a : AssetData F) :
  validate_asset pow n a = None <-> unreadable_palette a.
Proof.
  unfold validate_asset, unreadable_palette.
  destruct (d_size a) as [w h]. rewrite bind_none_iff.
  destruct (1 <? Z.of_nat (List.length (d_palette a))) eqn:El.
  - apply Z.ltb_lt in El. rewrite contrast_errors_none. split.
    + intros [H | (e & _ & H)]; [exact H | discriminate H].
    + intros H. left. exact H.
  - apply Z.ltb_ge in El. split.
    + intros [H | (e & _ & H)]; discriminate H.
    + intros [H _]. lia.
Qed.

Lemma contrast_errors_length (n : string) (m : F) (pal : list string)
      (errs : list (ValidationError F)) :
  contrast_errors pow n m pal = Some errs ->
  (List.length errs <= Nat.pred (List.length pal))%nat.
Proof.
  revert errs. induction pal as [|c1 t IH]; intros errs H.
  - inversion H. cbn. lia.
  - destruct t as [|c2 t'].
    + inversion H. cbn. lia.
    + rewrite contrast_errors_pair in H. inv_bind H. inv_bind H.
      inversion H; subst. specialize (IH _ eq_refl).
      rewrite length_app. cbn [List.length Nat.pred] in *.
      destruct (fltb f m); cbn [List.length]; lia.
Qed.

Lemma validate_asset_length (n : string) (a : AssetData F)
      (errs : list (ValidationError F)) :
  validate_asset pow n a = Some errs ->
  (List.length errs <= message_bound a)%nat.
Proof.
  unfold validate_asset, message_bound. destruct (d_size a) as [w h].
  intros H. inv_bind H. inversion H; subst. rewrite !length_app.
  assert (Hl : (List.length l <= Nat.pred (List.length (d_palette a)))%nat).
  { destruct (1 <? Z.of_nat (List.length (d_palette a))).
    - eapply contrast_errors_length; exact E.
    - inversion E. cbn. lia. }
  destruct (negb (w mod 4 =? 0) || negb (h mod 4 =? 0));
    destruct (128 <? Z.max w h); cbn [List.length]; lia.
Qed.
End ValidatorProperties.

Lemma validate_config_none_iff
        {F : Type} {fl : PyFloat F} (pow : F -> F -> F)
        (assets : list (string * AssetData F)) :
  validate_config pow assets = None
  <-> exists n a, In (n, a) assets /\ unreadable_palette a.
Proof.
  induction assets as [|[n a] rest IH].
  - cbn. split; [discriminate | intros (? & ? & [] & _)].
  - cbn [validate_config]. rewrite bind_none_iff, validate_asset_none. split.
    + intros [H | (e & _ & H)].
      * exists n, a. split; [left; reflexivity | exact H].
      * apply bind_none_iff in H.
        destruct H as [H | (e' & _ & H)]; [|discriminate H].
        apply IH in H. destruct H as (n' & a' & Hin & H).
        exists n', a'. split; [right; exact Hin | exact H].
    + intros (n' & a' & [Heq | Hin] & H).
      * inversion Heq; subst. left. exact H.
      * destruct (validate_asset pow n a) as [e|] eqn:Ea.
        -- right. exists e. split; [reflexivity|].
           apply bind_none_iff. left. apply IH.
           exists n', a'. split; assumption.
        -- left. apply validate_asset_none in Ea. exact Ea.
Qed.

(** X7: [validate_config] returns its messages without raising when every
    colour of every palette of length > 1 is six or eight hexadecimal
    digits (after leading ["#"]s); it raises (the ValueError of
    [hex_to_rgba]) when such a palette holds a colour whose length is
    neither 6 nor 8. The colours of shorter palettes are not read. *)
Theorem validate_config_reads_long_palettes_only
        {F : Type} {fl : PyFloat F} (pow : F -> F -> F)
        (assets : list (string * AssetData F)) :
  ((forall n a c,
       In (n, a) assets -> (1 < List.length (d_palette a))%nat ->
       In c (d_palette a) -> well_formed_hex (lstrip_hash c) = true) ->
   exists errs, validate_config pow assets = Some errs)
  /\ (forall n a c,
         In (n, a) assets -> (1 < List.length (d_palette a))%nat ->
         In c (d_palette a) ->
         String.length (lstrip_hash c) <> 6%nat ->
         String.length (lstrip_hash c) <> 8%nat ->
         validate_config pow assets = None).
Proof.
  split.
  - intros Hwf.
    destruct (validate_config pow assets) as [errs|] eqn:E;
      [exists errs; reflexivity|].
    apply validate_config_none_iff in E.
    destruct E as (n & a & Hin & Hlen & Hex).
    apply Exists_exists in Hex. destruct Hex as (c & Hc & Hnone).
    apply (proj1 (hex_to_rgba_none_iff c)) in Hnone.
    rewrite (Hwf n a c Hin Hlen Hc) in Hnone. discriminate Hnone.
  - intros n a c Hin Hlen Hc H6 H8.
    apply validate_config_none_iff. exists n, a.
    split; [exact Hin|]. split; [exact Hlen|].
    apply Exists_exists. exists c. split; [exact Hc|].
    apply (proj1 (hex_to_rgba_none_iff c)). unfold well_formed_hex.
    apply Nat.eqb_neq in H6, H8. rewrite H6, H8. reflexivity.
Qed.

Lemma validate_config_reads_long_palettes_only_witness :
  validate_config pow_stub assets_with_bad_colour = None
  /\ exists errs, validate_config pow_stub smoke_document = Some errs.
Proof.
  split.
  - apply (proj2 (validate_config_reads_long_palettes_only pow_stub
                    assets_with_bad_colour)
             "broken"%string
             (mkAssetData "prop"%string (32, 16) ["#5d2906"; "brown"]%string
                None None None)
             "brown"%string).
    + right. left. reflexivity.
    + cbn. lia.
    + right. left. reflexivity.
    + vm_compute. discriminate.
    + vm_compute. discriminate.
  - apply (proj1 (validate_config_reads_long_palettes_only pow_stub
                    smoke_document)).
    intros n a c Hin Hlen. exfalso.
    repeat (destruct Hin as [Hin | Hin];
            [inversion Hin; subst; cbn in Hlen; lia|]).
    destruct Hin.
Defined.

(** X8: The messages of a document are those of its first part followed by
    those of the rest: assets are validated one by one, in document order. *)
Theorem validate_config_app
        {F : Type} {fl : PyFloat F} (pow : F -> F -> F)
        (xs ys : list (string * AssetData F)) :
  validate_config pow (xs ++ ys)
  = (ex <- validate_config pow xs ;;
     ey <- validate_config pow ys ;;
     Some (ex ++ ey)).
Proof.
  induction xs as [|[n a] xs IH]; cbn [app validate_config bind].
  - destruct (validate_config pow ys); reflexivity.
  - rewrite IH.
    destruct (validate_asset pow n a) as [e|]; cbn [bind]; [|reflexivity].
    destruct (validate_config pow xs) as [ex|]; cbn [bind]; [|reflexivity].
    destruct (validate_config pow ys) as [ey|]; cbn [bind]; [|reflexivity].
    rewrite app_assoc. reflexivity.
Qed.

(** X9: An asset contributes at most two messages plus one per consecutive
    palette pair. *)
Theorem validate_config_message_count
        {F : Type} {fl : PyFloat F} (pow : F -> F -> F)
        (assets : list (string * AssetData F))
        (errs : list (ValidationError F)) :
  validate_config pow assets = Some errs ->
  (List.length errs
   <= list_sum (map (fun na => message_bound (snd na)) assets))%nat.
Proof.
  revert errs. induction assets as [|[n a] rest IH]; intros errs H.
  - inversion H. cbn. lia.
  - cbn [validate_config] in H. inv_bind H. inv_bind H.
    inversion H; subst. rewrite length_app.
    unfold list_sum in *. cbn [map fold_right snd].
    pose proof (validate_asset_length pow n a _ E). specialize (IH _ eq_refl).
    lia.
Qed.

Lemma validate_config_message_count_witness :
  (List.length [SizeNotDivisible (F:=float) "odd" 30 32; MaxDimension "huge" 200]
   <= list_sum (map (fun na => message_bound (snd na)) sample_assets))%nat.
Proof.
  apply (validate_config_message_count pow_stub sample_assets).
  vm_compute. reflexivity.
Defined.

Example validate_config_raises_on_a_colour_name :
  validate_config pow_stub assets_with_bad_colour = None.
Proof. vm_compute. reflexivity. Qed.

(* ================================================================== *)
(** * Further properties of the pixel grid generator *)
(* ================================================================== *)

Lemma tabulate_none (w h : Z) (f : Z -> Z -> option RGBA) (y x : Z) :
  0 <= y < h -> 0 <= x < w -> f y x = None -> tabulate w h f = None.
Proof.
  intros Hy Hx Hf. destruct (tabulate w h f) as [rows|] eqn:E; [|reflexivity].
  destruct (tabulate_pixel_some w h f rows y x E Hy Hx) as (px & Hpx & _).
  congruence.
Qed.

Section GeneratorProperties.
Context {F : Type} {fl : PyFloat F}.
Variable noise2 : Z -> F -> F -> F.
Variable detect_edges : Grid -> Z -> Z -> Z.
Variable secret : Z * Z.

(** What any successful run went through: a palette, a pixel function
    tabulated over the size, and the outline pass for the prop family. *)
Lemma generate_inv (config : AssetConfig F) (variant_idx : Z) (g : Grid) :
  generate_pixel_grid noise2 detect_edges secret config variant_idx = Some g ->
  exists pal f rows,
    0 <= fst (size config) /\ 0 <= snd (size config)
    /\ variant_palette config variant_idx = Some pal
    /\ tabulate (fst (size config)) (snd (size config)) f = Some rows
    /\ g = (if is_prop_family (type config)
            then outline detect_edges
                   (mkGrid (snd (size config)) (fst (size config)) rows)
            else mkGrid (snd (size config)) (fst (size config)) rows)
    /\ forall y x px,
        f y x = Some px ->
        exists c, hex_to_rgba c = Some px
                  /\ (In c pal
                      \/ (String.eqb (type config) "npc" = true
                          /\ exists base_color,
                              py_index pal 0 = Some base_color
                              /\ rotate_hue base_color (PInt 30) = Some c)).
Proof.
  intros H. unfold generate_pixel_grid in H.
  destruct (size config) as [w h]. cbn [fst snd].
  destruct ((w <? 0) || (h <? 0)) eqn:Eneg; [discriminate|].
  apply orb_false_iff in Eneg. destruct Eneg as [Hw Hh].
  apply Z.ltb_ge in Hw, Hh.
  inv_bind H. rename l into pal.
  destruct (String.eqb (type config) "tile") eqn:Et.
  - inv_bind H. inversion H; subst g.
    exists pal, (tile_pixel noise2 secret config pal w h), l.
    repeat (split; [assumption || reflexivity|]).
    intros y x px Hpx. unfold tile_pixel in Hpx.
    inv_bind Hpx. inv_bind Hpx.
    exists s. split; [exact Hpx|]. left. eapply py_index_In. exact E2.
  - inv_bind H. inv_bind E0.
    destruct (hex_to_rgba s) as [[[[r g0] b] a]|] eqn:Eb; [|discriminate].
    cbn [bind] in E0.
    destruct (hex_to_rgba_range _ _ _ _ _ Eb) as (_ & _ & _ & Ha & _).
    replace (if a <? 255 then a else 255) with a in E0
      by (destruct (a <? 255) eqn:Ea; [reflexivity | apply Z.ltb_ge in Ea; lia]).
    inversion H; subst g.
    exists pal, (shape_pixel config pal s (r, g0, b, a) w h), l.
    repeat (split; [assumption || reflexivity|]).
    intros y x px Hpx. unfold shape_pixel in Hpx.
    assert (Hbase : exists c, hex_to_rgba c = Some (r, g0, b, a)
                              /\ (In c pal
                                  \/ (String.eqb (type config) "npc" = true
                                      /\ exists base_color,
                                          py_index pal 0 = Some base_color
                                          /\ rotate_hue base_color (PInt 30)
                                             = Some c))).
    { exists s. split; [exact Eb|]. left. eapply py_index_In. exact E1. }
    destruct (String.eqb (type config) "npc") eqn:Enpc;
      repeat match type of Hpx with
             | (if ?c then _ else _) = _ => destruct c
             end; try (inversion Hpx; subst; exact Hbase).
    + destruct (1 <? Z.of_nat (List.length pal)); inv_bind Hpx.
      * exists s0. split; [exact Hpx|]. left. eapply py_index_In. exact E2.
      * exists s0. split; [exact Hpx|]. right. split; [reflexivity|].
        exists s. split; [exact E1 | exact E2].
    + inv_bind Hpx. exists s0. split; [exact Hpx|]. left.
      eapply py_index_In. exact E2.
Qed.

(** Where a pixel of a generated grid comes from: the outline pass, a
    palette colour, or (npc body, single-colour palette) the base colour
    rotated by 30 degrees. *)
Lemma generated_pixel_origin (config : AssetConfig F) (variant_idx : Z)
      (g : Grid) (y x : Z) (px : RGBA) :
  generate_pixel_grid noise2 detect_edges secret config variant_idx = Some g ->
  grid_at g y x = Some px ->
  exists pal,
    variant_palette config variant_idx = Some pal
    /\ ((is_prop_family (type config) = true /\ px = (0, 0, 0, 255))
        \/ exists c,
            hex_to_rgba c = Some px
            /\ (In c pal
                \/ (String.eqb (type config) "npc" = true
                    /\ exists base_color,
                        py_index pal 0 = Some base_color
                        /\ rotate_hue base_color (PInt 30) = Some c))).
Proof.
  intros Hgen Hpx.
  destruct (generate_inv _ _ _ Hgen)
    as (pal & f & rows & _ & _ & Hpal & Htab & Hg & Hf).
  exists pal. split; [exact Hpal|].
  assert (Hpre : forall p, grid_at (mkGrid (snd (size config))
                                       (fst (size config)) rows) y x = Some p ->
                           f y x = Some p).
  { intros p Hp. rewrite (tabulate_grid_at _ _ _ _ y x Htab) in Hp.
    destruct ((0 <=? y) && (y <? snd (size config)) && (0 <=? x)
              && (x <? fst (size config))); [exact Hp | discriminate]. }
  subst g. destruct (is_prop_family (type config)).
  - rewrite (outline_grid_at _ _ _ _ _ y x Htab) in Hpx.
    destruct (grid_at (mkGrid (snd (size config)) (fst (size config)) rows)
                y x) as [p|] eqn:Ep; [|discriminate].
    cbn [option_map] in Hpx.
    destruct (50 <? _).
    + left. split; [reflexivity | congruence].
    + right. apply (Hf y x). apply Hpre. congruence.
  - right. apply (Hf y x). apply Hpre. exact Hpx.
Qed.
End GeneratorProperties.

(** X10: A generated grid has the configured shape: [height] rows of [width]
    pixels, so that [grid[y, x]] exists exactly for [0 <= y < height] and
    [0 <= x < width], for every kind and with or without the outline. *)
Theorem generated_grid_has_the_configured_shape
        {F : Type} {fl : PyFloat F}
        (noise2 : Z -> F -> F -> F) (detect_edges : Grid -> Z -> Z -> Z)
        (secret : Z * Z) (config : AssetConfig F) (variant_idx w h : Z)
        (g : Grid) :
  size config = (w, h) ->
  generate_pixel_grid noise2 detect_edges secret config variant_idx = Some g ->
  g_height g = h /\ g_width g = w /\ 0 <= w /\ 0 <= h
  /\ forall y x, grid_at g y x <> None <-> (0 <= y < h /\ 0 <= x < w).
Proof.
  intros Hsize Hgen.
  destruct (generate_inv _ _ _ _ _ _ Hgen)
    as (pal & f & rows & Hw & Hh & _ & Htab & Hg & _).
  rewrite Hsize in *. cbn [fst snd] in *.
  assert (Hpre : forall y x,
             grid_at (mkGrid h w rows) y x <> None
             <-> (0 <= y < h /\ 0 <= x < w)).
  { intros y x. split.
    - intros Hne. rewrite (tabulate_grid_at _ _ _ _ y x Htab) in Hne.
      destruct ((0 <=? y) && (y <? h) && (0 <=? x) && (x <? w)) eqn:Ein;
        [|congruence].
      rewrite !andb_true_iff, !Z.leb_le, !Z.ltb_lt in Ein. lia.
    - intros [Hy Hx].
      destruct (tabulate_pixel_some _ _ _ _ y x Htab Hy Hx) as (px & _ & Hpx).
      congruence. }
  subst g. destruct (is_prop_family (type config)).
  - cbn [outline g_height g_width].
    split; [reflexivity|]. split; [reflexivity|].
    split; [exact Hw|]. split; [exact Hh|].
    intros y x. rewrite (outline_grid_at _ _ _ _ _ y x Htab), <- Hpre.
    unfold RGBA in *.
    destruct (grid_at (mkGrid h w rows) y x); cbn [option_map];
      split; intros H; try discriminate; exfalso; apply H; reflexivity.
  - cbn [g_height g_width].
    split; [reflexivity|]. split; [reflexivity|].
    split; [exact Hw|]. split; [exact Hh|]. exact Hpre.
Qed.

Lemma generated_grid_has_the_configured_shape_witness :
  exists g,
    generate_pixel_grid no_noise no_edges (0, 0) bench_prop 0 = Some g
    /\ g_height g = 16 /\ g_width g = 32.
Proof.
  destruct (generate_pixel_grid no_noise no_edges (0, 0) bench_prop 0)
    as [g|] eqn:E; [|vm_compute in E; discriminate E].
  exists g. split; [reflexivity|].
  destruct (generated_grid_has_the_configured_shape no_noise no_edges (0, 0)
              bench_prop 0 32 16 g eq_refl E) as (Hh & Hw & _).
  split; assumption.
Defined.

(** X11: Every channel of every pixel of a generated grid is a byte, as the
    uint8 array requires. *)
Theorem generated_pixels_are_bytes
        {F : Type} {fl : PyFloat F}
        (noise2 : Z -> F -> F -> F) (detect_edges : Grid -> Z -> Z -> Z)
        (secret : Z * Z) (config : AssetConfig F) (variant_idx : Z)
        (g : Grid) (y x r g0 b a : Z) :
  generate_pixel_grid noise2 detect_edges secret config variant_idx = Some g ->
  grid_at g y x = Some (r, g0, b, a) ->
  0 <= r <= 255 /\ 0 <= g0 <= 255 /\ 0 <= b <= 255 /\ 0 <= a <= 255.
Proof.
  intros Hgen Hpx.
  destruct (generated_pixel_origin _ _ _ _ _ _ _ _ _ Hgen Hpx)
    as (pal & _ & [[_ Hblack] | (c & Hc & _)]).
  - inversion Hblack; subst. lia.
  - destruct (hex_to_rgba_range _ _ _ _ _ Hc) as (Hr & Hg & Hb & Ha & _).
    tauto.
Qed.

Lemma generated_pixels_are_bytes_witness :
  exists g r g0 b a,
    generate_pixel_grid no_noise no_edges (0, 0) bench_prop 0 = Some g
    /\ grid_at g 3 3 = Some (r, g0, b, a)
    /\ 0 <= r <= 255 /\ 0 <= g0 <= 255 /\ 0 <= b <= 255 /\ 0 <= a <= 255.
Proof.
  destruct (generate_pixel_grid no_noise no_edges (0, 0) bench_prop 0)
    as [g|] eqn:E; [|vm_compute in E; discriminate E].
  destruct (grid_at g 3 3) as [[[[r g0] b] a]|] eqn:Epx.
  - exists g, r, g0, b, a. split; [reflexivity|]. split; [exact Epx|].
    exact (generated_pixels_are_bytes no_noise no_edges (0, 0) bench_prop 0
             g 3 3 r g0 b a E Epx).
  - exfalso. vm_compute in E. inversion E; subst g.
    vm_compute in Epx. discriminate Epx.
Defined.

(** X12: Every pixel of a tile is one of the colours of its palette, whatever
    the noise source returns. *)
Theorem tile_pixels_are_palette_colours
        {F : Type} {fl : PyFloat F}
        (noise2 : Z -> F -> F -> F) (detect_edges : Grid -> Z -> Z -> Z)
        (secret : Z * Z) (config : AssetConfig F) (variant_idx : Z)
        (g : Grid) (y x : Z) (px : RGBA) :
  type config = "tile"%string ->
  generate_pixel_grid noise2 detect_edges secret config variant_idx = Some g ->
  grid_at g y x = Some px ->
  exists c, In c (palette config) /\ hex_to_rgba c = Some px.
Proof.
  intros Ht Hgen Hpx.
  destruct (generated_pixel_origin _ _ _ _ _ _ _ _ _ Hgen Hpx)
    as (pal & Hpal & Horigin).
  unfold variant_palette in Hpal. rewrite Ht in Hpal, Horigin.
  rewrite andb_false_r in Hpal. inversion Hpal; subst pal.
  destruct Horigin as [[Hprop _] | (c & Hc & [Hin | [Hnpc _]])].
  - discriminate Hprop.
  - exists c. split; assumption.
  - discriminate Hnpc.
Qed.

Lemma tile_pixels_are_palette_colours_witness :
  exists g px c,
    generate_pixel_grid no_noise no_edges (0, 0) seeded_tile 0 = Some g
    /\ grid_at g 1 2 = Some px
    /\ In c (palette seeded_tile) /\ hex_to_rgba c = Some px.
Proof.
  destruct (generate_pixel_grid no_noise no_edges (0, 0) seeded_tile 0)
    as [g|] eqn:E; [|vm_compute in E; discriminate E].
  destruct (grid_at g 1 2) as [px|] eqn:Epx.
  - destruct (tile_pixels_are_palette_colours no_noise no_edges (0, 0)
                seeded_tile 0 g 1 2 px eq_refl E Epx) as (c & Hin & Hc).
    exists g, px, c. split; [reflexivity|]. split; [exact Epx|].
    split; assumption.
  - exfalso. vm_compute in E. inversion E; subst g.
    vm_compute in Epx. discriminate Epx.
Defined.

(** X13: A prop or npc narrower or lower than 8 pixels gets no shape: every
    pixel is palette[0] (of the variant's palette), up to the outline pass
    of the prop family. *)
Theorem small_shape_is_a_solid_fill
        {F : Type} {fl : PyFloat F}
        (noise2 : Z -> F -> F -> F) (detect_edges : Grid -> Z -> Z -> Z)
        (secret : Z * Z) (config : AssetConfig F) (variant_idx w h : Z)
        (g : Grid) :
  size config = (w, h) -> w < 8 \/ h < 8 ->
  String.eqb (type config) "tile" = false ->
  generate_pixel_grid noise2 detect_edges secret config variant_idx = Some g ->
  exists pal base_color base,
    variant_palette config variant_idx = Some pal
    /\ py_index pal 0 = Some base_color
    /\ hex_to_rgba base_color = Some base
    /\ forall y x,
        0 <= y < h -> 0 <= x < w ->
        grid_at g y x = Some base
        \/ (is_prop_family (type config) = true
            /\ grid_at g y x = Some (0, 0, 0, 255)).
Proof.
  intros Hsize Hsmall Htile Hgen.
  destruct (generate_shape_inv _ _ _ _ _ _ Htile Hgen)
    as (pal & base_color & base & rows & Hpal & Hbc & Hbase & Htab & Hg).
  rewrite Hsize in Htab, Hg. cbn [fst snd] in Htab, Hg.
  exists pal, base_color, base.
  split; [exact Hpal|]. split; [exact Hbc|]. split; [exact Hbase|].
  intros y x Hy Hx.
  destruct (tabulate_pixel_some _ _ _ _ y x Htab Hy Hx) as (px & Hf & Hpx).
  assert (Epx : px = base).
  { unfold shape_pixel in Hf.
    replace ((8 <=? w) && (8 <=? h)) with false in Hf; [congruence|].
    symmetry. rewrite andb_false_iff, !Z.leb_gt. lia. }
  subst px g. destruct (is_prop_family (type config)); [|left; exact Hpx].
  rewrite (outline_grid_at _ _ _ _ _ y x Htab), Hpx. cbn [option_map].
  destruct (50 <? _); [right; split; reflexivity | left; reflexivity].
Qed.

Lemma small_shape_is_a_solid_fill_witness :
  exists g,
    generate_pixel_grid no_noise no_edges (0, 0) tiny_npc 0 = Some g
    /\ grid_at g 6 2 = Some (30, 74, 140, 255).
Proof.
  destruct (generate_pixel_grid no_noise no_edges (0, 0) tiny_npc 0)
    as [g|] eqn:E; [|vm_compute in E; discriminate E].
  exists g. split; [reflexivity|].
  destruct (small_shape_is_a_solid_fill no_noise no_edges (0, 0) tiny_npc 0
              4 12 g eq_refl ltac:(lia) eq_refl E)
    as (pal & base_color & base & Hpal & Hbc & Hbase & Hall).
  assert (Hb : base = (30, 74, 140, 255)).
  { vm_compute in Hpal. inversion Hpal; subst pal.
    vm_compute in Hbc. inversion Hbc; subst base_color.
    vm_compute in Hbase. inversion Hbase. reflexivity. }
  subst base.
  destruct (Hall 6 2 ltac:(lia) ltac:(lia)) as [H | [H _]];
    [exact H | vm_compute in H; discriminate H].
Defined.

Lemma generate_none_on_negative_size
      {F : Type} {fl : PyFloat F}
      (noise2 : Z -> F -> F -> F) (detect_edges : Grid -> Z -> Z -> Z)
      (secret : Z * Z) (config : AssetConfig F) (variant_idx : Z) :
  fst (size config) < 0 \/ snd (size config) < 0 ->
  generate_pixel_grid noise2 detect_edges secret config variant_idx = None.
Proof.
  unfold generate_pixel_grid. destruct (size config) as [w h]. cbn [fst snd].
  intros Hneg.
  replace ((w <? 0) || (h <? 0)) with true; [reflexivity|].
  symmetry. rewrite orb_true_iff, !Z.ltb_lt. exact Hneg.
Qed.

Lemma generate_none_on_empty_palette
      {F : Type} {fl : PyFloat F}
      (noise2 : Z -> F -> F -> F) (detect_edges : Grid -> Z -> Z -> Z)
      (secret : Z * Z) (config : AssetConfig F) (variant_idx : Z) :
  palette config = [] ->
  String.eqb (type config) "tile" = false
  \/ (0 < fst (size config) /\ 0 < snd (size config)) ->
  generate_pixel_grid noise2 detect_edges secret config variant_idx = None.
Proof.
  unfold generate_pixel_grid. destruct (size config) as [w h]. cbn [fst snd].
  intros Hpal Hcase.
  destruct ((w <? 0) || (h <? 0)); [reflexivity|].
  unfold variant_palette. rewrite Hpal.
  replace (if (0 <? variant_idx) && String.eqb (type config) "npc"
           then mapM (fun color => rotate_hue color (PInt (30 * variant_idx)))
                     []
           else Some []) with (Some (@nil string))
    by (destruct ((0 <? variant_idx) && String.eqb (type config) "npc");
        reflexivity).
  cbn [bind].
  destruct (String.eqb (type config) "tile") eqn:Et.
  - destruct Hcase as [Hc | [Hw Hh]]; [discriminate Hc|].
    rewrite (tabulate_none w h _ 0 0 ltac:(lia) ltac:(lia)); [reflexivity|].
    unfold tile_pixel. apply bind_none_iff.
    destruct (to_int _) as [idx|]; [|left; reflexivity].
    right. exists idx. split; [reflexivity|].
    apply bind_none_iff. left. unfold py_index. cbn [List.length Z.of_nat].
    destruct ((0 <=? _) && (_ <? 0)) eqn:E1;
      [rewrite andb_true_iff, Z.leb_le, Z.ltb_lt in E1; lia|].
    destruct ((- 0 <=? _) && (_ <? 0)) eqn:E2; [|reflexivity].
    rewrite andb_true_iff, Z.leb_le, Z.ltb_lt in E2. lia.
  - reflexivity.
Qed.

(** X14: [generate_pixel_grid] raises on a negative size, on an empty palette
    for every prop or npc, and on an empty palette for every tile that has
    at least one pixel. *)
Theorem generate_pixel_grid_rejects
        {F : Type} {fl : PyFloat F}
        (noise2 : Z -> F -> F -> F) (detect_edges : Grid -> Z -> Z -> Z)
        (secret : Z * Z) (config : AssetConfig F) (variant_idx : Z) :
  (fst (size config) < 0 \/ snd (size config) < 0 ->
   generate_pixel_grid noise2 detect_edges secret config variant_idx = None)
  /\ (palette config = [] ->
      String.eqb (type config) "tile" = false
      \/ (0 < fst (size config) /\ 0 < snd (size config)) ->
      generate_pixel_grid noise2 detect_edges secret config variant_idx = None).
Proof.
  split.
  - apply generate_none_on_negative_size.
  - apply generate_none_on_empty_palette.
Qed.

Lemma generate_pixel_grid_rejects_witness :
  generate_pixel_grid no_noise no_edges (0, 0)
    (sample_config "void" "tile" (4, 4) []) 0 = None.
Proof.
  apply (proj2 (generate_pixel_grid_rejects no_noise no_edges (0, 0)
                  (sample_config "void" "tile" (4, 4) []) 0)).
  - reflexivity.
  - right. cbn. lia.
Defined.

(** X15: The process secret (the built-in [hash]) is read for unseeded tiles
    only, and the noise source for tiles only: every other grid is the
    same whatever the two are. *)
Theorem generator_reads_hash_for_unseeded_tiles_only
        {F : Type} {fl : PyFloat F}
        (noise2 noise2' : Z -> F -> F -> F)
        (detect_edges : Grid -> Z -> Z -> Z)
        (secret secret' : Z * Z) (config : AssetConfig F) (variant_idx : Z) :
  (noise_seed config <> None ->
   generate_pixel_grid noise2 detect_edges secret config variant_idx
   = generate_pixel_grid noise2 detect_edges secret' config variant_idx)
  /\ (String.eqb (type config) "tile" = false ->
      generate_pixel_grid noise2 detect_edges secret config variant_idx
      = generate_pixel_grid noise2' detect_edges secret' config variant_idx).
Proof.
  split.
  - intros Hs. destruct (noise_seed config) as [s|] eqn:E; [|congruence].
    apply (seeded_grid_is_reproducible _ _ _ _ _ s). exact E.
  - intros Ht. unfold generate_pixel_grid. rewrite Ht. reflexivity.
Qed.

Lemma generator_reads_hash_for_unseeded_tiles_only_witness :
  generate_pixel_grid no_noise no_edges (secret_of_hashseed 1) seeded_tile 0
  = generate_pixel_grid no_noise no_edges (secret_of_hashseed 2) seeded_tile 0.
Proof.
  apply (proj1 (generator_reads_hash_for_unseeded_tiles_only no_noise no_noise
                  no_edges (secret_of_hashseed 1) (secret_of_hashseed 2)
                  seeded_tile 0)).
  discriminate.
Defined.

(* ================================================================== *)
(** * Further properties of the packer *)
(* ================================================================== *)

Section PackerProperties.
Variable paste_pixel : RGBA -> RGBA -> RGBA.
Variable configs : list (string * AssetConfig float).

(** An invariant kept by every placement is kept by the whole loop. *)
Lemma pack_loop_invariant (P : PackState -> Prop) (Q : string * Grid -> Prop) :
  (forall st s st',
      Q s -> P st -> pack_step paste_pixel configs st s = Some st' -> P st') ->
  forall l st st',
    Forall Q l -> P st ->
    pack_loop paste_pixel configs st l = Some st' -> P st'.
Proof.
  intros Hstep. induction l as [|s t IH]; intros st st' HQ HP H;
    cbn [pack_loop] in H.
  - inversion H; subst; exact HP.
  - inv_bind H. inversion HQ; subst.
    eapply IH; [eassumption | | exact H].
    eapply Hstep; eassumption.
Qed.

Lemma pack_loop_records (l : list (string * Grid)) :
  forall st st',
    pack_loop paste_pixel configs st l = Some st' ->
    exists new,
      frames st' = frames st ++ new
      /\ Forall2 (frame_records_sprite configs) l new.
Proof.
  induction l as [|s t IH]; intros st st' H; cbn [pack_loop] in H.
  - inversion H; subst. exists []. split; [rewrite app_nil_r; reflexivity|].
    constructor.
  - inv_bind H. destruct (IH _ _ H) as (new & Hnew & Hall).
    destruct (pack_step_inv _ _ _ _ _ E) as (atlas1 & cfg & Hinv).
    destruct (wrap_row st (sprite_width s)) as [[cx cy] rowh].
    destruct Hinv as (_ & Hcfg & _ & Hf & _).
    eexists. split.
    + rewrite Hnew, Hf, <- app_assoc. reflexivity.
    + constructor; [|exact Hall].
      unfold frame_records_sprite. cbn [fst snd frame rw rh rotated trimmed
        spriteSourceSize sourceSize frame_anchor].
      repeat (split; [reflexivity|]).
      exists cfg. split; [exact Hcfg | reflexivity].
Qed.

Lemma pack_step_missing_config (st : PackState) (s : string * Grid) :
  dict_get configs (base_name_of (fst s)) = None ->
  pack_step paste_pixel configs st s = None.
Proof.
  intros Hm. destruct s as [n g]. unfold pack_step. cbn [fst] in Hm.
  destruct (wrap_row st (g_width g)) as [[cx cy] rowh].
  destruct (if atlas_size st <? cy + g_height g
            then grow_atlas (atlas st) (atlas_size st)
            else Some (atlas st, atlas_size st)) as [[a1 s1]|];
    cbn [bind]; [|reflexivity].
  rewrite Hm. reflexivity.
Qed.

Lemma pack_loop_missing_config (l : list (string * Grid)) (s : string * Grid) :
  In s l -> dict_get configs (base_name_of (fst s)) = None ->
  forall st, pack_loop paste_pixel configs st l = None.
Proof.
  intros Hin Hm. induction l as [|s' t IH]; [destruct Hin|].
  intros st. cbn [pack_loop].
  destruct Hin as [-> | Hin].
  - rewrite pack_step_missing_config by exact Hm. reflexivity.
  - destruct (pack_step paste_pixel configs st s'); cbn [bind];
      [apply IH; exact Hin | reflexivity].
Qed.

Lemma pack_step_keeps_side (s0 : Z) (st st' : PackState) (s : string * Grid) :
  side_invariant s0 st ->
  pack_step paste_pixel configs st s = Some st' ->
  side_invariant s0 st' /\ atlas_size st <= atlas_size st'.
Proof.
  intros (Hw & Hh & Hp & Hs0) Hstep.
  destruct (pack_step_inv _ _ _ _ _ Hstep) as (atlas1 & cfg & Hinv).
  destruct (wrap_row st (sprite_width s)) as [[cx cy] rowh].
  destruct Hinv as (Hgrow & _ & Hatlas & _).
  assert (Hdims : im_w atlas1 = atlas_size st' /\ im_h atlas1 = atlas_size st'
                  /\ is_pow2 (atlas_size st')
                  /\ atlas_size st <= atlas_size st').
  { destruct (must_grow st s).
    - rewrite grow_atlas_grown_size in Hgrow.
      destruct (grown_size (atlas_size st)) as [n|] eqn:En; [|discriminate].
      assert (Hn : atlas_size st' = n) by (inversion Hgrow; reflexivity).
      assert (Ha : atlas1 = image_paste (image_new n n) (atlas st) 0 0)
        by (inversion Hgrow; reflexivity).
      subst atlas1. rewrite Hn. cbn [image_paste image_new im_w im_h].
      destruct (grown_size_spec _ _ Hp En) as [Hv Hpn].
      split; [reflexivity|]. split; [reflexivity|]. split; [exact Hpn|].
      destruct (atlas_size st =? 1) eqn:E1.
      + apply Z.eqb_eq in E1. lia.
      + destruct Hp as (k & Hk & Hpk).
        pose proof (Z.pow_pos_nonneg 2 k ltac:(lia) Hk). lia.
    - assert (Hn : atlas_size st' = atlas_size st)
        by (inversion Hgrow; reflexivity).
      assert (Ha : atlas1 = atlas st) by (inversion Hgrow; reflexivity).
      subst atlas1. rewrite Hn. repeat split; try assumption. lia. }
  destruct Hdims as (H1 & H2 & H3 & H4).
  split; [|exact H4].
  unfold side_invariant. rewrite Hatlas. cbn [image_paste_masked im_w im_h].
  repeat split; try assumption. lia.
Qed.

Lemma pack_step_keeps_cursor (s0 : Z) (st st' : PackState) (s : string * Grid) :
  0 <= sprite_width s /\ 0 <= sprite_height s ->
  side_invariant s0 st /\ cursor_invariant s0 st ->
  pack_step paste_pixel configs st s = Some st' ->
  side_invariant s0 st' /\ cursor_invariant s0 st'.
Proof.
  intros [Hsw Hsh] [Hside (Hx & Hy & Hr & Hall)] Hstep.
  destruct (pack_step_keeps_side _ _ _ _ Hside Hstep) as [Hside' Hmono].
  split; [exact Hside'|].
  destruct Hside as (_ & _ & _ & Hs0).
  destruct (pack_step_inv _ _ _ _ _ Hstep) as (atlas1 & cfg & Hinv).
  unfold wrap_row in Hinv.
  unfold cursor_invariant.
  destruct (atlas_size st <? current_x st + sprite_width s) eqn:Ewrap;
    destruct Hinv as (_ & _ & _ & Hf & Hcx & Hcy & Hrh);
    rewrite Hf, Hcx, Hcy, Hrh; unfold frame_rects in *; rewrite map_app;
    cbn [map snd frame].
  - split; [lia|]. split; [lia|]. split; [lia|].
    apply Forall_app. split.
    + eapply Forall_impl; [|exact Hall]. cbn. intros r (? & ? & Himp).
      split; [assumption|]. split; [assumption|]. intros Hle.
      specialize (Himp Hle). lia.
    + constructor; [|constructor]. cbn. split; [lia|]. split; [lia|].
      intros Hle. lia.
  - apply Z.ltb_ge in Ewrap.
    split; [lia|]. split; [lia|]. split; [lia|].
    apply Forall_app. split.
    + eapply Forall_impl; [|exact Hall]. cbn. intros r (? & ? & Himp).
      split; [assumption|]. split; [assumption|]. intros Hle.
      specialize (Himp Hle). lia.
    + constructor; [|constructor]. cbn. split; [lia|]. split; [lia|].
      intros Hle. lia.
Qed.

Lemma pack_step_keeps_background (st st' : PackState) (s : string * Grid) :
  background_invariant st ->
  pack_step paste_pixel configs st s = Some st' ->
  background_invariant st'.
Proof.
  intros Hbg Hstep x y Hout.
  destruct (pack_step_inv _ _ _ _ _ Hstep) as (atlas1 & cfg & Hinv).
  destruct (wrap_row st (sprite_width s)) as [[cx cy] rowh].
  destruct Hinv as (Hgrow & _ & Hatlas & Hf & _).
  rewrite Hf in Hout. unfold frame_rects in Hout. rewrite map_app in Hout.
  apply Forall_app in Hout. destruct Hout as [Hold Hnew].
  inversion Hnew as [|? ? Hbox _]; subst. cbn [snd frame rx ry rw rh] in Hbox.
  rewrite Hatlas. cbn [image_paste_masked im_px image_fromarray im_w im_h].
  fold (sprite_width s) (sprite_height s). rewrite Hbox. cbn [andb].
  specialize (Hbg x y Hold).
  destruct (must_grow st s).
  - rewrite grow_atlas_grown_size in Hgrow.
    destruct (grown_size (atlas_size st)) as [n|]; [|discriminate].
    assert (Ha : atlas1 = image_paste (image_new n n) (atlas st) 0 0)
      by (inversion Hgrow; reflexivity).
    subst atlas1. cbn [image_paste im_px image_new].
    rewrite !Z.sub_0_r, Hbg. destruct (_ && _); reflexivity.
  - assert (Ha : atlas1 = atlas st) by (inversion Hgrow; reflexivity).
    subst atlas1. exact Hbg.
Qed.
End PackerProperties.

Lemma frames_are_pairwise_disjoint_witness :
  exists atlas0 frames0,
    pack_sprites paste_replace configs_abc sprites_32_16_16
    = Some (atlas0, frames0)
    /\ ForallOrdPairs rect_disjoint (frame_rects frames0).
Proof.
  destruct (pack_sprites paste_replace configs_abc sprites_32_16_16)
    as [[atlas0 frames0]|] eqn:E; [|vm_compute in E; discriminate E].
  exists atlas0, frames0. split; [reflexivity|].
  apply (frames_are_pairwise_disjoint paste_replace configs_abc
           sprites_32_16_16 atlas0 frames0); [|exact E].
  repeat constructor; vm_compute; discriminate.
Defined.

Lemma pack_sprites_records
      (paste_pixel : RGBA -> RGBA -> RGBA)
      (configs : list (string * AssetConfig float))
      (sprites : list (string * Grid))
      (atlas0 : Image) (frames0 : list (string * FrameEntry)) :
  pack_sprites paste_pixel configs sprites = Some (atlas0, frames0) ->
  Forall2 (frame_records_sprite configs) (sorted_sprites sprites) frames0.
Proof.
  intros H. unfold pack_sprites in H.
  inv_bind H. inv_bind H. inversion H; subst; clear H.
  destruct (pack_loop_records _ _ _ _ _ E0) as (new & Hnew & Hall).
  cbn [pack_init frames app] in Hnew. rewrite Hnew. exact Hall.
Qed.

Lemma pack_sprites_square
      (paste_pixel : RGBA -> RGBA -> RGBA)
      (configs : list (string * AssetConfig float))
      (sprites : list (string * Grid))
      (atlas0 : Image) (frames0 : list (string * FrameEntry)) :
  pack_sprites paste_pixel configs sprites = Some (atlas0, frames0) ->
  exists s0 side,
    initial_atlas_size (sorted_sprites sprites) = Some s0
    /\ is_pow2 side /\ s0 <= side
    /\ im_w atlas0 = side /\ im_h atlas0 = side.
Proof.
  intros H. unfold pack_sprites in H.
  inv_bind H. inv_bind H. inversion H; subst; clear H.
  assert (Hp : is_pow2 z).
  { unfold initial_atlas_size in E. inv_bind E.
    eapply (next_power_of_2_pow2 (fl:=IEEE)); exact E. }
  assert (Hinv : side_invariant z p).
  { eapply (pack_loop_invariant paste_pixel configs (side_invariant z)
              (fun _ => True)); [| |split; [|split; [|split]]|exact E0].
    - intros st s st' _ HP Hs.
      exact (proj1 (pack_step_keeps_side _ _ _ _ _ _ HP Hs)).
    - apply Forall_forall. intros; exact I.
    - reflexivity.
    - reflexivity.
    - exact Hp.
    - cbn [pack_init atlas_size]. lia. }
  destruct Hinv as (Hw & Hh & Hpow & Hle).
  exists z, (atlas_size p).
  split; [reflexivity|]. split; [exact Hpow|]. split; [exact Hle|].
  split; [exact Hw | exact Hh].
Qed.

(** X17: The frame table lists the sprites in packing order (stable, by
    decreasing height): entry [i] carries the name and the width and height
    of the [i]-th sorted sprite, is neither rotated nor trimmed, has the
    whole sprite as source rectangle, and takes its anchor from the
    configuration stored under the sprite's base name. *)
Theorem frames_record_the_sorted_sprites
        (paste_pixel : RGBA -> RGBA -> RGBA)
        (configs : list (string * AssetConfig float))
        (sprites : list (string * Grid))
        (atlas0 : Image) (frames0 : list (string * FrameEntry)) :
  pack_sprites paste_pixel configs sprites = Some (atlas0, frames0) ->
  Forall2 (frame_records_sprite configs) (sorted_sprites sprites) frames0.
Proof. apply pack_sprites_records. Qed.

Lemma frames_record_the_sorted_sprites_witness :
  exists atlas0 frames0,
    pack_sprites paste_replace configs_abc sprites_32_16_16
    = Some (atlas0, frames0)
    /\ Forall2 (frame_records_sprite configs_abc)
               (sorted_sprites sprites_32_16_16) frames0.
Proof.
  destruct (pack_sprites paste_replace configs_abc sprites_32_16_16)
    as [[atlas0 frames0]|] eqn:E; [|vm_compute in E; discriminate E].
  exists atlas0, frames0. split; [reflexivity|].
  exact (frames_record_the_sorted_sprites paste_replace configs_abc
           sprites_32_16_16 atlas0 frames0 E).
Defined.

(** X18: Packing raises [KeyError] as soon as one sprite's base name (the name
    up to its first ["_variant_"]) has no configuration: no atlas is
    produced, whatever the other sprites are. *)
Theorem pack_sprites_needs_a_config_for_every_sprite
        (paste_pixel : RGBA -> RGBA -> RGBA)
        (configs : list (string * AssetConfig float))
        (sprites : list (string * Grid)) (s : string * Grid) :
  In s sprites ->
  dict_get configs (base_name_of (fst s)) = None ->
  pack_sprites paste_pixel configs sprites = None.
Proof.
  intros Hin Hm. unfold pack_sprites.
  destruct (initial_atlas_size (sorted_sprites sprites)) as [s0|];
    cbn [bind]; [|reflexivity].
  rewrite (pack_loop_missing_config paste_pixel configs
             (sorted_sprites sprites) s); [reflexivity | | exact Hm].
  eapply Permutation_in; [apply sorted_desc_perm | exact Hin].
Qed.

Lemma pack_sprites_needs_a_config_for_every_sprite_witness :
  pack_sprites paste_replace configs_abc
    (sprites_32_16_16 ++ one_sprite "d_variant_1" 16 16) = None.
Proof.
  apply (pack_sprites_needs_a_config_for_every_sprite paste_replace
           configs_abc _ ("d_variant_1"%string, solid_grid 16 16 (93, 41, 6, 255))).
  - apply in_or_app. right. left. reflexivity.
  - vm_compute. reflexivity.
Defined.

(** X19: The packed atlas is a square whose side is a power of two not below
    the initial side, and the manifest's [meta.size] is that side twice. *)
Theorem packed_atlas_is_a_power_of_two_square
        (paste_pixel : RGBA -> RGBA -> RGBA)
        (configs : list (string * AssetConfig float))
        (sprites : list (string * Grid))
        (atlas0 : Image) (frames0 : list (string * FrameEntry)) :
  pack_sprites paste_pixel configs sprites = Some (atlas0, frames0) ->
  exists s0 side,
    initial_atlas_size (sorted_sprites sprites) = Some s0
    /\ is_pow2 side /\ s0 <= side
    /\ im_w atlas0 = side /\ im_h atlas0 = side
    /\ meta_size (write_output atlas0 frames0) = (side, side)
    /\ m_frames (write_output atlas0 frames0) = frames0.
Proof.
  intros H.
  destruct (pack_sprites_square _ _ _ _ _ H)
    as (s0 & side & H0 & Hpow & Hle & Hw & Hh).
  exists s0, side.
  split; [exact H0|]. split; [exact Hpow|]. split; [exact Hle|].
  split; [exact Hw|]. split; [exact Hh|].
  unfold write_output. cbn [meta_size m_frames]. rewrite Hw, Hh.
  split; reflexivity.
Qed.

Lemma packed_atlas_is_a_power_of_two_square_witness :
  exists atlas0 frames0,
    pack_sprites paste_replace (one_config "bench" 16 40) (one_sprite "bench" 16 40)
    = Some (atlas0, frames0)
    /\ exists s0 side,
        initial_atlas_size (sorted_sprites (one_sprite "bench" 16 40)) = Some s0
        /\ is_pow2 side /\ s0 <= side
        /\ im_w atlas0 = side /\ im_h atlas0 = side
        /\ meta_size (write_output atlas0 frames0) = (side, side)
        /\ m_frames (write_output atlas0 frames0) = frames0.
Proof.
  destruct (pack_sprites paste_replace (one_config "bench" 16 40)
              (one_sprite "bench" 16 40))
    as [[atlas0 frames0]|] eqn:E; [|vm_compute in E; discriminate E].
  exists atlas0, frames0. split; [reflexivity|].
  exact (packed_atlas_is_a_power_of_two_square paste_replace _ _ _ _ E).
Defined.

(** X20: Frames start at non-negative coordinates, and a frame no wider than
    the initial atlas side ends within the atlas width (sprites of
    non-negative width and height). *)
Theorem frames_stay_within_the_atlas_width
        (paste_pixel : RGBA -> RGBA -> RGBA)
        (configs : list (string * AssetConfig float))
        (sprites : list (string * Grid))
        (atlas0 : Image) (frames0 : list (string * FrameEntry)) (s0 : Z) :
  Forall (fun s => 0 <= sprite_width s /\ 0 <= sprite_height s) sprites ->
  initial_atlas_size (sorted_sprites sprites) = Some s0 ->
  pack_sprites paste_pixel configs sprites = Some (atlas0, frames0) ->
  Forall (fun r => 0 <= rx r /\ 0 <= ry r
                   /\ (rw r <= s0 -> rx r + rw r <= im_w atlas0))
         (frame_rects frames0).
Proof.
  intros Hdims H0 H. unfold pack_sprites in H. rewrite H0 in H.
  cbn [bind] in H. inv_bind H. inversion H; subst; clear H.
  assert (Hp : is_pow2 s0).
  { unfold initial_atlas_size in H0. inv_bind H0.
    eapply (next_power_of_2_pow2 (fl:=IEEE)); exact H0. }
  assert (Hinv : side_invariant s0 p /\ cursor_invariant s0 p).
  { eapply (pack_loop_invariant paste_pixel configs
              (fun st => side_invariant s0 st /\ cursor_invariant s0 st)
              (fun s => 0 <= sprite_width s /\ 0 <= sprite_height s));
      [| | |exact E].
    - intros st s st' HQ HP Hs.
      exact (pack_step_keeps_cursor _ _ _ _ _ _ HQ HP Hs).
    - eapply Permutation_Forall; [apply sorted_desc_perm | exact Hdims].
    - split.
      + split; [reflexivity|]. split; [reflexivity|]. split; [exact Hp|].
        cbn [pack_init atlas_size]. lia.
      + unfold cursor_invariant.
        cbn [pack_init current_x current_y row_height frames frame_rects map].
        split; [lia|]. split; [lia|]. split; [lia|]. constructor. }
  destruct Hinv as [(Hw & _) (_ & _ & _ & Hall)].
  rewrite Hw. exact Hall.
Qed.

Lemma frames_stay_within_the_atlas_width_witness :
  exists atlas0 frames0,
    pack_sprites paste_replace configs_abc sprites_32_16_16
    = Some (atlas0, frames0)
    /\ Forall (fun r => 0 <= rx r /\ 0 <= ry r
                        /\ (rw r <= 64 -> rx r + rw r <= im_w atlas0))
              (frame_rects frames0).
Proof.
  destruct (pack_sprites paste_replace configs_abc sprites_32_16_16)
    as [[atlas0 frames0]|] eqn:E; [|vm_compute in E; discriminate E].
  exists atlas0, frames0. split; [reflexivity|].
  apply (frames_stay_within_the_atlas_width paste_replace configs_abc
           sprites_32_16_16 atlas0 frames0 64); [| |exact E].
  - repeat constructor; vm_compute; discriminate.
  - vm_compute. reflexivity.
Defined.

(** X21: Every atlas pixel that lies in no frame is fully transparent: growing
    the atlas and pasting sprites never paint outside the frames. *)
Theorem atlas_is_transparent_outside_the_frames
        (paste_pixel : RGBA -> RGBA -> RGBA)
        (configs : list (string * AssetConfig float))
        (sprites : list (string * Grid))
        (atlas0 : Image) (frames0 : list (string * FrameEntry)) (x y : Z) :
  pack_sprites paste_pixel configs sprites = Some (atlas0, frames0) ->
  Forall (fun r => in_box (rx r) (ry r) (rw r) (rh r) x y = false)
         (frame_rects frames0) ->
  im_px atlas0 x y = transparent.
Proof.
  intros H. unfold pack_sprites in H.
  inv_bind H. inv_bind H. inversion H; subst; clear H.
  revert x y. change (background_invariant p).
  eapply (pack_loop_invariant paste_pixel configs background_invariant
            (fun _ => True)); [| | |exact E0].
  - intros st s st' _ HP Hs.
    exact (pack_step_keeps_background _ _ _ _ _ HP Hs).
  - apply Forall_forall. intros; exact I.
  - intros x y _. reflexivity.
Qed.

Lemma atlas_is_transparent_outside_the_frames_witness :
  exists atlas0 frames0,
    pack_sprites paste_replace configs_abc sprites_32_16_16
    = Some (atlas0, frames0)
    /\ im_px atlas0 50 40 = transparent.
Proof.
  destruct (pack_sprites paste_replace configs_abc sprites_32_16_16)
    as [[atlas0 frames0]|] eqn:E; [|vm_compute in E; discriminate E].
  exists atlas0, frames0. split; [reflexivity|].
  apply (atlas_is_transparent_outside_the_frames paste_replace configs_abc
           sprites_32_16_16 atlas0 frames0 50 40 E).
  remember (frame_rects frames0) as rects eqn:Hrects.
  assert (Hf : Some rects
               = option_map (fun p => frame_rects (snd p))
                   (pack_sprites paste_replace configs_abc sprites_32_16_16))
    by (rewrite E, Hrects; reflexivity).
  vm_compute in Hf. inversion Hf; subst rects.
  repeat constructor.
Defined.

(* ================================================================== *)
(** * Sprite names *)
(* ================================================================== *)

Lemma substring_skip_prefix (a b : string) (n : nat) :
  substring (String.length a) n (a ++ b) = substring 0 n b.
Proof. induction a as [|c a IH]; [reflexivity | exact IH]. Qed.

Lemma substring_whole_prefix (a b : string) :
  substring 0 (String.length a) (a ++ b) = a.
Proof.
  induction a as [|c a IH]; cbn.
  - destruct b; reflexivity.
  - rewrite IH. reflexivity.
Qed.

Lemma substring_inside_prefix (a b : string) :
  forall m k, (m + k <= String.length a)%nat ->
              substring m k (a ++ b) = substring m k a.
Proof.
  induction a as [|c a IH]; intros m k H; cbn in H.
  - assert (m = 0%nat) by lia. assert (k = 0%nat) by lia. subst.
    destruct b; reflexivity.
  - destruct m as [|m].
    + destruct k as [|k]; [reflexivity|].
      cbn. rewrite (IH 0%nat k) by lia. reflexivity.
    + cbn. apply IH. lia.
Qed.

Lemma string_append_assoc (a b c : string) :
  ((a ++ b) ++ c = a ++ (b ++ c))%string.
Proof. induction a as [|x a IH]; cbn; [|rewrite IH]; reflexivity. Qed.

Lemma string_length_append (a b : string) :
  String.length (a ++ b) = (String.length a + String.length b)%nat.
Proof. induction a as [|x a IH]; cbn; [|rewrite IH]; reflexivity. Qed.

Lemma first_marker_after_name (asset_name suffix : string) :
  index 0 "_variant_" (asset_name ++ "_variant") = None ->
  index 0 "_variant_" (asset_name ++ "_variant_" ++ suffix)
  = Some (String.length asset_name).
Proof.
  intros Hfree.
  assert (Hat : substring (String.length asset_name) 9
                  (asset_name ++ "_variant_" ++ suffix) = "_variant_"%string).
  { rewrite substring_skip_prefix.
    exact (substring_whole_prefix "_variant_" suffix). }
  assert (Hsplit : (asset_name ++ "_variant_" ++ suffix
                    = (asset_name ++ "_variant") ++ String "_" suffix)%string).
  { rewrite string_append_assoc. reflexivity. }
  destruct (index 0 "_variant_" (asset_name ++ "_variant_" ++ suffix))
    as [m|] eqn:E.
  - destruct (Nat.lt_trichotomy m (String.length asset_name))
      as [Hlt | [Heq | Hgt]].
    + exfalso. pose proof (index_correct1 _ _ _ _ E) as Hm.
      cbn [String.length] in Hm. rewrite Hsplit in Hm.
      rewrite substring_inside_prefix in Hm
        by (rewrite string_length_append; cbn [String.length]; lia).
      refine (index_correct3 0 m _ _ Hfree _ _ Hm); [discriminate | lia].
    + subst m. reflexivity.
    + exfalso.
      refine (index_correct2 _ _ _ _ E (String.length asset_name) _ Hgt Hat).
      lia.
  - exfalso.
    refine (index_correct3 0 (String.length asset_name) _ _ E _ _ Hat);
      [discriminate | lia].
Qed.

(** X22: A variant sprite is resolved to the asset it was generated from: when
    the marker ["_variant_"] does not occur in the asset's name followed by
    ["_variant"] (the name neither contains the marker nor ends with
    ["_variant"]), the base name [pack_sprites] computes for
    [f"{name}_variant_{i}"] is [name]. *)
Theorem variant_names_resolve_to_their_asset (asset_name : string) (i : Z) :
  index 0 "_variant_" (asset_name ++ "_variant") = None ->
  base_name_of (variant_name asset_name i) = asset_name.
Proof.
  intros Hfree. unfold base_name_of, variant_name.
  rewrite (first_marker_after_name asset_name (str_of_int i) Hfree).
  apply substring_whole_prefix.
Qed.

Lemma variant_names_resolve_to_their_asset_witness :
  base_name_of (variant_name "guard" 3) = "guard"%string.
Proof.
  apply (variant_names_resolve_to_their_asset "guard" 3).
  vm_compute. reflexivity.
Defined.

(** The hypothesis is needed: the variants of an asset named
    ["a_variant"] are resolved to ["a"]. *)
Example variant_of_a_name_ending_in_the_marker :
  variant_name "a_variant" 1 = "a_variant_variant_1"%string
  /\ base_name_of (variant_name "a_variant" 1) = "a"%string.
Proof. split; vm_compute; reflexivity. Qed.

(* ================================================================== *)
(** * The run as a whole *)
(* ================================================================== *)

Lemma dict_set_In {V} (d : list (string * V)) (k : string) (v : V)
      (k' : string) (v' : V) :
  In (k', v') (dict_set d k v) -> (k' = k /\ v' = v) \/ In (k', v') d.
Proof.
  induction d as [|[k0 v0] t IH]; cbn [dict_set].
  - intros [H | []]. inversion H. left. split; reflexivity.
  - destruct (String.eqb k0 k) eqn:E.
    + apply String.eqb_eq in E. subst k0.
      intros [H | H].
      * inversion H. left. split; reflexivity.
      * right. right. exact H.
    + intros [H | H].
      * right. left. exact H.
      * destruct (IH H) as [Hn | Ho]; [left; exact Hn | right; right; exact Ho].
Qed.

Lemma dict_set_new {V} (d : list (string * V)) (k : string) (v : V) :
  In (k, v) (dict_set d k v).
Proof.
  induction d as [|[k0 v0] t IH]; cbn [dict_set].
  - left. reflexivity.
  - destruct (String.eqb k0 k) eqn:E.
    + apply String.eqb_eq in E. subst k0. left. reflexivity.
    + right. exact IH.
Qed.

Lemma dict_set_other {V} (d : list (string * V)) (k : string) (v : V)
      (k' : string) (v' : V) :
  k' <> k -> In (k', v') d -> In (k', v') (dict_set d k v).
Proof.
  intros Hne. induction d as [|[k0 v0] t IH]; cbn [dict_set]; [intros []|].
  destruct (String.eqb k0 k) eqn:E.
  - apply String.eqb_eq in E. subst k0. intros [H | H].
    + inversion H. congruence.
    + right. exact H.
  - intros [H | H]; [left; exact H | right; exact (IH H)].
Qed.

Lemma In_range_from_1 (n i : Z) : In i (range_from_1 n) -> 1 <= i < n.
Proof.
  unfold range_from_1, range. rewrite map_map, in_map_iff.
  intros (k & Hk & Hin). apply in_seq in Hin. lia.
Qed.

Section RunProperties.
Context {F : Type} {fl : PyFloat F}.
Variable noise2 : Z -> F -> F -> F.
Variable detect_edges : Grid -> Z -> Z -> Z.
Variable secret : Z * Z.

Lemma parse_entries_origin (entries : list (string * AssetData F)) :
  forall configs n c,
    In (n, c) (parse_entries entries configs) ->
    In (n, c) configs
    \/ exists a, In (n, a) entries /\ c = parse_asset n a.
Proof.
  induction entries as [|[n0 a0] rest IH]; intros configs n c H;
    cbn [parse_entries] in H.
  - left. exact H.
  - destruct (IH _ _ _ H) as [Hacc | (a & Hin & Hc)].
    + destruct (dict_set_In _ _ _ _ _ Hacc) as [[Hn Hv] | Hold].
      * subst. right. exists a0. split; [left; reflexivity | reflexivity].
      * left. exact Hold.
    + right. exists a. split; [right; exact Hin | exact Hc].
Qed.

Lemma parse_entries_keeps (entries : list (string * AssetData F)) :
  forall configs n c,
    ~ In n (map fst entries) -> In (n, c) configs ->
    In (n, c) (parse_entries entries configs).
Proof.
  induction entries as [|[n0 a0] rest IH]; intros configs n c Hni Hin;
    cbn [parse_entries]; [exact Hin|].
  cbn [map fst] in Hni. apply IH.
  - intros H. apply Hni. right. exact H.
  - apply dict_set_other; [|exact Hin].
    intros ->. apply Hni. left. reflexivity.
Qed.

Lemma parse_entries_holds (entries : list (string * AssetData F)) :
  forall configs n a,
    NoDup (map fst entries) -> In (n, a) entries ->
    In (n, parse_asset n a) (parse_entries entries configs).
Proof.
  induction entries as [|[n0 a0] rest IH]; intros configs n a Hnd Hin;
    [destruct Hin|].
  cbn [map fst] in Hnd. inversion Hnd as [|? ? Hfresh Hnd']; subst.
  cbn [parse_entries]. destruct Hin as [Heq | Hin].
  - inversion Heq; subst. apply parse_entries_keeps; [exact Hfresh|].
    apply dict_set_new.
  - apply IH; assumption.
Qed.

Lemma generate_variants_origin (configs : list (string * AssetConfig F))
      (asset_name : string) (config : AssetConfig F) :
  In (asset_name, config) configs -> type config = "npc"%string ->
  forall indices acc sprites,
    (forall i, In i indices -> 1 <= i < variants config) ->
    Forall (sprite_origin noise2 detect_edges secret configs) acc ->
    generate_variants noise2 detect_edges secret asset_name config indices acc
    = Some sprites ->
    Forall (sprite_origin noise2 detect_edges secret configs) sprites.
Proof.
  intros Hin Hnpc. induction indices as [|i rest IH];
    intros acc sprites Hidx Hacc H; cbn [generate_variants] in H.
  - inversion H; subst. exact Hacc.
  - inv_bind H. eapply IH; [| |exact H].
    + intros j Hj. apply Hidx. right. exact Hj.
    + apply Forall_forall. intros [n g0] Hs.
      destruct (dict_set_In _ _ _ _ _ Hs) as [[Hn Hv] | Hold].
      * subst. exists asset_name, config, i. split; [exact Hin|].
        split; [exact E|]. right.
        split; [apply Hidx; left; reflexivity|].
        split; [exact Hnpc | reflexivity].
      * rewrite Forall_forall in Hacc. exact (Hacc _ Hold).
Qed.

Lemma generate_sprites_origin (all : list (string * AssetConfig F)) :
  forall configs acc sprites,
    (forall nc, In nc configs -> In nc all) ->
    Forall (sprite_origin noise2 detect_edges secret all) acc ->
    generate_sprites noise2 detect_edges secret configs acc = Some sprites ->
    Forall (sprite_origin noise2 detect_edges secret all) sprites.
Proof.
  induction configs as [|[n c] rest IH]; intros acc sprites Hsub Hacc H;
    cbn [generate_sprites] in H.
  - inversion H; subst. exact Hacc.
  - inv_bind H. inv_bind H.
    assert (Hin : In (n, c) all) by (apply Hsub; left; reflexivity).
    assert (Hbase : Forall (sprite_origin noise2 detect_edges secret all)
                      (dict_set acc n g)).
    { apply Forall_forall. intros [n' g'] Hs.
      destruct (dict_set_In _ _ _ _ _ Hs) as [[Hn Hv] | Hold].
      - subst. exists n, c, 0. split; [exact Hin|]. split; [exact E|].
        left. split; reflexivity.
      - rewrite Forall_forall in Hacc. exact (Hacc _ Hold). }
    eapply IH; [| |exact H].
    + intros nc Hnc. apply Hsub. right. exact Hnc.
    + destruct (String.eqb (type c) "npc" && (1 <? variants c)) eqn:Ev.
      * apply andb_true_iff in Ev. destruct Ev as [Et _].
        apply String.eqb_eq in Et.
        eapply generate_variants_origin; [exact Hin | exact Et | | | exact E0].
        -- intros i. apply In_range_from_1.
        -- exact Hbase.
      * inversion E0; subst. exact Hbase.
Qed.

Lemma generate_sprites_fails (configs : list (string * AssetConfig F))
      (n : string) (c : AssetConfig F) :
  In (n, c) configs ->
  generate_pixel_grid noise2 detect_edges secret c 0 = None ->
  forall acc, generate_sprites noise2 detect_edges secret configs acc = None.
Proof.
  intros Hin Hfail. induction configs as [|[n0 c0] rest IH]; [destruct Hin|].
  intros acc. cbn [generate_sprites]. destruct Hin as [Heq | Hin].
  - inversion Heq; subst. rewrite Hfail. reflexivity.
  - destruct (generate_pixel_grid noise2 detect_edges secret c0 0);
      cbn [bind]; [|reflexivity].
    destruct (if String.eqb (type c0) "npc" && (1 <? variants c0)
              then _ else _); cbn [bind]; [|reflexivity].
    apply IH. exact Hin.
Qed.

Lemma generated_dims (config : AssetConfig F) (i : Z) (g : Grid) :
  generate_pixel_grid noise2 detect_edges secret config i = Some g ->
  g_width g = fst (size config) /\ g_height g = snd (size config)
  /\ 0 <= fst (size config) /\ 0 <= snd (size config).
Proof.
  intros H.
  destruct (generate_inv _ _ _ _ _ _ H)
    as (pal & f & rows & Hw & Hh & _ & _ & Hg & _).
  subst g. destruct (is_prop_family (type config));
    cbn [outline g_height g_width]; repeat split; assumption.
Qed.
End RunProperties.

(** X23: Every sprite of the dictionary [main] builds is the base sprite of a
    configured asset, stored under the asset's name, or variant [i] of an
    npc, [1 <= i < variants], stored under [f"{name}_variant_{i}"]. *)
Theorem generated_sprites_come_from_the_configs
        {F : Type} {fl : PyFloat F}
        (noise2 : Z -> F -> F -> F) (detect_edges : Grid -> Z -> Z -> Z)
        (secret : Z * Z) (configs : list (string * AssetConfig F))
        (sprites : list (string * Grid)) :
  generate_sprites noise2 detect_edges secret configs [] = Some sprites ->
  Forall (sprite_origin noise2 detect_edges secret configs) sprites.
Proof.
  intros H.
  eapply generate_sprites_origin; [| |exact H].
  - intros nc Hnc. exact Hnc.
  - constructor.
Qed.

Lemma generated_sprites_come_from_the_configs_witness :
  exists sprites,
    generate_sprites no_noise no_edges (0, 0)
      (parse_entries smoke_document []) [] = Some sprites
    /\ Forall (sprite_origin no_noise no_edges (0, 0)
                 (parse_entries smoke_document [])) sprites.
Proof.
  destruct (generate_sprites no_noise no_edges (0, 0)
              (parse_entries smoke_document []) [])
    as [sprites|] eqn:E; [|vm_compute in E; discriminate E].
  exists sprites. split; [reflexivity|].
  exact (generated_sprites_come_from_the_configs no_noise no_edges (0, 0)
           (parse_entries smoke_document []) sprites E).
Defined.

Lemma validate_config_nil_sizes {F} {fl : PyFloat F} (pow : F -> F -> F)
      (assets : list (string * AssetData F)) :
  validate_config pow assets = Some [] ->
  forall n a, In (n, a) assets ->
              fst (d_size a) mod 4 = 0 /\ snd (d_size a) mod 4 = 0
              /\ Z.max (fst (d_size a)) (snd (d_size a)) <= 128.
Proof.
  induction assets as [|[n0 a0] rest IH]; intros H n a Hin; [destruct Hin|].
  cbn [validate_config] in H. inv_bind H. inv_bind H.
  inversion H as [Happ]. apply app_eq_nil in Happ. destruct Happ as [-> ->].
  destruct Hin as [Heq | Hin]; [|apply (IH eq_refl n a Hin)].
  inversion Heq; subst. clear IH E0 H.
  unfold validate_asset in E. destruct (d_size a) as [w h]. cbn [fst snd].
  inv_bind E. inversion E as [Happ].
  apply app_eq_nil in Happ. destruct Happ as [H1 Happ].
  apply app_eq_nil in Happ. destruct Happ as [H2 _].
  destruct (negb (w mod 4 =? 0) || negb (h mod 4 =? 0)) eqn:E1;
    [discriminate H1|].
  destruct (128 <? Z.max w h) eqn:E2; [discriminate H2|].
  apply orb_false_iff in E1. destruct E1 as [Ew Eh].
  apply negb_false_iff in Ew, Eh. apply Z.eqb_eq in Ew, Eh.
  apply Z.ltb_ge in E2. repeat split; assumption.
Qed.

Lemma Forall2_transfer {A B} (R : A -> B -> Prop) (P : A -> Prop)
      (Q : B -> Prop) (l : list A) (l' : list B) :
  (forall a b, P a -> R a b -> Q b) ->
  Forall2 R l l' -> Forall P l -> Forall Q l'.
Proof.
  intros Himp H. induction H as [|a b l l' Hab _ IH]; intros HP.
  - constructor.
  - inversion HP; subst. constructor; [eapply Himp; eassumption | auto].
Qed.

(** X24: What a successful run guarantees: the document has an ["assets"]
    mapping on which the validator is silent, every frame of the manifest
    has a width and a height between 0 and 128 that are multiples of 4, and
    [meta.size] is the atlas, a square with a power of two as side. *)
Theorem generated_manifest_obeys_the_size_rules
        (pow : float -> float -> float)
        (noise2 : Z -> float -> float -> float)
        (detect_edges : Grid -> Z -> Z -> Z) (secret : Z * Z)
        (paste_pixel : RGBA -> RGBA -> RGBA)
        (config_data : option (list (string * AssetData float)))
        (atlas_image : Image) (manifest : Manifest) :
  main pow noise2 detect_edges secret paste_pixel config_data
  = Some (Generated atlas_image manifest) ->
  (exists assets,
      config_data = Some assets /\ validate_config pow assets = Some [])
  /\ Forall frame_obeys_size_rules (m_frames manifest)
  /\ exists side,
      is_pow2 side /\ meta_size manifest = (side, side)
      /\ im_w atlas_image = side /\ im_h atlas_image = side.
Proof.
  intros H. unfold main in H. inv_bind H.
  destruct l as [|e errs]; [|discriminate H].
  destruct config_data as [assets|]; [|discriminate H].
  cbn [parse_config bind] in H. inv_bind H. inv_bind H.
  destruct p as [atlas0 frames0]. inversion H; subst; clear H.
  split; [exists assets; split; [reflexivity | exact E]|].
  split.
  - unfold write_output. cbn [m_frames].
    pose proof (pack_sprites_records _ _ _ _ _ E1) as Hrec.
    pose proof (generate_sprites_origin noise2 detect_edges secret
                  (parse_entries assets []) (parse_entries assets []) [] l
                  (fun nc Hnc => Hnc) (Forall_nil _) E0) as Horig.
    assert (Hsorted : Forall (sprite_origin noise2 detect_edges secret
                                (parse_entries assets []))
                        (sorted_sprites l)).
    { eapply Permutation_Forall; [apply sorted_desc_perm | exact Horig]. }
    eapply Forall2_transfer; [|exact Hrec | exact Hsorted].
    intros s f (n & c & i & Hin & Hgen & _) (_ & Hrw & Hrh & _).
    destruct (parse_entries_origin _ _ _ _ Hin) as [[] | (a & Ha & Hc)].
    destruct (validate_config_nil_sizes pow assets E n a Ha)
      as (Hw4 & Hh4 & Hmax).
    destruct (generated_dims _ _ _ _ _ _ Hgen) as (Hgw & Hgh & Hw0 & Hh0).
    subst c. cbn [parse_asset size] in Hgw, Hgh, Hw0, Hh0.
    unfold frame_obeys_size_rules. rewrite Hrw, Hrh.
    unfold sprite_width, sprite_height. rewrite Hgw, Hgh.
    split; [exact Hw4|]. split; [exact Hh4|]. lia.
  - destruct (pack_sprites_square _ _ _ _ _ E1)
      as (s0 & side & _ & Hpow & _ & Hw & Hh).
    exists side. split; [exact Hpow|].
    unfold write_output. cbn [meta_size]. rewrite Hw, Hh.
    repeat split.
Qed.

Lemma generated_manifest_obeys_the_size_rules_witness :
  exists atlas_image manifest,
    main pow_stub no_noise no_edges (0, 0) paste_replace (Some smoke_document)
    = Some (Generated atlas_image manifest)
    /\ Forall frame_obeys_size_rules (m_frames manifest).
Proof.
  destruct (main pow_stub no_noise no_edges (0, 0) paste_replace
              (Some smoke_document))
    as [[errors | atlas_image manifest]|] eqn:E;
    [vm_compute in E; discriminate E | | vm_compute in E; discriminate E].
  exists atlas_image, manifest. split; [reflexivity|].
  exact (proj1 (proj2 (generated_manifest_obeys_the_size_rules pow_stub
                         no_noise no_edges (0, 0) paste_replace
                         (Some smoke_document) atlas_image manifest E))).
Defined.

(** X25: A silent validator does not mean the run succeeds: [main] ends in an
    uncaught exception when the document has no ["assets"] key, and when
    a validated asset has a negative width or height, or an empty palette
    and a type other than tile. *)
Theorem main_raises_on_validated_documents
        (pow : float -> float -> float)
        (noise2 : Z -> float -> float -> float)
        (detect_edges : Grid -> Z -> Z -> Z) (secret : Z * Z)
        (paste_pixel : RGBA -> RGBA -> RGBA) :
  main pow noise2 detect_edges secret paste_pixel None = None
  /\ forall assets n a,
      NoDup (map fst assets) ->
      validate_config pow assets = Some [] ->
      In (n, a) assets -> undrawable a ->
      main pow noise2 detect_edges secret paste_pixel (Some assets) = None.
Proof.
  split; [reflexivity|].
  intros assets n a Hnd Hval Hin Hbad. unfold main. rewrite Hval.
  cbn [bind parse_config].
  rewrite (generate_sprites_fails noise2 detect_edges secret
             (parse_entries assets []) n (parse_asset n a));
    [reflexivity | apply parse_entries_holds; assumption |].
  destruct Hbad as [Hw | [Hh | [Hpal Ht]]].
  - apply generate_none_on_negative_size. left. exact Hw.
  - apply generate_none_on_negative_size. right. exact Hh.
  - apply generate_none_on_empty_palette; [exact Hpal | left; exact Ht].
Qed.

Lemma main_raises_on_validated_documents_witness :
  validate_config pow_stub negative_document = Some []
  /\ main pow_stub no_noise no_edges (0, 0) paste_replace
       (Some negative_document) = None.
Proof.
  split; [vm_compute; reflexivity|].
  apply (proj2 (main_raises_on_validated_documents pow_stub no_noise no_edges
                  (0, 0) paste_replace)
           negative_document "hole"%string
           (mkAssetData "prop"%string (-4, 8) ["#5d2906"%string]
              None None None)).
  - repeat constructor; cbn; intuition discriminate.
  - vm_compute. reflexivity.
  - right. left. reflexivity.
  - left. cbn. lia.
Defined.

(* ================================================================== *)
(** * Anchors in the manifest *)
(* ================================================================== *)

Lemma dict_set_key_In {V} (d : list (string * V)) (k : string) (v : V)
      (k' : string) :
  In k' (map fst (dict_set d k v)) <-> k' = k \/ In k' (map fst d).
Proof.
  induction d as [|[k0 v0] t IH]; cbn [dict_set map fst In].
  - intuition congruence.
  - destruct (String.eqb k0 k) eqn:E; cbn [map fst In].
    + apply String.eqb_eq in E. subst k0. intuition congruence.
    + rewrite IH. intuition congruence.
Qed.

Lemma dict_set_NoDup {V} (d : list (string * V)) (k : string) (v : V) :
  NoDup (map fst d) -> NoDup (map fst (dict_set d k v)).
Proof.
  induction d as [|[k0 v0] t IH]; cbn [dict_set map fst]; intros H.
  - constructor; [intros [] | constructor].
  - inversion H as [|? ? Hfresh Hnd]; subst.
    destruct (String.eqb k0 k) eqn:E; cbn [map fst].
    + constructor; assumption.
    + constructor; [|exact (IH Hnd)].
      rewrite dict_set_key_In. intros [-> | Hin].
      * rewrite String.eqb_refl in E. discriminate E.
      * exact (Hfresh Hin).
Qed.

Lemma dict_get_In {V} (d : list (string * V)) (k : string) (v : V) :
  NoDup (map fst d) -> In (k, v) d -> dict_get d k = Some v.
Proof.
  induction d as [|[k0 v0] t IH]; cbn [dict_get map fst]; intros Hnd Hin;
    [destruct Hin|].
  inversion Hnd as [|? ? Hfresh Hnd']; subst.
  destruct Hin as [Heq | Hin].
  - inversion Heq; subst. rewrite String.eqb_refl. reflexivity.
  - destruct (String.eqb k0 k) eqn:E; [|exact (IH Hnd' Hin)].
    apply String.eqb_eq in E. subst k0. exfalso. apply Hfresh.
    change k with (fst (k, v)). apply in_map. exact Hin.
Qed.

Lemma parse_entries_NoDup {F} {fl : PyFloat F} (entries : list (string * AssetData F)) :
  forall configs,
    NoDup (map fst configs) ->
    NoDup (map fst (parse_entries entries configs)).
Proof.
  induction entries as [|[n a] rest IH]; intros configs H;
    cbn [parse_entries]; [exact H|].
  apply IH, dict_set_NoDup, H.
Qed.

Lemma substring_length (s : string) :
  forall m k,
    String.length (substring m k s) = Nat.min k (String.length s - m).
Proof.
  induction s as [|c s IH]; intros m k.
  - destruct m, k; reflexivity.
  - destruct m as [|m].
    + destruct k as [|k]; [reflexivity|].
      cbn. rewrite IH. lia.
    + cbn. rewrite IH. reflexivity.
Qed.

Lemma substring_found_inside (s t : string) (m : nat) :
  t <> EmptyString -> substring m (String.length t) s = t ->
  (m + String.length t <= String.length s)%nat.
Proof.
  intros Hne H. pose proof (substring_length s m (String.length t)) as Hl.
  rewrite H in Hl. destruct t as [|x t]; [congruence|].
  cbn [String.length] in *. lia.
Qed.

Lemma base_name_of_plain (asset_name : string) :
  index 0 "_variant_" (asset_name ++ "_variant") = None ->
  base_name_of asset_name = asset_name.
Proof.
  intros Hfree. unfold base_name_of.
  destruct (index 0 "_variant_" asset_name) as [m|] eqn:E; [|reflexivity].
  exfalso. pose proof (index_correct1 _ _ _ _ E) as Hm.
  assert (Hne : "_variant_"%string <> EmptyString) by discriminate.
  pose proof (substring_found_inside _ _ _ Hne Hm) as Hlen.
  rewrite <- (substring_inside_prefix asset_name "_variant" _ _ Hlen) in Hm.
  refine (index_correct3 0 m _ _ Hfree _ _ Hm); [discriminate | lia].
Qed.

Lemma Forall2_In_l {A B} (R : A -> B -> Prop) (l : list A) (l' : list B)
      (a : A) :
  Forall2 R l l' -> In a l -> exists b, In b l' /\ R a b.
Proof.
  intros H. induction H as [|x y l l' Hxy _ IH]; intros Hin; [destruct Hin|].
  destruct Hin as [-> | Hin].
  - exists y. split; [left; reflexivity | exact Hxy].
  - destruct (IH Hin) as (b & Hb & HR). exists b. split; [right|]; assumption.
Qed.

Lemma Forall2_In_r {A B} (R : A -> B -> Prop) (l : list A) (l' : list B)
      (b : B) :
  Forall2 R l l' -> In b l' -> exists a, In a l /\ R a b.
Proof.
  intros H. induction H as [|x y l l' Hxy _ IH]; intros Hin; [destruct Hin|].
  destruct Hin as [-> | Hin].
  - exists x. split; [left; reflexivity | exact Hxy].
  - destruct (IH Hin) as (a & Ha & HR). exists a. split; [right|]; assumption.
Qed.

Section SpriteKeys.
Context {F : Type} {fl : PyFloat F}.
Variable noise2 : Z -> F -> F -> F.
Variable detect_edges : Grid -> Z -> Z -> Z.
Variable secret : Z * Z.

Lemma generate_variants_keeps_keys (asset_name : string)
      (config : AssetConfig F) (indices : list Z) :
  forall acc sprites k,
    generate_variants noise2 detect_edges secret asset_name config indices acc
    = Some sprites ->
    In k (map fst acc) -> In k (map fst sprites).
Proof.
  induction indices as [|i rest IH]; intros acc sprites k H Hin;
    cbn [generate_variants] in H.
  - inversion H; subst. exact Hin.
  - inv_bind H. eapply IH; [exact H|].
    apply dict_set_key_In. right. exact Hin.
Qed.

Lemma generate_sprites_keeps_keys (configs : list (string * AssetConfig F)) :
  forall acc sprites k,
    generate_sprites noise2 detect_edges secret configs acc = Some sprites ->
    In k (map fst acc) -> In k (map fst sprites).
Proof.
  induction configs as [|[n c] rest IH]; intros acc sprites k H Hin;
    cbn [generate_sprites] in H.
  - inversion H; subst. exact Hin.
  - inv_bind H. inv_bind H. eapply IH; [exact H|].
    assert (Hk : In k (map fst (dict_set acc n g)))
      by (apply dict_set_key_In; right; exact Hin).
    destruct (String.eqb (type c) "npc" && (1 <? variants c)).
    + eapply generate_variants_keeps_keys; [exact E0 | exact Hk].
    + inversion E0; subst. exact Hk.
Qed.

Lemma generate_sprites_has_key (configs : list (string * AssetConfig F))
      (n : string) (c : AssetConfig F) :
  In (n, c) configs ->
  forall acc sprites,
    generate_sprites noise2 detect_edges secret configs acc = Some sprites ->
    In n (map fst sprites).
Proof.
  intros Hin. induction configs as [|[n0 c0] rest IH]; [destruct Hin|].
  intros acc sprites H. cbn [generate_sprites] in H.
  inv_bind H. inv_bind H. destruct Hin as [Heq | Hin].
  - inversion Heq; subst. eapply generate_sprites_keeps_keys; [exact H|].
    assert (Hk : In n (map fst (dict_set acc n g)))
      by (apply dict_set_key_In; left; reflexivity).
    destruct (String.eqb (type c) "npc" && (1 <? variants c)).
    + eapply generate_variants_keeps_keys; [exact E0 | exact Hk].
    + inversion E0; subst. exact Hk.
  - eapply IH; [exact Hin | exact H].
Qed.
End SpriteKeys.

(** X26: The manifest of a successful run carries the configured anchors: an
    asset whose name neither contains ["_variant_"] nor ends with
    ["_variant"] has a frame under its name, and every frame under its name
    or under one of its variant names has the anchor of the asset's entry,
    [(0.5, 0.5)] when the entry gives none. *)
Theorem manifest_anchors_are_the_configured_anchors
        (pow : float -> float -> float)
        (noise2 : Z -> float -> float -> float)
        (detect_edges : Grid -> Z -> Z -> Z) (secret : Z * Z)
        (paste_pixel : RGBA -> RGBA -> RGBA)
        (assets : list (string * AssetData float))
        (atlas_image : Image) (manifest : Manifest)
        (asset_name : string) (a : AssetData float) :
  NoDup (map fst assets) ->
  main pow noise2 detect_edges secret paste_pixel (Some assets)
  = Some (Generated atlas_image manifest) ->
  In (asset_name, a) assets ->
  index 0 "_variant_" (asset_name ++ "_variant") = None ->
  (exists f, In (asset_name, f) (m_frames manifest))
  /\ forall sprite_name f,
      In (sprite_name, f) (m_frames manifest) ->
      sprite_name = asset_name
      \/ (exists i, sprite_name = variant_name asset_name i) ->
      frame_anchor f = configured_anchor a.
Proof.
  intros Hnd H Hin Hfree. unfold main in H. inv_bind H.
  destruct l as [|e errs]; [|discriminate H].
  cbn [parse_config bind] in H. inv_bind H. inv_bind H.
  destruct p as [atlas0 frames0]. inversion H; subst; clear H.
  unfold write_output. cbn [m_frames].
  pose proof (pack_sprites_records _ _ _ _ _ E1) as Hrec.
  assert (Hcfg : In (asset_name, parse_asset asset_name a)
                    (parse_entries assets []))
    by (apply parse_entries_holds; assumption).
  assert (Hget : dict_get (parse_entries assets []) asset_name
                 = Some (parse_asset asset_name a)).
  { apply dict_get_In; [|exact Hcfg].
    apply parse_entries_NoDup. constructor. }
  split.
  - pose proof (generate_sprites_has_key noise2 detect_edges secret _ _ _
                  Hcfg _ _ E0) as Hkey.
    apply in_map_iff in Hkey. destruct Hkey as ([n g] & Hn & Hs).
    cbn [fst] in Hn. subst n.
    assert (Hsorted : In (asset_name, g) (sorted_sprites l))
      by (eapply Permutation_in; [apply sorted_desc_perm | exact Hs]).
    destruct (Forall2_In_l _ _ _ _ Hrec Hsorted) as ([n f] & Hf & Hn & _).
    cbn [fst] in Hn. subst n. exists f. exact Hf.
  - intros sprite_name f Hf Hname.
    destruct (Forall2_In_r _ _ _ _ Hrec Hf)
      as (s & _ & Hn & _ & _ & _ & _ & _ & _ & cfg & Hlook & Hanchor).
    cbn [fst snd] in Hn, Hanchor. rewrite <- Hn in Hlook.
    assert (Hbase : base_name_of sprite_name = asset_name).
    { destruct Hname as [-> | (i & ->)].
      - apply base_name_of_plain. exact Hfree.
      - unfold base_name_of, variant_name.
        rewrite (first_marker_after_name asset_name (str_of_int i) Hfree).
        apply substring_whole_prefix. }
    rewrite Hbase, Hget in Hlook. inversion Hlook; subst cfg.
    rewrite Hanchor. reflexivity.
Qed.

Lemma manifest_anchors_are_the_configured_anchors_witness :
  exists atlas_image manifest,
    main pow_stub no_noise no_edges (0, 0) paste_replace
      (Some anchored_document) = Some (Generated atlas_image manifest)
    /\ (exists f, In ("guard"%string, f) (m_frames manifest))
    /\ forall sprite_name f,
        In (sprite_name, f) (m_frames manifest) ->
        sprite_name = "guard"%string
        \/ (exists i, sprite_name = variant_name "guard" i) ->
        frame_anchor f = (0.5, 1)%float.
Proof.
  destruct (main pow_stub no_noise no_edges (0, 0) paste_replace
              (Some anchored_document))
    as [[errors | atlas_image manifest]|] eqn:E;
    [vm_compute in E; discriminate E | | vm_compute in E; discriminate E].
  exists atlas_image, manifest. split; [reflexivity|].
  apply (manifest_anchors_are_the_configured_anchors pow_stub no_noise
           no_edges (0, 0) paste_replace anchored_document atlas_image
           manifest "guard"%string
           (mkAssetData "npc"%string (8, 12) ["#1e4a8c"%string] None
              (Some (0.5, 1)%float) (Some 3))).
  - repeat constructor; cbn; intuition discriminate.
  - exact E.
  - left. reflexivity.
  - vm_compute. reflexivity.
Defined.

(* ================================================================== *)
(** * The validator against the rules as specified *)
(* ================================================================== *)

Section ValidatorRefinesRules.
Context {F : Type} {fl : PyFloat F}.
Variable pow : F -> F -> F.

Lemma linearize_is_spec (c : F) : linearize pow c = spec_srgb_to_linear pow c.
Proof. reflexivity. Qed.

Lemma luminance_is_spec (c : string) :
  luminance pow c = option_map (spec_relative_luminance pow) (hex_to_rgba c).
Proof.
  unfold luminance, spec_relative_luminance.
  destruct (hex_to_rgba c) as [[[[r g] b] a]|]; reflexivity.
Qed.

Lemma check_contrast_ratio_is_spec (c1 c2 : string) (ratio : F) :
  check_contrast_ratio pow c1 c2 = Some ratio
  <-> exists p1 p2,
      hex_to_rgba c1 = Some p1 /\ hex_to_rgba c2 = Some p2
      /\ ratio = spec_contrast_ratio pow p1 p2.
Proof.
  unfold check_contrast_ratio. rewrite !luminance_is_spec.
  destruct (hex_to_rgba c1) as [p1|]; cbn [option_map bind].
  - destruct (hex_to_rgba c2) as [p2|]; cbn [option_map bind].
    + split.
      * intros H. exists p1, p2. split; [reflexivity|].
        split; [reflexivity|]. inversion H. reflexivity.
      * intros (q1 & q2 & H1 & H2 & ->).
        inversion H1; inversion H2; subst. reflexivity.
    + split; [discriminate|]. intros (q1 & q2 & _ & H2 & _). discriminate H2.
  - split; [discriminate|]. intros (q1 & q2 & H1 & _). discriminate H1.
Qed.

Lemma min_contrast_is_spec (kind : string) :
  min_contrast_of kind = spec_min_contrast kind.
Proof. reflexivity. Qed.

Lemma adjacent_contrast_is_spec (a : AssetData F) (i : nat) (ratio : F) :
  adjacent_contrast pow a i ratio
  <-> exists p1 p2,
      spec_adjacent_pair a i p1 p2 /\ ratio = spec_contrast_ratio pow p1 p2.
Proof.
  unfold adjacent_contrast, spec_adjacent_pair. split.
  - intros (c1 & c2 & H1 & H2 & Hr).
    apply check_contrast_ratio_is_spec in Hr.
    destruct Hr as (p1 & p2 & Hp1 & Hp2 & ->).
    exists p1, p2. split; [|reflexivity].
    exists c1, c2. repeat split; assumption.
  - intros (p1 & p2 & (c1 & c2 & H1 & H2 & Hp1 & Hp2) & ->).
    exists c1, c2. split; [exact H1|]. split; [exact H2|].
    apply check_contrast_ratio_is_spec. exists p1, p2.
    repeat split; assumption.
Qed.

Lemma reports_violation_is_spec (n : string) (a : AssetData F)
      (e : ValidationError F) :
  reports_violation pow n a e <-> spec_violation pow n a e.
Proof.
  unfold reports_violation, spec_violation, size_rule, dimension_rule.
  rewrite min_contrast_is_spec. split.
  - intros [H | [H | (Hl & i & ratio & Hadj & Hlt & ->)]];
      [left; exact H | right; left; exact H | right; right].
    split; [exact Hl|].
    apply adjacent_contrast_is_spec in Hadj.
    destruct Hadj as (p1 & p2 & Hpair & ->).
    exists i, p1, p2. repeat split; assumption.
  - intros [H | [H | (Hl & i & p1 & p2 & Hpair & Hlt & ->)]];
      [left; exact H | right; left; exact H | right; right].
    split; [exact Hl|].
    exists i, (spec_contrast_ratio pow p1 p2). split; [|split].
    + apply adjacent_contrast_is_spec. exists p1, p2.
      split; [exact Hpair | reflexivity].
    + exact Hlt.
    + reflexivity.
Qed.

Lemma contrast_rule_is_spec (a : AssetData F) :
  contrast_rule pow a <-> spec_contrast_rule pow a.
Proof.
  unfold contrast_rule, spec_contrast_rule.
  rewrite min_contrast_is_spec. split.
  - intros H Hl i p1 p2 Hpair. apply (H Hl i).
    apply adjacent_contrast_is_spec. exists p1, p2.
    split; [exact Hpair | reflexivity].
  - intros H Hl i ratio Hadj.
    apply adjacent_contrast_is_spec in Hadj.
    destruct Hadj as (p1 & p2 & Hpair & ->). exact (H Hl i p1 p2 Hpair).
Qed.

Lemma hex_palettes_readable (assets : list (string * AssetData F)) :
  hex_palettes assets ->
  forall n a, In (n, a) assets -> readable_palette a.
Proof.
  intros Hwf n a Hin Hl. apply Forall_forall. intros c Hc Hnone.
  apply (proj1 (hex_to_rgba_none_iff c)) in Hnone.
  rewrite (Hwf n a c Hin Hl Hc) in Hnone. discriminate Hnone.
Qed.
End ValidatorRefinesRules.

(** C5: on a document whose palettes of length > 1 hold hex colours,
    [validate_config] raises nothing and returns a list that holds exactly
    the messages of the violations of the three rules, over every asset:
    a dimension not divisible by 4, a largest dimension above 128 and, for
    palettes of length > 1 only, each adjacent palette pair whose contrast
    ratio, as the specification defines it, is below the minimum of the
    kind (tile 1.5, npc 2.0, others 1.8). The list is empty exactly when
    every asset meets the three rules; pairs that are not adjacent are not
    part of the rule. *)
Theorem validate_config_reports_exactly_the_violations
        {F : Type} {fl : PyFloat F} (pow : F -> F -> F)
        (assets : list (string * AssetData F)) :
  hex_palettes assets ->
  exists errs,
    validate_config pow assets = Some errs
    /\ (forall e,
           In e errs <->
           exists n a, In (n, a) assets /\ spec_violation pow n a e)
    /\ (errs = [] <->
        forall n a, In (n, a) assets -> spec_rules_hold pow a).
Proof.
  intros Hwf. pose proof (hex_palettes_readable assets Hwf) as Hr.
  destruct (validate_config_spec pow assets Hr) as (errs & E & Hin).
  assert (Hspec : forall e,
             In e errs <->
             exists n a, In (n, a) assets /\ spec_violation pow n a e).
  { intros e. rewrite Hin. split; intros (n & a & Hna & Hv);
      exists n, a; (split; [exact Hna|]);
      apply reports_violation_is_spec; exact Hv. }
  exists errs. split; [exact E|]. split; [exact Hspec|].
  split.
  - intros -> n a Hna.
    assert (Hrules : size_rule a /\ dimension_rule a /\ contrast_rule pow a).
    { apply (no_violation_iff_rules pow n a (Hr n a Hna)).
      intros e He. apply (proj2 (Hin e)). exists n, a. split; assumption. }
    destruct Hrules as (Hs & Hd & Hc).
    split; [exact Hs|]. split; [exact Hd|].
    apply contrast_rule_is_spec. exact Hc.
  - intros Hall. destruct errs as [|e errs']; [reflexivity|].
    destruct (proj1 (Hin e) (or_introl eq_refl)) as (n & a & Hna & Hv).
    exfalso. destruct (Hall n a Hna) as (Hs & Hd & Hc).
    apply contrast_rule_is_spec in Hc.
    exact (proj2 (no_violation_iff_rules pow n a (Hr n a Hna))
                 (conj Hs (conj Hd Hc)) e Hv).
Qed.

Lemma validate_config_reports_exactly_the_violations_witness :
  validate_config pow_at_one contrast_document
  = Some [LowContrast "night" 0x1.0f8a638d8f24fp+0 1.5;
          SizeNotDivisible "lamp" 16 30;
          LowContrast "lamp" 0x1.5f47dcabd3925p+0 2]%float
  /\ (exists n a,
         In (n, a) contrast_document
         /\ spec_violation pow_at_one n a
              (LowContrast "night" 0x1.0f8a638d8f24fp+0 1.5)%float)
  /\ fltb (spec_contrast_ratio pow_at_one
             (255, 255, 255, 255) (255, 255, 255, 255))
          (spec_min_contrast "npc") = true.
Proof.
  destruct (validate_config_reports_exactly_the_violations pow_at_one
              contrast_document) as (errs & E & Hin & _).
  - intros n a c Hin Hlen Hc.
    repeat (destruct Hin as [Hin | Hin];
            [inversion Hin; subst; clear Hin;
             repeat (destruct Hc as [Hc | Hc];
                     [subst c; vm_compute; reflexivity|]);
             destruct Hc|]).
    destruct Hin.
  - assert (Hv : errs
                 = [LowContrast "night" 0x1.0f8a638d8f24fp+0 1.5;
                    SizeNotDivisible "lamp" 16 30;
                    LowContrast "lamp" 0x1.5f47dcabd3925p+0 2]%float).
    { vm_compute in E. inversion E. reflexivity. }
    split; [rewrite E, Hv; reflexivity|].
    split; [|vm_compute; reflexivity].
    apply (proj1 (Hin _)). rewrite Hv. left. reflexivity.
Defined.

(** The messages depend on [pow] through the luminances of the palette
    colours only. *)
Lemma contrast_errors_ext {F : Type} {fl : PyFloat F} (pow pow' : F -> F -> F)
      (n : string) (m : F) (pal : list string) :
  (forall c, In c pal -> luminance pow c = luminance pow' c) ->
  contrast_errors pow n m pal = contrast_errors pow' n m pal.
Proof.
  induction pal as [|c1 t IH]; intros Hl; [reflexivity|].
  destruct t as [|c2 t]; [reflexivity|].
  rewrite !contrast_errors_pair. unfold check_contrast_ratio.
  rewrite (Hl c1 (or_introl eq_refl)),
          (Hl c2 (or_intror (or_introl eq_refl))).
  rewrite IH; [reflexivity|].
  intros c Hc. apply Hl. right. exact Hc.
Qed.

Lemma validate_config_ext {F : Type} {fl : PyFloat F} (pow pow' : F -> F -> F)
      (assets : list (string * AssetData F)) :
  (forall n a c, In (n, a) assets -> In c (d_palette a) ->
                 luminance pow c = luminance pow' c) ->
  validate_config pow assets = validate_config pow' assets.
Proof.
  induction assets as [|[n a] rest IH]; intros Hl; [reflexivity|].
  cbn [validate_config]. rewrite IH.
  - unfold validate_asset.
    rewrite (contrast_errors_ext pow pow' n _ (d_palette a));
      [reflexivity|].
    intros c Hc. apply (Hl n a c); [left; reflexivity | exact Hc].
  - intros n' a' c Hin Hc. apply (Hl n' a' c); [right; exact Hin | exact Hc].
Qed.

(** The sample document gets the same messages from every [pow] that
    returns 1.0 for [pow(1.0, 2.4)], as the C library's does. *)
Lemma contrast_document_messages (pow : float -> float -> float) :
  pow 1%float (lit 24 10) = 1%float ->
  validate_config pow contrast_document
  = Some [LowContrast "night" 0x1.0f8a638d8f24fp+0 1.5;
          SizeNotDivisible "lamp" 16 30;
          LowContrast "lamp" 0x1.5f47dcabd3925p+0 2]%float.
Proof.
  intros Hone.
  rewrite (validate_config_ext pow pow_at_one contrast_document).
  - vm_compute. reflexivity.
  - intros n a c Hin Hc.
    assert (Hch : forall v, In v [0; 10; 255] ->
                            linearize pow
                              (@fdiv float IEEE (@of_int float IEEE v)
                                 (@of_int float IEEE 255))
                            = linearize pow_at_one
                                (@fdiv float IEEE (@of_int float IEEE v)
                                   (@of_int float IEEE 255))).
    { intros v [<- | [<- | [<- | []]]].
      - vm_compute. reflexivity.
      - vm_compute. reflexivity.
      - unfold linearize.
        replace (@fdiv float IEEE (@of_int float IEEE 255)
                   (@of_int float IEEE 255)) with 1%float
          by (vm_compute; reflexivity).
        replace (@fleb float IEEE 1%float (@lit float IEEE 3928 100000))
          with false by (vm_compute; reflexivity).
        replace (@fdiv float IEEE
                   (@fadd float IEEE 1%float (@lit float IEEE 55 1000))
                   (@lit float IEEE 1055 1000)) with 1%float
          by (vm_compute; reflexivity).
        rewrite Hone. vm_compute. reflexivity. }
    repeat (destruct Hin as [Hin | Hin];
            [inversion Hin; subst; clear Hin;
             repeat (destruct Hc as [Hc | Hc];
                     [subst c; unfold luminance;
                      match goal with
                      | |- context [hex_to_rgba ?s] =>
                          let v := eval vm_compute in (hex_to_rgba s) in
                          change (hex_to_rgba s) with v
                      end;
                      cbn [bind];
                      rewrite !Hch by (cbn; tauto); reflexivity|]);
             destruct Hc|]).
    destruct Hin.
Qed.
